(** * Range-series files: the block model of rs.c (rsdump / rsgen)

    A shallow embedding of src/rs.c.  An RS file is a big-endian RIFF-like
    sequence of blocks, each an 8-byte header (4-byte key, 32-bit size)
    followed by its payload.  rsdump decodes such a file into a linked
    list of nodes and writes one text record per node; rsgen reads the
    text records back, recomputes the sizes of the AQFT, HEAD and BODY
    super-blocks and writes the binary file.

    Conventions of the embedding:
    - a byte, and a character of the text file, is a [Z] in [0, 256);
    - [uint32_t] and [unsigned long] values are [Z] with the wrap-around
      written out ([wrap32], [wrap64]; [unsigned long] is 64 bits wide);
    - the linked list of [struct node] is a [list node], the [next]
      pointers being the list structure;
    - a [FILE *] opened for reading is the text that remains to be read
      (a saved [ftell] position is the remaining text at that moment and
      [fseek] back to it restores it);
    - [stderr] is a list of structured diagnostics ([diag]);
    - [malloc] and [fwrite] do not fail;
    - an access outside the file buffer, a store outside a block that
      [malloc] gave or outside a local array, and [free] on memory that
      [malloc] did not give end the run of the embedding ([OutOfBounds],
      [Overrun], [Undefined]): C does not say what follows. *)

From Stdlib Require Import Ascii String.
From Stdlib Require Import ZArith List Lia Bool Permutation.
Import ListNotations.
Local Open Scope Z_scope.

(** ** Machine integers and byte order *)

Definition wrap32 (z : Z) : Z := z mod 2 ^ 32.
Definition wrap64 (z : Z) : Z := z mod 2 ^ 64.

(** [sizeof(struct block_header)]: a packed key and size. *)
Definition sizeof_block_header : Z := 8.

(** The value of a byte sequence read most significant byte first. *)
Definition be_decode (bs : list Z) : Z :=
  fold_left (fun acc b => acc * 256 + b) bs 0.

(** The [n] low bytes of [v], most significant first. *)
Fixpoint be_encode (n : nat) (v : Z) : list Z :=
  match n with
  | O => []
  | S m => (v / 256 ^ Z.of_nat m) mod 256 :: be_encode m v
  end.

(** [swapcopy]: reverses objects of 2, 4 or 8 bytes, and leaves any other
    size alone (the [switch] has no default case). *)
Definition swapcopy (source : list Z) : list Z :=
  match length source with
  | 2%nat | 4%nat | 8%nat => rev source
  | _ => source
  end.

Definition fourcc := Z.

Definition KEY_AQFT : fourcc := 0x41514654.
Definition KEY_HEAD : fourcc := 0x48454144.
Definition KEY_sign : fourcc := 0x7369676e.
Definition KEY_mcda : fourcc := 0x6d636461.
Definition KEY_dbrf : fourcc := 0x64627266.
Definition KEY_cnst : fourcc := 0x636e7374.
Definition KEY_hasi : fourcc := 0x68617369.
Definition KEY_swep : fourcc := 0x73776570.
Definition KEY_fbin : fourcc := 0x6662696e.
Definition KEY_BODY : fourcc := 0x424f4459.
Definition KEY_rtag : fourcc := 0x72746167.
Definition KEY_gps1 : fourcc := 0x67707331.
Definition KEY_indx : fourcc := 0x696e6478.
Definition KEY_scal : fourcc := 0x7363616c.
Definition KEY_afft : fourcc := 0x61666674.
Definition KEY_ifft : fourcc := 0x69666674.
Definition KEY_END : fourcc := 0x454e4420.

Definition BINFORMAT_CVIQ : fourcc := 0x63766971.
Definition BINTYPE_FLT4 : fourcc := 0x666c7434.

Definition SIZE_LINE : nat := 256.
Definition SIZE_DESCRIPTION : nat := 64.
Definition SIZE_OWNERNAME : nat := 64.
Definition SIZE_COMMENT : nat := 64.

(** ** Nodes *)

(** What [node->data] points at: nothing, a place in the file buffer
    (rsdump: the nodes alias the buffer the file was read into), or a block
    of its own obtained from [malloc] (rsgen). *)
Inductive dptr : Type :=
| NullPtr
| BufPtr (off : nat)
| HeapPtr (bytes : list Z).

Record node : Type := mknode {
  key : fourcc;
  size : Z;
  data : dptr
}.

(** [superblock]: 1 for the keys whose payload is made of sub-blocks. *)
Definition superblock (k : fourcc) : bool :=
  if k =? KEY_AQFT then true
  else if k =? KEY_HEAD then true
  else if k =? KEY_BODY then true
  else if k =? KEY_END then true
  else false.

(** ** The size reconciler *)

Fixpoint calculate_body_size_loop (l : list node) (in_body : bool) (sz : Z) : Z :=
  match l with
  | [] => sz
  | n :: rest =>
      let in_body1 := if key n =? KEY_END then false else in_body in
      let sz1 := if in_body1 then wrap32 (sz + (size n + sizeof_block_header)) else sz in
      let in_body2 := if key n =? KEY_BODY then true else in_body1 in
      calculate_body_size_loop rest in_body2 sz1
  end.

Definition calculate_body_size (l : list node) : Z :=
  calculate_body_size_loop l false 0.

Fixpoint calculate_head_size_loop (l : list node) (in_head : bool) (sz : Z) : Z :=
  match l with
  | [] => sz
  | n :: rest =>
      let in_head1 := if key n =? KEY_END then false else in_head in
      let in_head2 := if key n =? KEY_BODY then false else in_head1 in
      let sz1 := if in_head2 then wrap32 (sz + (size n + sizeof_block_header)) else sz in
      let in_head3 := if key n =? KEY_HEAD then true else in_head2 in
      calculate_head_size_loop rest in_head3 sz1
  end.

Definition calculate_head_size (l : list node) : Z :=
  calculate_head_size_loop l false 0.

(** [set_block_size]: overwrites the size of the first node with the given
    key; 1 when there is none. *)
Fixpoint set_block_size (l : list node) (k : fourcc) (sz : Z) : Z * list node :=
  match l with
  | [] => (1, [])
  | n :: rest =>
      if key n =? k then (0, mknode (key n) sz (data n) :: rest)
      else let (e, rest') := set_block_size rest k sz in (e, n :: rest')
  end.

(** [fixup_sizes]: the list is updated in place, so a failure part of the
    way leaves the sizes already written. *)
Definition fixup_sizes (l : list node) : Z * list node :=
  let head_size := calculate_head_size l in
  if head_size =? 0 then (1, l) else
  let body_size := calculate_body_size l in
  if body_size =? 0 then (1, l) else
  let aqft_size :=
    wrap32 (head_size + sizeof_block_header + body_size + sizeof_block_header) in
  let (e1, l1) := set_block_size l KEY_AQFT aqft_size in
  if negb (e1 =? 0) then (1, l1) else
  let (e2, l2) := set_block_size l1 KEY_HEAD head_size in
  if negb (e2 =? 0) then (1, l2) else
  let (e3, l3) := set_block_size l2 KEY_BODY body_size in
  if negb (e3 =? 0) then (1, l3) else
  (0, l3).

(** The bytes a run of blocks occupies in the file: payload plus header. *)
Definition region_size (l : list node) : Z :=
  fold_right (fun n acc => size n + sizeof_block_header + acc) 0 l.

Definition is_sentinel (k : fourcc) : bool :=
  (k =? KEY_HEAD) || (k =? KEY_BODY) || (k =? KEY_END).

Definition opens_region (k : fourcc) : bool :=
  (k =? KEY_HEAD) || (k =? KEY_BODY).

Definition with_size (n : node) (sz : Z) : node := mknode (key n) sz (data n).

(** ** Diagnostics

    One constructor per [fprintf(stderr, ...)] of rs.c; a key printed with
    [strkey] is carried as the key, a number as the number. *)

Inductive conv : Type :=
| Conv_c (width : nat)   (* %<width>c *)
| Conv_s (width : nat)   (* %<width>s *)
| Conv_d                 (* %d *)
| Conv_u                 (* %u *)
| Conv_x                 (* %x *)
| Conv_lf.               (* %lf *)

(** A [read_parameter] format: literal text, then one conversion. *)
Record format : Type := mkformat {
  label : list Z;
  conversion : conv
}.

Inductive diag : Type :=
| D_size_truncated (k : fourcc) (declared clamped : Z)
| D_bad_key_zero
| D_cannot_locate (k : fourcc)
| D_cannot_fixup (k : fourcc)
| D_error_fixing (k : fourcc)
| D_block_truncated (k : fourcc)
| D_parser_error
| D_bad_header_key (k : fourcc)
| D_cannot_dump (k : fourcc)
| D_error_dumping (k : fourcc)
| D_cannot_gen (k : fourcc)
| D_error_in_block_at (k : fourcc) (line_count : Z)
| D_cannot_write (k : fourcc)
| D_error_in_block (k : fourcc)
| D_cannot_find_parameter (f : format)
| D_cannot_handle_binformat (v : Z)
| D_cannot_handle_bintype (v : Z)
| D_error_counting_lines (k : fourcc)
| D_bad_number_of_lines (n : Z) (k : fourcc)
| D_failed_iqdata (sample : Z) (line : list Z)
| D_error_reading (k : fourcc).

(** A step that either goes on with a value, or returns an error code,
    having printed its diagnostics, or writes outside the object it was
    given (a block from [malloc], a local array), where C says nothing
    about what follows. *)
Inductive result (A : Type) : Type :=
| Ok (a : A)
| Err (code : Z) (d : list diag)
| Overrun.
Arguments Ok {A} a.
Arguments Err {A} code d.
Arguments Overrun {A}.

Definition bind {A B : Type} (r : result A) (k : A -> result B) : result B :=
  match r with
  | Ok a => k a
  | Err c d => Err c d
  | Overrun => Overrun
  end.

Notation "x <- r ;; k" := (bind r (fun x => k))
  (at level 61, r at next level, right associativity).

(** ** Characters and C strings *)

Definition NUL : Z := 0.
Definition LF : Z := 10.

Definition char_of (c : Ascii.ascii) : Z := Z.of_N (Ascii.N_of_ascii c).

Fixpoint str (s : String.string) : list Z :=
  match s with
  | String.EmptyString => []
  | String.String c s' => char_of c :: str s'
  end.

(** The C string that starts a character array: what precedes the first
    NUL. *)
Fixpoint cstring (l : list Z) : list Z :=
  match l with
  | [] => []
  | c :: r => if c =? NUL then [] else c :: cstring r
  end.

Definition strlen (l : list Z) : Z := Z.of_nat (length (cstring l)).

(** [index(line, c) != NULL], for a character other than NUL. *)
Definition has_char (c : Z) (line : list Z) : bool :=
  existsb (fun x => x =? c) (cstring line).

Definition isspace (c : Z) : bool :=
  (c =? 32) || ((9 <=? c) && (c <=? 13)).

Fixpoint skip_space (s : list Z) : list Z :=
  match s with
  | c :: r => if isspace c then skip_space r else s
  | [] => []
  end.

(** Overwrites [buf] from offset [off] on; what would fall behind the end
    of [buf] is dropped. *)
Definition store (buf : list Z) (off : nat) (bytes : list Z) : list Z :=
  firstn off buf ++ firstn (length buf - off) bytes
    ++ skipn (off + length bytes) buf.

Definition slice (buf : list Z) (off len : nat) : list Z :=
  firstn len (skipn off buf).

(** ** Reading lines *)

(** The characters one [fgets] call takes when there is [room] for that
    many: up to and including the first newline. *)
Fixpoint fgets_chars (room : nat) (fd : list Z) : list Z * list Z :=
  match room, fd with
  | O, _ => ([], fd)
  | S _, [] => ([], [])
  | S room', c :: fd' =>
      if c =? LF then ([c], fd')
      else let (l, r) := fgets_chars room' fd' in (c :: l, r)
  end.

(** [fgets(line, n, fd)]: [None] is the NULL of end of file. *)
Definition fgets (n : nat) (fd : list Z) : option (list Z * list Z) :=
  match fd with
  | [] => None
  | _ => Some (fgets_chars (n - 1) fd)
  end.

(** The array [line] after [fgets] has put [chars] and a NUL in it; the
    bytes behind them keep their old value. *)
Definition store_line (old chars : list Z) : list Z :=
  store old 0 (chars ++ [NUL]).

(** The first newline of the C string becomes its end. *)
Fixpoint chomp_nl (line : list Z) : list Z :=
  match line with
  | [] => []
  | c :: r =>
      if c =? NUL then line
      else if c =? LF then NUL :: r
      else c :: chomp_nl r
  end.

Definition chomp (line : list Z) (max : nat) : list Z :=
  chomp_nl (store line (max - 1) [NUL]).

(** The C string in [line] after [fgets] and [chomp], for a [line] whose
    earlier content does not matter (a local array used as a string
    only). *)
Definition line_string (chars : list Z) : list Z :=
  cstring (chomp_nl (chars ++ [NUL])).
Arguments str s%_string.

(** ** printf and scanf conversions of integers *)

Definition digit_char (d : Z) : Z := if d <? 10 then 48 + d else 87 + d.

(** The digits of [v] in base [b], most significant first; [fuel] bounds
    their number. *)
Fixpoint print_base (b : Z) (fuel : nat) (v : Z) : list Z :=
  match fuel with
  | O => []
  | S f =>
      (if v / b =? 0 then [] else print_base b f (v / b))
        ++ [digit_char (v mod b)]
  end.

(** [%u] and [%lu], for a value below 2^64. *)
Definition printf_u (v : Z) : list Z := print_base 10 64 v.

(** [%d]. *)
Definition printf_d (v : Z) : list Z :=
  if v <? 0 then 45 :: print_base 10 64 (- v) else print_base 10 64 v.

(** [%x]. *)
Definition printf_x (v : Z) : list Z := print_base 16 64 v.

(** [%02x], for a byte. *)
Definition printf_02x (b : Z) : list Z :=
  [digit_char (b / 16); digit_char (b mod 16)].

(** [%3d]: padded with spaces on the left to three characters. *)
Definition printf_3d (v : Z) : list Z :=
  let s := printf_d v in
  repeat 32 (3 - length s) ++ s.

Definition digit_value (b c : Z) : option Z :=
  let d :=
    if (48 <=? c) && (c <=? 57) then c - 48
    else if (97 <=? c) && (c <=? 122) then c - 87
    else if (65 <=? c) && (c <=? 90) then c - 55
    else b in
  if d <? b then Some d else None.

(** The run of base-[b] digits that starts [s]: its value on top of [acc],
    how many digits it has on top of [n], and what follows it. *)
Fixpoint scan_digits (b : Z) (s : list Z) (acc : Z) (n : nat) : Z * nat * list Z :=
  match s with
  | c :: r =>
      match digit_value b c with
      | Some d => scan_digits b r (acc * b + d) (S n)
      | None => (acc, n, s)
      end
  | [] => (acc, n, [])
  end.

(** What a conversion makes of its input: end of input before anything
    was converted (sscanf returns EOF, -1), no match (0), or a converted
    item. *)
Inductive scanned (A : Type) : Type :=
| ScanEOF
| ScanFail
| ScanOK (a : A).
Arguments ScanEOF {A}.
Arguments ScanFail {A}.
Arguments ScanOK {A} a.

(** A prefix [0x] or [0X] is part of a base-16 number when a digit
    follows it. *)
Definition skip_0x (b : Z) (s : list Z) : list Z :=
  match s with
  | 48 :: x :: d :: r =>
      if (b =? 16) && ((x =? 120) || (x =? 88)) then
        match digit_value 16 d with
        | Some _ => d :: r
        | None => s
        end
      else s
  | _ => s
  end.

(** An integer as scanf and strtol read it: white space, a sign, digits.
    The result is the sign, the magnitude and the rest of the input. *)
Definition scan_int (b : Z) (s : list Z) : scanned (bool * Z * list Z) :=
  match skip_space s with
  | [] => ScanEOF
  | c :: r =>
      let '(neg, s2) :=
        if c =? 45 then (true, r)
        else if c =? 43 then (false, r)
        else (false, c :: r) in
      let '(m, n, rest) := scan_digits b (skip_0x b s2) 0 0 in
      match n with
      | O => ScanFail
      | S _ => ScanOK (neg, m, rest)
      end
  end.

(** The [long] that strtol gives: out of range values stick to the
    bounds. *)
Definition strtol_value (neg : bool) (m : Z) : Z :=
  Z.max (- 2 ^ 63) (Z.min (2 ^ 63 - 1) (if neg then - m else m)).

(** The [unsigned long] that strtoul gives: too large a magnitude gives
    ULONG_MAX, a minus sign negates modulo 2^64. *)
Definition strtoul_value (neg : bool) (m : Z) : Z :=
  if 2 ^ 64 <=? m then 2 ^ 64 - 1
  else if neg then wrap64 (- m) else m.

(** [strtoul(s, NULL, 16)]: 0 when there is no number. *)
Definition strtoul16 (s : list Z) : Z :=
  match scan_int 16 s with
  | ScanOK (neg, m, _) => strtoul_value neg m
  | _ => 0
  end.

(** The literal text of a format against the line. *)
Fixpoint match_literal (lit line : list Z) : scanned (list Z) :=
  match lit with
  | [] => ScanOK line
  | f :: lit' =>
      match line with
      | [] => ScanEOF
      | c :: line' => if c =? f then match_literal lit' line' else ScanFail
      end
  end.

Fixpoint take_nonspace (w : nat) (s : list Z) : list Z :=
  match w, s with
  | S w', c :: r => if isspace c then [] else c :: take_nonspace w' r
  | _, _ => []
  end.

(** [strtok] with the separator [" "]: the tokens of the line. *)
Fixpoint tokens (cur : list Z) (s : list Z) : list (list Z) :=
  match s with
  | [] => match cur with [] => [] | _ => [rev cur] end
  | c :: r =>
      if c =? 32 then
        match cur with
        | [] => tokens [] r
        | _ => rev cur :: tokens [] r
        end
      else tokens (c :: cur) r
  end.

(** [struct config]: what later blocks need from earlier ones.  The two
    scalars are doubles, kept as their 64 bits. *)
Record config : Type := mkconfig {
  bin_format : fourcc;
  bin_type : fourcc;
  index : Z;
  scalar_one : Z;
  scalar_two : Z
}.

Definition config0 : config := mkconfig 0 0 0 0 0.

(** The function pointers of a dictionary entry, as the block type they
    belong to. *)
Inductive block_functions : Type :=
| F_aqft | F_head | F_sign | F_mcda | F_dbrf | F_cnst | F_hasi | F_swep
| F_fbin | F_body | F_rtag | F_gps1 | F_indx | F_scal | F_afft | F_ifft
| F_end.

Definition Global_function_dictionary : list (fourcc * block_functions) :=
  [ (KEY_AQFT, F_aqft); (KEY_HEAD, F_head); (KEY_sign, F_sign);
    (KEY_mcda, F_mcda); (KEY_dbrf, F_dbrf); (KEY_cnst, F_cnst);
    (KEY_hasi, F_hasi); (KEY_swep, F_swep); (KEY_fbin, F_fbin);
    (KEY_BODY, F_body); (KEY_rtag, F_rtag); (KEY_gps1, F_gps1);
    (KEY_indx, F_indx); (KEY_scal, F_scal); (KEY_afft, F_afft);
    (KEY_ifft, F_ifft); (KEY_END, F_end) ].

Fixpoint dictionary_search (k : fourcc) (d : list (fourcc * block_functions))
  : option block_functions :=
  match d with
  | [] => None
  | (k', f) :: d' => if k =? k' then Some f else dictionary_search k d'
  end.

(** [find_block_functions]: the entry of the key, or NULL and a
    diagnostic. *)
Definition find_block_functions (k : fourcc) : option block_functions * list diag :=
  if k =? 0 then (None, [D_bad_key_zero])
  else match dictionary_search k Global_function_dictionary with
       | Some f => (Some f, [])
       | None => (None, [D_cannot_locate k])
       end.

(** ** The host

    [Global_flag_little_endian] is set once from the byte order of the
    machine, so one variable stands for both: how the machine lays an
    integer out in memory, and whether [endian_fixup] swaps.  The
    conversions between text and floating point numbers belong to the C
    library and to the hardware; they are taken as they come: [printf_lf]
    is [printf] with [%.<prec>lf] (with the space flag when the boolean is
    set) applied to the 64 bits of a double, [strtod] reads a double from
    the start of its input (no white space to skip) and gives its 64 bits
    and the rest, [double_of_float] and [float_of_double] are the two
    conversions between the 32 bits of a float and the 64 bits of a double,
    and [ctime] is the text of a time. *)

Section Host.

Variable little_endian : bool.
Variable printf_lf : bool -> nat -> Z -> list Z.
Variable strtod : list Z -> option (Z * list Z).
Variable double_of_float : Z -> Z.
Variable float_of_double : Z -> Z.
Variable ctime : Z -> list Z.

#[local] Set Default Proof Using "Type".

(** [endian_fixup]: swaps when the host is little endian. *)
Definition endian_fixup (original : list Z) : list Z :=
  if little_endian then swapcopy original else original.

(** An unsigned integer as the host reads it from memory and writes it
    there. *)
Definition host_decode (bs : list Z) : Z :=
  be_decode (if little_endian then rev bs else bs).

Definition host_encode (n : nat) (v : Z) : list Z :=
  if little_endian then rev (be_encode n v) else be_encode n v.

(** The [int32_t] with the bits of a [uint32_t]. *)
Definition signed32 (u : Z) : Z := if u <? 2 ^ 31 then u else u - 2 ^ 32.

(** [strkey]: the four characters of a key, in file order. *)
Definition strkey (name : fourcc) : list Z :=
  endian_fixup (host_encode 4 name).

(** [%s]: a character array printed up to its first NUL. *)
Definition printf_s (s : list Z) : list Z := cstring s.

(** ** Memory behind a node *)

Definition in_bounds (mem : list Z) (off len : nat) : bool :=
  (off + len <=? length mem)%nat.

(** [endian_fixup] on [len] bytes of the file buffer, in place. *)
Definition endian_fixup_at (mem : list Z) (off len : nat) : list Z :=
  store mem off (endian_fixup (slice mem off len)).

(** The fields of a block fixed one after the other; [None] when a field
    lies outside the buffer. *)
Fixpoint fixup_fields (mem : list Z) (off : nat) (fields : list (nat * nat))
  : option (list Z) :=
  match fields with
  | [] => Some mem
  | (o, w) :: rest =>
      if in_bounds mem (off + o) w
      then fixup_fields (endian_fixup_at mem (off + o) w) off rest
      else None
  end.

(** The common shape of the [fixup_data_xxxx] functions: a block shorter
    than its struct is reported and left alone, otherwise the listed
    fields (offset, width) are fixed in the buffer the node points into.
    The result is the return value, the buffer and the diagnostics;
    [None] is an access outside the buffer. *)
Definition fixup_data (k : fourcc) (sizeof : Z) (fields : list (nat * nat))
  (mem : list Z) (n : node) : option (Z * list Z * list diag) :=
  if size n <? sizeof then Some (1, mem, [D_block_truncated k])
  else match fields, data n with
       | [], _ => Some (0, mem, [])
       | _, BufPtr off =>
           match fixup_fields mem off fields with
           | Some mem' => Some (0, mem', [])
           | None => None
           end
       | _, _ => None
       end.

Definition sizeof_block_sign : Z := 208.
Definition sizeof_block_mcda : Z := 4.
Definition sizeof_block_dbrf : Z := 8.
Definition sizeof_block_cnst : Z := 16.
Definition sizeof_block_hasi : Z := 4.
Definition sizeof_block_swep : Z := 32.
Definition sizeof_block_fbin : Z := 8.
Definition sizeof_block_rtag : Z := 4.
Definition sizeof_block_gps1 : Z := 28.
Definition sizeof_block_indx : Z := 4.
Definition sizeof_block_scal : Z := 16.
Definition sizeof_block_iqdata_float : Z := 8.

Definition fixup_data_aqft (mem : list Z) (n : node) : option (Z * list Z * list diag) :=
  Some (0, mem, []).
Definition fixup_data_head (mem : list Z) (n : node) : option (Z * list Z * list diag) :=
  Some (0, mem, []).
Definition fixup_data_body (mem : list Z) (n : node) : option (Z * list Z * list diag) :=
  Some (0, mem, []).
Definition fixup_data_end (mem : list Z) (n : node) : option (Z * list Z * list diag) :=
  Some (0, mem, []).
Definition fixup_data_sign :=
  fixup_data KEY_sign sizeof_block_sign [(0, 4); (4, 4); (8, 4); (12, 4)]%nat.
Definition fixup_data_mcda :=
  fixup_data KEY_mcda sizeof_block_mcda [(0, 4)]%nat.
Definition fixup_data_dbrf :=
  fixup_data KEY_dbrf sizeof_block_dbrf [(0, 8)]%nat.
Definition fixup_data_cnst :=
  fixup_data KEY_cnst sizeof_block_cnst [(0, 4); (4, 4); (8, 4); (12, 4)]%nat.
Definition fixup_data_hasi :=
  fixup_data KEY_hasi sizeof_block_hasi [].
Definition fixup_data_swep :=
  fixup_data KEY_swep sizeof_block_swep
    [(0, 4); (4, 8); (12, 8); (20, 8); (28, 4)]%nat.
Definition fixup_data_fbin :=
  fixup_data KEY_fbin sizeof_block_fbin [(0, 4); (4, 4)]%nat.
Definition fixup_data_rtag :=
  fixup_data KEY_rtag sizeof_block_rtag [(0, 4)]%nat.
Definition fixup_data_gps1 :=
  fixup_data KEY_gps1 sizeof_block_gps1 [(0, 8); (8, 8); (16, 8); (24, 4)]%nat.
Definition fixup_data_indx :=
  fixup_data KEY_indx sizeof_block_indx [(0, 4)]%nat.
Definition fixup_data_scal :=
  fixup_data KEY_scal sizeof_block_scal [(0, 8); (8, 8)]%nat.

(** The I and the Q of each of [nsamples] samples. *)
Definition iqdata_fields (nsamples : nat) : list (nat * nat) :=
  flat_map (fun i => [(8 * i, 4); (8 * i + 4, 4)]%nat) (seq 0 nsamples).

Definition fixup_data_afft (mem : list Z) (n : node) :=
  fixup_data KEY_afft sizeof_block_iqdata_float
    (iqdata_fields (Z.to_nat (size n / sizeof_block_iqdata_float))) mem n.
Definition fixup_data_ifft (mem : list Z) (n : node) :=
  fixup_data KEY_ifft sizeof_block_iqdata_float
    (iqdata_fields (Z.to_nat (size n / sizeof_block_iqdata_float))) mem n.

Definition fixup_of (f : block_functions)
  : list Z -> node -> option (Z * list Z * list diag) :=
  match f with
  | F_aqft => fixup_data_aqft | F_head => fixup_data_head
  | F_sign => fixup_data_sign | F_mcda => fixup_data_mcda
  | F_dbrf => fixup_data_dbrf | F_cnst => fixup_data_cnst
  | F_hasi => fixup_data_hasi | F_swep => fixup_data_swep
  | F_fbin => fixup_data_fbin | F_body => fixup_data_body
  | F_rtag => fixup_data_rtag | F_gps1 => fixup_data_gps1
  | F_indx => fixup_data_indx | F_scal => fixup_data_scal
  | F_afft => fixup_data_afft | F_ifft => fixup_data_ifft
  | F_end => fixup_data_end
  end.

(** [fixup_block]: the fixup function of the node's key. *)
Definition fixup_block (mem : list Z) (n : node) : option (Z * list Z * list diag) :=
  match find_block_functions (key n) with
  | (None, d) => Some (1, mem, d ++ [D_cannot_fixup (key n)])
  | (Some f, d) =>
      match fixup_of f mem n with
      | None => None
      | Some (err, mem', d') =>
          if err =? 0 then Some (0, mem', d ++ d')
          else Some (1, mem', d ++ d' ++ [D_error_fixing (key n)])
      end
  end.

(** ** The binary decoder *)

(** How a call of [parse_block] ends: it returns 0, having changed the
    buffer, appended nodes to the list and printed diagnostics; or it
    reads or writes outside the file buffer, where C says nothing about
    what follows; or the fuel of the embedding ran out. *)
Inductive parsed : Type :=
| Parsed (mem : list Z) (nodes : list node) (d : list diag)
| OutOfBounds (d : list diag)
| OutOfFuel.

(** [parse_block(root, buffer, length)].  [mem] is the file buffer,
    [buffer] the offset the pointer has in it, [len] the [unsigned long]
    count of bytes left.  The nodes are linked behind [root] in the order
    they are made, the nodes of a super-block right behind its own node.
    One unit of fuel is used per block. *)
Fixpoint parse_block (fuel : nat) (mem : list Z) (buffer : nat) (len : Z) : parsed :=
  if len <=? 0 then Parsed mem [] []
  else
    match fuel with
    | O => OutOfFuel
    | S fuel' =>
        if negb (in_bounds mem buffer 8) then OutOfBounds []
        else
          let mem1 := endian_fixup_at mem buffer 4 in
          let k := host_decode (slice mem1 buffer 4) in
          let mem2 := endian_fixup_at mem1 (buffer + 4) 4 in
          let sz := host_decode (slice mem2 (buffer + 4) 4) in
          let len1 := wrap64 (len - sizeof_block_header) in
          let buffer1 := (buffer + 8)%nat in
          let '(sz1, d1) :=
            if sz >? len1 then (wrap32 len1, [D_size_truncated k sz len1])
            else (sz, []) in
          let newnode := mknode k sz1 (BufPtr buffer1) in
          let next_block (mem3 : list Z) (nodes : list node) (d : list diag) :=
            match parse_block fuel' mem3 (buffer1 + Z.to_nat sz1)
                    (wrap64 (len1 - sz1)) with
            | Parsed mem4 rest d3 => Parsed mem4 (nodes ++ rest) (d ++ d3)
            | OutOfBounds d3 => OutOfBounds (d ++ d3)
            | OutOfFuel => OutOfFuel
            end in
          if superblock k then
            match parse_block fuel' mem2 buffer1 sz1 with
            | Parsed mem3 sub d2 => next_block mem3 (newnode :: sub) (d1 ++ d2)
            | OutOfBounds d2 => OutOfBounds (d1 ++ d2)
            | OutOfFuel => OutOfFuel
            end
          else
            match fixup_block mem2 newnode with
            | Some (_, mem3, d2) => next_block mem3 [newnode] (d1 ++ d2)
            | None => OutOfBounds d1
            end
    end.

(** [parse_file]: the whole buffer, from a dummy root.  A buffer of [n]
    bytes holds fewer than [n + 1] blocks. *)
Definition parse_file (mem : list Z) : parsed :=
  parse_block (S (length mem)) mem 0 (Z.of_nat (length mem)).

(** [check_header]: the first key must be AQFT. *)
Definition check_header (buffer : list Z) : Z * list diag :=
  let k := host_decode (endian_fixup (slice buffer 0 4)) in
  if negb (k =? KEY_AQFT) then (1, [D_bad_header_key k]) else (0, []).

(** [read_binary_file], for a file that is read in full: the header is
    checked when there are more than eight bytes. *)
Definition read_binary_file (filedata : list Z) : Z * list diag :=
  if Z.of_nat (length filedata) >? sizeof_block_header
  then check_header filedata
  else (0, []).

(** ** The text renderer *)

(** The bytes [node->data] points at. *)
Definition node_bytes (mem : list Z) (n : node) : list Z :=
  match data n with
  | NullPtr => []
  | BufPtr off => skipn off mem
  | HeapPtr bytes => bytes
  end.

Definition field_u32 (b : list Z) (off : nat) : Z := host_decode (slice b off 4).
Definition field_i32 (b : list Z) (off : nat) : Z := signed32 (host_decode (slice b off 4)).
Definition field_f64 (b : list Z) (off : nat) : Z := host_decode (slice b off 8).

(** The seconds between 1904-01-01 and 1970-01-01. *)
Definition epoch_offset : Z := 2082844800.

(** The line of a legacy time stamp [t] (a [time_t] of 64 bits, not 0):
    the seconds since 1970 printed with [%lu], then a comment with the
    date. *)
Definition timestamp_line (name : list Z) (t : Z) : list Z :=
  let t' := t - epoch_offset in
  name ++ printf_u (wrap64 t') ++ str " (NB: seconds since 1970) ("
    ++ printf_s (firstn 24 (ctime t')) ++ str ")" ++ [LF].

Definition dump_block_aqft (mem : list Z) (n : node) (cfg : config)
  : result (list Z * config) :=
  Ok (printf_s (strkey KEY_AQFT) ++ [LF] ++ [LF], cfg).

Definition dump_block_head (mem : list Z) (n : node) (cfg : config)
  : result (list Z * config) :=
  Ok (printf_s (strkey KEY_HEAD) ++ [LF] ++ [LF], cfg).

Definition dump_block_sign (mem : list Z) (n : node) (cfg : config)
  : result (list Z * config) :=
  if size n <? sizeof_block_sign then Err 1 [D_block_truncated KEY_sign]
  else
    let sign := node_bytes mem n in
    Ok (printf_s (strkey KEY_sign) ++ [LF]
        ++ str "version:" ++ printf_s (strkey (field_u32 sign 0)) ++ [LF]
        ++ str "filetype:" ++ printf_s (strkey (field_u32 sign 4)) ++ [LF]
        ++ str "sitecode:" ++ printf_s (strkey (field_u32 sign 8)) ++ [LF]
        ++ str "userflags:" ++ printf_x (field_u32 sign 12) ++ [LF]
        ++ str "description:" ++ printf_s (slice sign 16 SIZE_DESCRIPTION) ++ [LF]
        ++ str "ownername:" ++ printf_s (slice sign 80 SIZE_OWNERNAME) ++ [LF]
        ++ str "comment:" ++ printf_s (slice sign 144 SIZE_OWNERNAME) ++ [LF]
        ++ [LF], cfg).

Definition dump_block_mcda (mem : list Z) (n : node) (cfg : config)
  : result (list Z * config) :=
  if size n <? sizeof_block_mcda then Err 1 [D_block_truncated KEY_mcda]
  else
    let mcda := node_bytes mem n in
    let t := field_u32 mcda 0 in
    Ok (printf_s (strkey KEY_mcda) ++ [LF]
        ++ (if negb (t =? 0) then timestamp_line (str "filetimestamp:") t else [])
        ++ [LF], cfg).

Definition dump_block_dbrf (mem : list Z) (n : node) (cfg : config)
  : result (list Z * config) :=
  if size n <? sizeof_block_dbrf then Err 1 [D_block_truncated KEY_dbrf]
  else
    let dbrf := node_bytes mem n in
    Ok (printf_s (strkey KEY_dbrf) ++ [LF]
        ++ str "rxloss:" ++ printf_lf false 4 (field_f64 dbrf 0) ++ [LF]
        ++ [LF], cfg).

Definition dump_block_cnst (mem : list Z) (n : node) (cfg : config)
  : result (list Z * config) :=
  if size n <? sizeof_block_cnst then Err 1 [D_block_truncated KEY_cnst]
  else
    let cnst := node_bytes mem n in
    Ok (printf_s (strkey KEY_cnst) ++ [LF]
        ++ str "nchannels:" ++ printf_d (field_i32 cnst 0) ++ [LF]
        ++ str "nranges:" ++ printf_d (field_i32 cnst 4) ++ [LF]
        ++ str "nsweeps:" ++ printf_d (field_i32 cnst 8) ++ [LF]
        ++ str "iqindicator:" ++ printf_d (field_i32 cnst 12) ++ [LF]
        ++ [LF], cfg).

(** [hexdump]: the label, then each byte as two hexadecimal digits. *)
Definition hexdump (bytes : list Z) (sz : Z) : list Z :=
  str "data:"
    ++ flat_map (fun b => 32 :: printf_02x b) (firstn (Z.to_nat sz) bytes)
    ++ [LF].

Definition dump_block_hasi (mem : list Z) (n : node) (cfg : config)
  : result (list Z * config) :=
  if size n <? sizeof_block_hasi then Err 1 [D_block_truncated KEY_hasi]
  else
    Ok (printf_s (strkey KEY_hasi) ++ [LF]
        ++ hexdump (node_bytes mem n) (size n)
        ++ [LF], cfg).

Definition dump_block_swep (mem : list Z) (n : node) (cfg : config)
  : result (list Z * config) :=
  if size n <? sizeof_block_swep then Err 1 [D_block_truncated KEY_swep]
  else
    let swep := node_bytes mem n in
    Ok (printf_s (strkey KEY_swep) ++ [LF]
        ++ str "samplespersweep:" ++ printf_d (field_i32 swep 0) ++ [LF]
        ++ str "sweepstart:" ++ printf_lf false 20 (field_f64 swep 4) ++ [LF]
        ++ str "sweepbandwidth:" ++ printf_lf false 20 (field_f64 swep 12) ++ [LF]
        ++ str "sweeprate:" ++ printf_lf false 20 (field_f64 swep 20) ++ [LF]
        ++ str "rangeoffset:" ++ printf_d (field_i32 swep 28) ++ [LF]
        ++ [LF], cfg).

Definition dump_block_fbin (mem : list Z) (n : node) (cfg : config)
  : result (list Z * config) :=
  if size n <? sizeof_block_fbin then Err 1 [D_block_truncated KEY_fbin]
  else
    let fbin := node_bytes mem n in
    let cfg' := mkconfig (field_u32 fbin 0) (field_u32 fbin 4)
                  (index cfg) (scalar_one cfg) (scalar_two cfg) in
    Ok (printf_s (strkey KEY_fbin) ++ [LF]
        ++ str "format:" ++ printf_s (strkey (field_u32 fbin 0)) ++ [LF]
        ++ str "type:" ++ printf_s (strkey (field_u32 fbin 4)) ++ [LF]
        ++ [LF], cfg').

Definition dump_block_body (mem : list Z) (n : node) (cfg : config)
  : result (list Z * config) :=
  Ok (printf_s (strkey KEY_BODY) ++ [LF] ++ [LF], cfg).

Definition dump_block_rtag (mem : list Z) (n : node) (cfg : config)
  : result (list Z * config) :=
  if size n <? sizeof_block_rtag then Err 1 [D_block_truncated KEY_rtag]
  else
    let rtag := node_bytes mem n in
    Ok (printf_s (strkey KEY_rtag) ++ [LF]
        ++ str "rtag:" ++ printf_u (field_u32 rtag 0) ++ [LF]
        ++ [LF], cfg).

Definition dump_block_gps1 (mem : list Z) (n : node) (cfg : config)
  : result (list Z * config) :=
  if size n <? sizeof_block_gps1 then Err 1 [D_block_truncated KEY_gps1]
  else
    let gps1 := node_bytes mem n in
    let t := field_u32 gps1 24 in
    Ok (printf_s (strkey KEY_gps1) ++ [LF]
        ++ str "lat:" ++ printf_lf false 6 (field_f64 gps1 0) ++ [LF]
        ++ str "lon:" ++ printf_lf false 6 (field_f64 gps1 8) ++ [LF]
        ++ str "alt:" ++ printf_lf false 6 (field_f64 gps1 16) ++ [LF]
        ++ (if negb (t =? 0) then timestamp_line (str "gpstimestamp:") t else [])
        ++ [LF], cfg).

Definition dump_block_indx (mem : list Z) (n : node) (cfg : config)
  : result (list Z * config) :=
  if size n <? sizeof_block_indx then Err 1 [D_block_truncated KEY_indx]
  else
    let indx := node_bytes mem n in
    let cfg' := mkconfig (bin_format cfg) (bin_type cfg)
                  (field_i32 indx 0) (scalar_one cfg) (scalar_two cfg) in
    Ok (printf_s (strkey KEY_indx) ++ [LF]
        ++ str "index:" ++ printf_u (field_u32 indx 0) ++ [LF]
        ++ [LF], cfg').

Definition dump_block_scal (mem : list Z) (n : node) (cfg : config)
  : result (list Z * config) :=
  if size n <? sizeof_block_scal then Err 1 [D_block_truncated KEY_scal]
  else
    let scal := node_bytes mem n in
    let cfg' := mkconfig (bin_format cfg) (bin_type cfg) (index cfg)
                  (field_f64 scal 0) (field_f64 scal 8) in
    Ok (printf_s (strkey KEY_scal) ++ [LF]
        ++ str "scalar_one:" ++ printf_lf false 20 (field_f64 scal 0) ++ [LF]
        ++ str "scalar_two:" ++ printf_lf false 20 (field_f64 scal 8) ++ [LF]
        ++ [LF], cfg').

(** One line per sample: its number, I and Q. *)
Definition iqdata_lines (prec : nat) (iq : list Z) (nsamples : nat) : list Z :=
  flat_map (fun i =>
      printf_3d (Z.of_nat i) ++ [32]
        ++ printf_lf true prec (double_of_float (field_u32 iq (8 * i))) ++ [32]
        ++ printf_lf true prec (double_of_float (field_u32 iq (8 * i + 4)))
        ++ [LF])
    (seq 0 nsamples).

Definition dump_block_iqdata (k : fourcc) (prec : nat)
  (mem : list Z) (n : node) (cfg : config) : result (list Z * config) :=
  if size n <? sizeof_block_iqdata_float then Err 1 [D_block_truncated k]
  else if negb (bin_format cfg =? BINFORMAT_CVIQ)
  then Err 1 [D_cannot_handle_binformat (bin_format cfg)]
  else if negb (bin_type cfg =? BINTYPE_FLT4)
  then Err 1 [D_cannot_handle_bintype (bin_type cfg)]
  else
    Ok (printf_s (strkey k) ++ [LF]
        ++ iqdata_lines prec (node_bytes mem n)
             (Z.to_nat (size n / sizeof_block_iqdata_float))
        ++ [LF], cfg).

Definition dump_block_afft := dump_block_iqdata KEY_afft 20.
Definition dump_block_ifft := dump_block_iqdata KEY_ifft 16.

(** The END record has no blank line after it. *)
Definition dump_block_end (mem : list Z) (n : node) (cfg : config)
  : result (list Z * config) :=
  Ok (printf_s (strkey KEY_END) ++ [LF], cfg).

Definition dump_of (f : block_functions)
  : list Z -> node -> config -> result (list Z * config) :=
  match f with
  | F_aqft => dump_block_aqft | F_head => dump_block_head
  | F_sign => dump_block_sign | F_mcda => dump_block_mcda
  | F_dbrf => dump_block_dbrf | F_cnst => dump_block_cnst
  | F_hasi => dump_block_hasi | F_swep => dump_block_swep
  | F_fbin => dump_block_fbin | F_body => dump_block_body
  | F_rtag => dump_block_rtag | F_gps1 => dump_block_gps1
  | F_indx => dump_block_indx | F_scal => dump_block_scal
  | F_afft => dump_block_afft | F_ifft => dump_block_ifft
  | F_end => dump_block_end
  end.

Definition is_dump_block_body (f : block_functions) : bool :=
  match f with F_body => true | _ => false end.

(** [dump_list]: the records of the nodes in order, on top of [out]; the
    text written before an error stays written.  The dump functions
    write to no memory, so the last case of their result does not come
    up. *)
Fixpoint dump_list (mem : list Z) (l : list node) (cfg : config)
  (just_header : bool) (out : list Z) : Z * list Z * list diag :=
  match l with
  | [] => (0, out, [])
  | n :: rest =>
      match find_block_functions (key n) with
      | (None, d) => (1, out, d ++ [D_cannot_dump (key n)])
      | (Some f, _) =>
          if just_header && is_dump_block_body f then (0, out, [])
          else
            match dump_of f mem n cfg with
            | Err _ d => (1, out, d ++ [D_error_dumping (key n)])
            | Ok (text, cfg') => dump_list mem rest cfg' just_header (out ++ text)
            | Overrun => (1, out, [D_error_dumping (key n)])
            end
      end
  end.

(** How a run of rsdump or rsgen ends: with an exit status, what it wrote
    to its output file and its diagnostics, or in an access C does not
    define. *)
Inductive run : Type :=
| Exit (status : Z) (out : list Z) (d : list diag)
| Undefined.

(** [rsdump] on a file with the content [filedata].  When the file cannot
    be used the status is still 0.  A file of no bytes leaves the list
    pointer of [parse_file] without a value. *)
Definition rsdump (filedata : list Z) (just_header : bool) : run :=
  match read_binary_file filedata with
  | (0, d0) =>
      match parse_file filedata with
      | Parsed mem [] d1 => Undefined
      | Parsed mem l d1 =>
          let '(err, out, d2) := dump_list mem l config0 just_header [] in
          Exit err out (d0 ++ d1 ++ d2)
      | _ => Undefined
      end
  | (_, d0) => Exit 0 [] d0
  end.

(** ** The text parser *)

(** [%lf]: white space, then what [strtod] reads. *)
Definition scan_lf (s : list Z) : scanned (Z * list Z) :=
  match skip_space s with
  | [] => ScanEOF
  | s1 =>
      match strtod s1 with
      | Some (bits, rest) => ScanOK (bits, rest)
      | None => ScanFail
      end
  end.

(** One conversion of sscanf: the bytes it stores through its pointer.
    [%c] takes up to its width of characters as they come; [%s] skips
    white space, takes up to its width of characters that are not white
    space and adds a NUL; the integer conversions store the low 32 bits of
    what strtol or strtoul make of the digits. *)
Definition convert (c : conv) (s : list Z) : scanned (list Z) :=
  match c with
  | Conv_c w =>
      match s with
      | [] => ScanEOF
      | _ => ScanOK (firstn w s)
      end
  | Conv_s w =>
      match skip_space s with
      | [] => ScanEOF
      | s1 => ScanOK (take_nonspace w s1 ++ [NUL])
      end
  | Conv_d =>
      match scan_int 10 s with
      | ScanEOF => ScanEOF
      | ScanFail => ScanFail
      | ScanOK (neg, m, _) => ScanOK (host_encode 4 (wrap32 (strtol_value neg m)))
      end
  | Conv_u =>
      match scan_int 10 s with
      | ScanEOF => ScanEOF
      | ScanFail => ScanFail
      | ScanOK (neg, m, _) => ScanOK (host_encode 4 (wrap32 (strtoul_value neg m)))
      end
  | Conv_x =>
      match scan_int 16 s with
      | ScanEOF => ScanEOF
      | ScanFail => ScanFail
      | ScanOK (neg, m, _) => ScanOK (host_encode 4 (wrap32 (strtoul_value neg m)))
      end
  | Conv_lf =>
      match scan_lf s with
      | ScanEOF => ScanEOF
      | ScanFail => ScanFail
      | ScanOK (bits, _) => ScanOK (host_encode 8 bits)
      end
  end.

(** [sscanf(line, format, buffer)] for a format of [read_parameter]: EOF
    when the line ends within the literal text or right after it. *)
Definition sscanf1 (line : list Z) (f : format) : scanned (list Z) :=
  match match_literal (label f) line with
  | ScanOK rest => convert (conversion f) rest
  | ScanEOF => ScanEOF
  | ScanFail => ScanFail
  end.

(** The loop of [read_parameter]: a blank line stops the search with an
    error; a line for which sscanf returns anything but 0 is used, also
    when sscanf returned EOF and stored nothing; the end of the file ends
    the search without an error.  A file of [n] characters has at most
    [n] lines, so [fuel] never runs out before the file does. *)
Fixpoint read_parameter_loop (fuel : nat) (fd : list Z) (f : format)
  : result (option (list Z)) :=
  match fuel with
  | O => Ok None
  | S fuel' =>
      match fgets SIZE_LINE fd with
      | None => Ok None
      | Some (chars, fd') =>
          let line := line_string chars in
          if strlen line =? 0 then Err 1 [D_cannot_find_parameter f]
          else
            match sscanf1 line f with
            | ScanFail => read_parameter_loop fuel' fd' f
            | ScanEOF => Ok None
            | ScanOK v => Ok (Some v)
            end
      end
  end.

(** [read_parameter(fd, format, buffer)]: what is stored in the buffer,
    if anything.  The stream is put back where it was. *)
Definition read_parameter (fd : list Z) (f : format) : result (option (list Z)) :=
  read_parameter_loop (length fd) fd f.

(** A field of the block under construction read with [read_parameter]:
    sscanf stores what it converted at the address of the field, [off]
    bytes into the block [blk] that [malloc] gave.  What does not fit in
    the field goes over the fields behind it, and what does not fit in
    the block is written behind the block. *)
Definition read_field (fd : list Z) (f : format) (off : nat) (blk : list Z)
  : result (list Z) :=
  v <- read_parameter fd f ;;
  match v with
  | Some bytes =>
      if (off + length bytes <=? length blk)%nat then Ok (store blk off bytes)
      else Overrun
  | None => Ok blk
  end.

Definition made : Type := (node * config * list Z)%type.

Definition make_node_aqft (cfg : config) (fd : list Z) : result made :=
  Ok (mknode KEY_AQFT 0 NullPtr, cfg, fd).

Definition make_node_head (cfg : config) (fd : list Z) : result made :=
  Ok (mknode KEY_HEAD 0 NullPtr, cfg, fd).

Definition make_node_body (cfg : config) (fd : list Z) : result made :=
  Ok (mknode KEY_BODY 0 NullPtr, cfg, fd).

Definition make_node_end (cfg : config) (fd : list Z) : result made :=
  Ok (mknode KEY_END 0 NullPtr, cfg, fd).

Definition make_node_sign (cfg : config) (fd : list Z) : result made :=
  let sign := repeat 0 (Z.to_nat sizeof_block_sign) in
  sign <- read_field fd (mkformat (str "version:") (Conv_c 4)) 0 sign ;;
  sign <- read_field fd (mkformat (str "filetype:") (Conv_c 4)) 4 sign ;;
  sign <- read_field fd (mkformat (str "sitecode:") (Conv_c 4)) 8 sign ;;
  sign <- read_field fd (mkformat (str "userflags:") Conv_x) 12 sign ;;
  sign <- read_field fd (mkformat (str "description:") (Conv_c SIZE_DESCRIPTION)) 16 sign ;;
  sign <- read_field fd (mkformat (str "ownername:") (Conv_c SIZE_OWNERNAME)) 80 sign ;;
  sign <- read_field fd (mkformat (str "comment:") (Conv_c SIZE_COMMENT)) 144 sign ;;
  Ok (mknode KEY_sign sizeof_block_sign (HeapPtr sign), cfg, fd).

(** The offset between the epochs added to a stored 32-bit time stamp. *)
Definition add_epoch_offset (blk : list Z) (off : nat) : list Z :=
  store blk off (host_encode 4 (wrap32 (host_decode (slice blk off 4) + epoch_offset))).

Definition make_node_mcda (cfg : config) (fd : list Z) : result made :=
  let mcda := repeat 0 (Z.to_nat sizeof_block_mcda) in
  mcda <- read_field fd (mkformat (str "filetimestamp:") Conv_u) 0 mcda ;;
  let mcda := add_epoch_offset mcda 0 in
  Ok (mknode KEY_mcda sizeof_block_mcda (HeapPtr mcda), cfg, fd).

Definition make_node_dbrf (cfg : config) (fd : list Z) : result made :=
  let dbrf := repeat 0 (Z.to_nat sizeof_block_dbrf) in
  dbrf <- read_field fd (mkformat (str "rxloss:") Conv_lf) 0 dbrf ;;
  Ok (mknode KEY_dbrf sizeof_block_dbrf (HeapPtr dbrf), cfg, fd).

Definition make_node_cnst (cfg : config) (fd : list Z) : result made :=
  let cnst := repeat 0 (Z.to_nat sizeof_block_cnst) in
  cnst <- read_field fd (mkformat (str "nchannels:") Conv_d) 0 cnst ;;
  cnst <- read_field fd (mkformat (str "nranges:") Conv_d) 4 cnst ;;
  cnst <- read_field fd (mkformat (str "nsweeps:") Conv_d) 8 cnst ;;
  cnst <- read_field fd (mkformat (str "iqindicator:") Conv_d) 12 cnst ;;
  Ok (mknode KEY_cnst sizeof_block_cnst (HeapPtr cnst), cfg, fd).

Definition MAX_ARGC : nat := 256.

(** [make_node_hasi]: the next line, whatever it is, is split at spaces;
    the first token (the label) is dropped and each other token is a byte
    in hexadecimal.  [fgets] is given [MAX_LINE-1], which the macro
    [MAX_LINE] makes [MAX_ARGC*3+1-1].  The tokens are stored in an array
    of [MAX_ARGC] pointers; the loop that fills it stores the pointer
    number [MAX_ARGC], behind the array, before it sees that the count
    has come to [MAX_ARGC]. *)
Definition make_node_hasi (cfg : config) (fd : list Z) : result made :=
  match fgets (MAX_ARGC * 3 + 1 - 1) fd with
  | None => Err (-1) []
  | Some (chars, fd') =>
      let argv := tl (tokens [] (line_string chars)) in
      let argc := length argv in
      if (argc =? 0)%nat then Err 1 []
      else if (MAX_ARGC <=? argc)%nat then Overrun
      else
        let hasi := map (fun a => strtoul16 a mod 256) argv in
        Ok (mknode KEY_hasi (Z.of_nat argc) (HeapPtr hasi), cfg, fd')
  end.

Definition make_node_swep (cfg : config) (fd : list Z) : result made :=
  let swep := repeat 0 (Z.to_nat sizeof_block_swep) in
  swep <- read_field fd (mkformat (str "samplespersweep:") Conv_d) 0 swep ;;
  swep <- read_field fd (mkformat (str "sweepstart:") Conv_lf) 4 swep ;;
  swep <- read_field fd (mkformat (str "sweepbandwidth:") Conv_lf) 12 swep ;;
  swep <- read_field fd (mkformat (str "sweeprate:") Conv_lf) 20 swep ;;
  swep <- read_field fd (mkformat (str "rangeoffset:") Conv_d) 28 swep ;;
  Ok (mknode KEY_swep sizeof_block_swep (HeapPtr swep), cfg, fd).

(** The two codes are read as strings of up to four characters and then
    turned into integers.  [%4s] also stores a NUL behind the characters:
    the one behind a format code of four characters goes on the first
    byte of the type code, which is read next; the one behind a type code
    of four characters goes behind the 8 bytes of the block. *)
Definition make_node_fbin (cfg : config) (fd : list Z) : result made :=
  let fbin := repeat 0 (Z.to_nat sizeof_block_fbin) in
  fbin <- read_field fd (mkformat (str "format:") (Conv_s 4)) 0 fbin ;;
  let fbin := store fbin 0 (endian_fixup (slice fbin 0 4)) in
  fbin <- read_field fd (mkformat (str "type:") (Conv_s 4)) 4 fbin ;;
  let fbin := store fbin 4 (endian_fixup (slice fbin 4 4)) in
  let cfg' := mkconfig (field_u32 fbin 0) (field_u32 fbin 4)
                (index cfg) (scalar_one cfg) (scalar_two cfg) in
  Ok (mknode KEY_fbin sizeof_block_fbin (HeapPtr fbin), cfg', fd).

Definition make_node_rtag (cfg : config) (fd : list Z) : result made :=
  let rtag := repeat 0 (Z.to_nat sizeof_block_rtag) in
  rtag <- read_field fd (mkformat (str "rtag:") Conv_u) 0 rtag ;;
  Ok (mknode KEY_rtag sizeof_block_rtag (HeapPtr rtag), cfg, fd).

Definition make_node_gps1 (cfg : config) (fd : list Z) : result made :=
  let gps1 := repeat 0 (Z.to_nat sizeof_block_gps1) in
  gps1 <- read_field fd (mkformat (str "lat:") Conv_lf) 0 gps1 ;;
  gps1 <- read_field fd (mkformat (str "lon:") Conv_lf) 8 gps1 ;;
  gps1 <- read_field fd (mkformat (str "alt:") Conv_lf) 16 gps1 ;;
  gps1 <- read_field fd (mkformat (str "gpstimestamp:") Conv_u) 24 gps1 ;;
  let gps1 := add_epoch_offset gps1 24 in
  Ok (mknode KEY_gps1 sizeof_block_gps1 (HeapPtr gps1), cfg, fd).

Definition make_node_indx (cfg : config) (fd : list Z) : result made :=
  let indx := repeat 0 (Z.to_nat sizeof_block_indx) in
  indx <- read_field fd (mkformat (str "index:") Conv_u) 0 indx ;;
  Ok (mknode KEY_indx sizeof_block_indx (HeapPtr indx), cfg, fd).

Definition make_node_scal (cfg : config) (fd : list Z) : result made :=
  let scal := repeat 0 (Z.to_nat sizeof_block_scal) in
  scal <- read_field fd (mkformat (str "scalar_one:") Conv_lf) 0 scal ;;
  scal <- read_field fd (mkformat (str "scalar_two:") Conv_lf) 8 scal ;;
  let cfg' := mkconfig (bin_format cfg) (bin_type cfg) (index cfg)
                (field_f64 scal 0) (field_f64 scal 8) in
  Ok (mknode KEY_scal sizeof_block_scal (HeapPtr scal), cfg', fd).

(** [count_iqdata_lines]: the lines before the first blank one or the end
    of the file; the stream is put back. *)
Fixpoint count_iqdata_lines_loop (fuel : nat) (fd : list Z) (count : Z) : Z :=
  match fuel with
  | O => count
  | S fuel' =>
      match fgets SIZE_LINE fd with
      | None => count
      | Some (chars, fd') =>
          if strlen (line_string chars) <? 1 then count
          else count_iqdata_lines_loop fuel' fd' (count + 1)
      end
  end.

Definition count_iqdata_lines (fd : list Z) : Z :=
  count_iqdata_lines_loop (length fd) fd 0.

(** [sscanf(line, "%d %lf %lf", ...)] returning 3: I and Q. *)
Definition sscanf_iq (line : list Z) : option (Z * Z) :=
  match scan_int 10 line with
  | ScanOK (_, _, r1) =>
      match scan_lf r1 with
      | ScanOK (i, r2) =>
          match scan_lf r2 with
          | ScanOK (q, _) => Some (i, q)
          | _ => None
          end
      | _ => None
      end
  | _ => None
  end.

Fixpoint read_iqdata_loop (todo sample_count : nat) (iqdata fd : list Z)
  : result (list Z * list Z) :=
  match todo with
  | O => Ok (iqdata, fd)
  | S todo' =>
      match fgets SIZE_LINE fd with
      | None => Err 1 []
      | Some (chars, fd') =>
          let line := line_string chars in
          if strlen line =? 0 then Err 1 []
          else
            match sscanf_iq line with
            | None => Err 1 [D_failed_iqdata (Z.of_nat sample_count) line]
            | Some (i, q) =>
                let iqdata1 :=
                  store iqdata (8 * sample_count)
                    (host_encode 4 (float_of_double i)) in
                let iqdata2 :=
                  store iqdata1 (8 * sample_count + 4)
                    (host_encode 4 (float_of_double q)) in
                read_iqdata_loop todo' (S sample_count) iqdata2 fd'
            end
      end
  end.

(** [read_iqdata_samples]: the stream is left behind the lines read. *)
Definition read_iqdata_samples (iqdata : list Z) (iqsamples : nat)
  (cfg : config) (fd : list Z) : result (list Z * list Z) :=
  if negb (bin_format cfg =? BINFORMAT_CVIQ)
  then Err 1 [D_cannot_handle_binformat (bin_format cfg)]
  else if negb (bin_type cfg =? BINTYPE_FLT4)
  then Err 1 [D_cannot_handle_bintype (bin_type cfg)]
  else read_iqdata_loop iqsamples 0 iqdata fd.

(** [make_node_afft] and [make_node_ifft], which differ in the key. *)
Definition make_node_iqdata (k : fourcc) (cfg : config) (fd : list Z) : result made :=
  let lines := count_iqdata_lines fd in
  if lines <=? 0 then Err 1 [D_error_counting_lines k]
  else if negb (Z.rem lines 3 =? 0) then Err 1 [D_bad_number_of_lines lines k]
  else
    let samples := Z.to_nat lines in
    let sz := lines * sizeof_block_iqdata_float in
    let iqdata := repeat 0 (Z.to_nat sz) in
    match read_iqdata_samples iqdata samples cfg fd with
    | Err _ d => Err 1 (d ++ [D_error_reading k])
    | Ok (iqdata', fd') => Ok (mknode k (wrap32 sz) (HeapPtr iqdata'), cfg, fd')
    | Overrun => Overrun
    end.

Definition make_node_afft := make_node_iqdata KEY_afft.
Definition make_node_ifft := make_node_iqdata KEY_ifft.

Definition make_of (f : block_functions) : config -> list Z -> result made :=
  match f with
  | F_aqft => make_node_aqft | F_head => make_node_head
  | F_sign => make_node_sign | F_mcda => make_node_mcda
  | F_dbrf => make_node_dbrf | F_cnst => make_node_cnst
  | F_hasi => make_node_hasi | F_swep => make_node_swep
  | F_fbin => make_node_fbin | F_body => make_node_body
  | F_rtag => make_node_rtag | F_gps1 => make_node_gps1
  | F_indx => make_node_indx | F_scal => make_node_scal
  | F_afft => make_node_afft | F_ifft => make_node_ifft
  | F_end => make_node_end
  end.

(** ** The binary encoder *)

(** The key and the size of a node as every [gen_block_xxxx] writes them:
    fixed in place, then written. *)
Definition gen_header (n : node) : list Z :=
  endian_fixup (host_encode 4 (key n)) ++ endian_fixup (host_encode 4 (size n)).

(** A field that is fixed and then written, and one written as it is. *)
Definition gen_field (blk : list Z) (off width : nat) : list Z :=
  endian_fixup (slice blk off width).

Definition gen_raw (blk : list Z) (off width : nat) : list Z :=
  slice blk off width.

Definition gen_block_aqft (n : node) : list Z := gen_header n.
Definition gen_block_head (n : node) : list Z := gen_header n.
Definition gen_block_body (n : node) : list Z := gen_header n.
Definition gen_block_end (n : node) : list Z := gen_header n.

(** The four integers of a sign block are written without a fixup. *)
Definition gen_block_sign (n : node) : list Z :=
  let sign := node_bytes [] n in
  gen_header n
    ++ gen_raw sign 0 4 ++ gen_raw sign 4 4 ++ gen_raw sign 8 4
    ++ gen_raw sign 12 4
    ++ gen_raw sign 16 SIZE_DESCRIPTION
    ++ gen_raw sign 80 SIZE_OWNERNAME
    ++ gen_raw sign 144 SIZE_COMMENT.

Definition gen_block_mcda (n : node) : list Z :=
  let mcda := node_bytes [] n in
  gen_header n ++ gen_field mcda 0 4.

Definition gen_block_dbrf (n : node) : list Z :=
  let dbrf := node_bytes [] n in
  gen_header n ++ gen_field dbrf 0 8.

Definition gen_block_cnst (n : node) : list Z :=
  let cnst := node_bytes [] n in
  gen_header n
    ++ gen_field cnst 0 4 ++ gen_field cnst 4 4
    ++ gen_field cnst 8 4 ++ gen_field cnst 12 4.

Definition gen_block_hasi (n : node) : list Z :=
  gen_header n ++ gen_raw (node_bytes [] n) 0 (Z.to_nat (size n)).

Definition gen_block_swep (n : node) : list Z :=
  let swep := node_bytes [] n in
  gen_header n
    ++ gen_field swep 0 4 ++ gen_field swep 4 8 ++ gen_field swep 12 8
    ++ gen_field swep 20 8 ++ gen_field swep 28 4.

Definition gen_block_fbin (n : node) : list Z :=
  let fbin := node_bytes [] n in
  gen_header n ++ gen_field fbin 0 4 ++ gen_field fbin 4 4.

Definition gen_block_rtag (n : node) : list Z :=
  let rtag := node_bytes [] n in
  gen_header n ++ gen_field rtag 0 4.

Definition gen_block_gps1 (n : node) : list Z :=
  let gps1 := node_bytes [] n in
  gen_header n
    ++ gen_field gps1 0 8 ++ gen_field gps1 8 8 ++ gen_field gps1 16 8
    ++ gen_field gps1 24 4.

Definition gen_block_indx (n : node) : list Z :=
  let indx := node_bytes [] n in
  gen_header n ++ gen_field indx 0 4.

Definition gen_block_scal (n : node) : list Z :=
  let scal := node_bytes [] n in
  gen_header n ++ gen_field scal 0 8 ++ gen_field scal 8 8.

(** The size goes through an [int] before it is divided by the size of a
    sample. *)
Definition gen_block_iqdata (n : node) : list Z :=
  let iq := node_bytes [] n in
  let sample_count :=
    Z.to_nat (Z.quot (signed32 (size n)) sizeof_block_iqdata_float) in
  gen_header n
    ++ flat_map (fun i => gen_field iq (8 * i) 4 ++ gen_field iq (8 * i + 4) 4)
         (seq 0 sample_count).

Definition gen_block_afft := gen_block_iqdata.
Definition gen_block_ifft := gen_block_iqdata.

Definition gen_of (f : block_functions) : node -> list Z :=
  match f with
  | F_aqft => gen_block_aqft | F_head => gen_block_head
  | F_sign => gen_block_sign | F_mcda => gen_block_mcda
  | F_dbrf => gen_block_dbrf | F_cnst => gen_block_cnst
  | F_hasi => gen_block_hasi | F_swep => gen_block_swep
  | F_fbin => gen_block_fbin | F_body => gen_block_body
  | F_rtag => gen_block_rtag | F_gps1 => gen_block_gps1
  | F_indx => gen_block_indx | F_scal => gen_block_scal
  | F_afft => gen_block_afft | F_ifft => gen_block_ifft
  | F_end => gen_block_end
  end.

(** [rs_write]: the blocks of the nodes in order, on top of [out]; what
    was written before an error stays written. *)
Fixpoint rs_write (l : list node) (out : list Z) : Z * list Z * list diag :=
  match l with
  | [] => (0, out, [])
  | n :: rest =>
      match find_block_functions (key n) with
      | (None, d) => (1, out, d ++ [D_cannot_write (key n)])
      | (Some f, _) => rs_write rest (out ++ gen_of f n)
      end
  end.

(** ** rsgen *)

(** The loop of [rsgen] over the lines of the text.  [line] is the array
    the lines are read into, which keeps what earlier lines left in it;
    the key of a record is the first four bytes of that array.  Lines of
    at most one character and lines with a colon are passed over.  The
    result is the list behind the root and the count of lines. *)
Fixpoint rsgen_loop (fuel : nat) (line : list Z) (cfg : config) (fd : list Z)
  (line_count : Z) (nodes : list node) : result (list node * Z) :=
  match fuel with
  | O => Ok (nodes, line_count)
  | S fuel' =>
      match fgets SIZE_LINE fd with
      | None => Ok (nodes, line_count)
      | Some (chars, fd1) =>
          let line1 := chomp (store_line line chars) SIZE_LINE in
          let line_count1 := line_count + 1 in
          if strlen line1 <=? 1 then
            rsgen_loop fuel' line1 cfg fd1 line_count1 nodes
          else if has_char 58 line1 then
            rsgen_loop fuel' line1 cfg fd1 line_count1 nodes
          else
            let k := host_decode (endian_fixup (slice line1 0 4)) in
            match find_block_functions k with
            | (None, d) => Err 1 (d ++ [D_cannot_gen k])
            | (Some f, _) =>
                match make_of f cfg fd1 with
                | Err _ d => Err 1 (d ++ [D_error_in_block_at k line_count1])
                | Ok (newnode, cfg', fd2) =>
                    rsgen_loop fuel' line1 cfg' fd2 line_count1
                      (nodes ++ [newnode])
                | Overrun => Overrun
                end
            end
      end
  end.

(** The root node of [rsgen], all zero. *)
Definition root_node : node := mknode 0 0 NullPtr.

(** [rsgen] on the text [text]; [line0] is what the array [line] holds
    when the function is entered.  An error while reading ends the run
    before anything is written.  The value [fixup_sizes] returns is not
    looked at, and the list is written from the node behind the root.
    At the end [free_all_nodes_and_data] is given the pointer the loop
    left, which is the last node made; when no node was made it is still
    the address of the local variable [root], which [free] cannot take. *)
Definition rsgen (line0 : list Z) (text : list Z) : run :=
  match rsgen_loop (length text) line0 config0 text 0 [] with
  | Err _ d => Exit 1 [] d
  | Overrun => Undefined
  | Ok ([], _) => Undefined
  | Ok (nodes, _) =>
      let '(_, l) := fixup_sizes (root_node :: nodes) in
      let '(err, out, d) := rs_write (tl l) [] in
      Exit err out d
  end.

(** ** Lines of a text file, for the statements *)

(** The text made of the given lines, each ended by a newline. *)
Definition text_of_lines (lines : list (list Z)) : list Z :=
  flat_map (fun l => l ++ [LF]) lines.

(** A line that [fgets] reads in one piece into an array of [SIZE_LINE]
    characters: no newline inside and fewer than 255 characters. *)
Definition fits_line (l : list Z) : bool :=
  forallb (fun c => negb (c =? LF)) l && (length l <? 255)%nat.

(** Such a line that is not blank: its C string is not empty. *)
Definition nonblank_line (l : list Z) : bool :=
  fits_line l && negb (strlen l =? 0).

(** Such a line of a text file proper: no NUL character either. *)
Definition text_line (l : list Z) : bool :=
  fits_line l && forallb (fun c => negb (c =? NUL)) l.

(** What stands before the first colon of a line: the name of the field
    the line gives. *)
Fixpoint line_name (l : list Z) : list Z :=
  match l with
  | [] => []
  | c :: r => if c =? 58 then [] else c :: line_name r
  end.

(** A [name:value] line of a text file. *)
Definition field_line (l : list Z) : bool :=
  text_line l && existsb (fun c => c =? 58) l.

(** A format whose literal text is a name without a colon and a colon. *)
Definition label_ok (f : format) : bool :=
  match rev (label f) with
  | 58 :: name => forallb (fun c => negb (c =? 58)) name
  | _ => false
  end.

(** The answer [read_parameter] gets from the lines of a record in their
    order: that of the first line for which sscanf does not return 0. *)
Fixpoint first_response (lines : list (list Z)) (f : format)
  : result (option (list Z)) :=
  match lines with
  | [] => Err 1 [D_cannot_find_parameter f]
  | l :: ls =>
      match sscanf1 l f with
      | ScanFail => first_response ls f
      | ScanEOF => Ok None
      | ScanOK v => Ok (Some v)
      end
  end.

(** The leaf types whose make function reads its fields with
    [read_parameter]. *)
Definition fixed_layout (f : block_functions) : bool :=
  match f with
  | F_sign | F_mcda | F_dbrf | F_cnst | F_swep | F_fbin | F_rtag | F_gps1
  | F_indx | F_scal => true
  | _ => false
  end.

(** The node and the settings a make function leaves, without the
    position of the stream. *)
Definition made_block (r : result made) : result (node * config) :=
  match r with
  | Ok (n, cfg, _) => Ok (n, cfg)
  | Err c d => Err c d
  | Overrun => Overrun
  end.

(** A double that [printf] writes, behind the name of its field, as one
    line of text and that [scanf] reads back as some double. *)
Definition double_line_ok (name : list Z) (prec : nat) (d : Z) : Prop :=
  text_line (name ++ printf_lf false prec d) = true
  /\ exists v r, scan_lf (printf_lf false prec d) = ScanOK (v, r).

(** ** Files of integer leaves, for the round trip

    The blocks whose text form is made of integers only: cnst (four
    signed integers), rtag and indx (one unsigned integer) and mcda (a
    time stamp). *)
Inductive ileaf : Type :=
| L_cnst (nchannels nranges nsweeps iqindicator : Z)
| L_rtag (rtag : Z)
| L_indx (idx : Z)
| L_mcda (filetimestamp : Z).

Definition ileaf_ok (l : ileaf) : Prop :=
  match l with
  | L_cnst a b c d =>
      (- 2 ^ 31 <= a < 2 ^ 31) /\ (- 2 ^ 31 <= b < 2 ^ 31)
      /\ (- 2 ^ 31 <= c < 2 ^ 31) /\ (- 2 ^ 31 <= d < 2 ^ 31)
  | L_rtag v => 0 <= v < 2 ^ 32
  | L_indx v => 0 <= v < 2 ^ 32
  | L_mcda t => 0 < t < 2 ^ 32
  end.

Definition ileaf_key (l : ileaf) : fourcc :=
  match l with
  | L_cnst _ _ _ _ => KEY_cnst
  | L_rtag _ => KEY_rtag
  | L_indx _ => KEY_indx
  | L_mcda _ => KEY_mcda
  end.

(** The 32-bit words of the payload. *)
Definition ileaf_words (l : ileaf) : list Z :=
  match l with
  | L_cnst a b c d => [wrap32 a; wrap32 b; wrap32 c; wrap32 d]
  | L_rtag v => [v]
  | L_indx v => [v]
  | L_mcda t => [t]
  end.

Definition ileaf_size (l : ileaf) : Z := 4 * Z.of_nat (length (ileaf_words l)).

(** The block in the file: key, size and payload, all big endian. *)
Definition wire_leaf (l : ileaf) : list Z :=
  be_encode 4 (ileaf_key l) ++ be_encode 4 (ileaf_size l)
    ++ flat_map (be_encode 4) (ileaf_words l).

Definition wire_leaves (ls : list ileaf) : list Z := flat_map wire_leaf ls.

(** The bytes a run of leaves takes in the file. *)
Definition wire_size (ls : list ileaf) : Z :=
  fold_right (fun l acc => ileaf_size l + sizeof_block_header + acc) 0 ls.

Definition wire_header (k : fourcc) (sz : Z) : list Z := be_encode 4 k ++ be_encode 4 sz.

(** A file with the leaves [hl] in its HEAD block and [bl] in its BODY
    block; the size of the AQFT block covers the HEAD and the BODY block,
    and the END block follows. *)
Definition wire_file (hl bl : list ileaf) : list Z :=
  wire_header KEY_AQFT
      (wire_size hl + sizeof_block_header + wire_size bl + sizeof_block_header)
    ++ wire_header KEY_HEAD (wire_size hl) ++ wire_leaves hl
    ++ wire_header KEY_BODY (wire_size bl) ++ wire_leaves bl
    ++ wire_header KEY_END 0.

(** The date of a time prints as one line. *)
Definition ctime_one_line : Prop :=
  forall t, forallb (fun c => negb (c =? LF)) (firstn 24 (ctime t)) = true.

(** * Properties *)

(** ** The size reconciler *)

Lemma wrap32_add_l (a b : Z) : wrap32 (wrap32 a + b) = wrap32 (a + b).
Proof. unfold wrap32. apply Zplus_mod_idemp_l. Qed.

Lemma wrap32_small (a : Z) : 0 <= a < 2 ^ 32 -> wrap32 a = a.
Proof. intros H. unfold wrap32. apply Z.mod_small. exact H. Qed.

Lemma wrap32_range (a : Z) : 0 <= wrap32 a < 2 ^ 32.
Proof. unfold wrap32. apply Z.mod_pos_bound. lia. Qed.

Lemma is_sentinel_false (k : fourcc) :
  is_sentinel k = false ->
  (k =? KEY_HEAD) = false /\ (k =? KEY_BODY) = false /\ (k =? KEY_END) = false.
Proof.
  unfold is_sentinel. intros H.
  apply orb_false_iff in H. destruct H as [H He].
  apply orb_false_iff in H. destruct H as [H1 H2]. now repeat split.
Qed.

Lemma opens_region_false (k : fourcc) :
  opens_region k = false -> (k =? KEY_HEAD) = false /\ (k =? KEY_BODY) = false.
Proof. unfold opens_region. intros H. apply orb_false_iff in H. exact H. Qed.

(** Outside a HEAD region nothing is added until a HEAD node comes. *)
Lemma head_loop_outside (l rest : list node) (sz : Z) :
  Forall (fun n => (key n =? KEY_HEAD) = false) l ->
  calculate_head_size_loop (l ++ rest) false sz
  = calculate_head_size_loop rest false sz.
Proof.
  induction 1 as [|n l Hn _ IH]; simpl; [reflexivity|].
  rewrite Hn.
  destruct (key n =? KEY_END); destruct (key n =? KEY_BODY); exact IH.
Qed.

(** Inside a HEAD region every node that is no sentinel is added. *)
Lemma head_loop_inside (l rest : list node) (sz : Z) :
  Forall (fun n => is_sentinel (key n) = false) l ->
  calculate_head_size_loop (l ++ rest) true (wrap32 sz)
  = calculate_head_size_loop rest true (wrap32 (sz + region_size l)).
Proof.
  intros H. revert sz.
  induction H as [|n l Hn _ IH]; intros sz; simpl.
  - now rewrite Z.add_0_r.
  - destruct (is_sentinel_false _ Hn) as (Hh & Hb & He).
    rewrite Hh, Hb, He, wrap32_add_l, IH.
    do 2 f_equal. lia.
Qed.

Lemma body_loop_outside (l rest : list node) (sz : Z) :
  Forall (fun n => (key n =? KEY_BODY) = false) l ->
  calculate_body_size_loop (l ++ rest) false sz
  = calculate_body_size_loop rest false sz.
Proof.
  induction 1 as [|n l Hn _ IH]; simpl; [reflexivity|].
  rewrite Hn.
  destruct (key n =? KEY_END); exact IH.
Qed.

Lemma body_loop_inside (l rest : list node) (sz : Z) :
  Forall (fun n => is_sentinel (key n) = false) l ->
  calculate_body_size_loop (l ++ rest) true (wrap32 sz)
  = calculate_body_size_loop rest true (wrap32 (sz + region_size l)).
Proof.
  intros H. revert sz.
  induction H as [|n l Hn _ IH]; intros sz; simpl.
  - now rewrite Z.add_0_r.
  - destruct (is_sentinel_false _ Hn) as (Hh & Hb & He).
    rewrite Hb, He, wrap32_add_l, IH.
    do 2 f_equal. lia.
Qed.

Lemma Forall_weaken_head (l : list node) :
  Forall (fun n => opens_region (key n) = false) l ->
  Forall (fun n => (key n =? KEY_HEAD) = false) l.
Proof.
  apply Forall_impl. intros n H. now apply opens_region_false in H.
Qed.

Lemma Forall_weaken_body (l : list node) :
  Forall (fun n => opens_region (key n) = false) l ->
  Forall (fun n => (key n =? KEY_BODY) = false) l.
Proof.
  apply Forall_impl. intros n H. now apply opens_region_false in H.
Qed.

Lemma Forall_sentinel_opens (l : list node) :
  Forall (fun n => is_sentinel (key n) = false) l ->
  Forall (fun n => opens_region (key n) = false) l.
Proof.
  apply Forall_impl. intros n H.
  destruct (is_sentinel_false _ H) as (Hh & Hb & _).
  unfold opens_region. now rewrite Hh, Hb.
Qed.

Section Layout.

(** A list in which the HEAD, BODY and END nodes [h], [b] and [e] delimit
    the two regions [hs] and [bs]. *)
Variables (pre hs bs post : list node) (h b e : node).
Hypothesis key_h : key h = KEY_HEAD.
Hypothesis key_b : key b = KEY_BODY.
Hypothesis key_e : key e = KEY_END.
Hypothesis pre_plain : Forall (fun n => opens_region (key n) = false) pre.
Hypothesis hs_plain : Forall (fun n => is_sentinel (key n) = false) hs.
Hypothesis bs_plain : Forall (fun n => is_sentinel (key n) = false) bs.
Hypothesis post_plain : Forall (fun n => opens_region (key n) = false) post.

Lemma head_size_of_layout :
  calculate_head_size (pre ++ h :: hs ++ b :: bs ++ e :: post)
  = wrap32 (region_size hs).
Proof using key_h key_b key_e pre_plain hs_plain bs_plain post_plain.
  unfold calculate_head_size.
  rewrite head_loop_outside by now apply Forall_weaken_head.
  simpl. rewrite key_h. simpl.
  change 0 with (wrap32 0) at 1.
  rewrite head_loop_inside by assumption.
  simpl. rewrite key_b. simpl.
  rewrite <- (app_nil_r (bs ++ e :: post)).
  rewrite head_loop_outside; [simpl; f_equal; lia|].
  apply Forall_app. split.
  - now apply Forall_weaken_head, Forall_sentinel_opens.
  - constructor; [now rewrite key_e|now apply Forall_weaken_head].
Qed.

Lemma body_size_of_layout :
  calculate_body_size (pre ++ h :: hs ++ b :: bs ++ e :: post)
  = wrap32 (region_size bs).
Proof using key_h key_b key_e pre_plain hs_plain bs_plain post_plain.
  unfold calculate_body_size.
  replace (pre ++ h :: hs ++ b :: bs ++ e :: post)
    with ((pre ++ h :: hs) ++ b :: bs ++ e :: post)
    by (now rewrite <- app_assoc).
  rewrite body_loop_outside.
  2:{ apply Forall_app. split; [now apply Forall_weaken_body|].
      constructor; [now rewrite key_h|].
      now apply Forall_weaken_body, Forall_sentinel_opens. }
  simpl. rewrite key_b. simpl.
  change 0 with (wrap32 0) at 1.
  rewrite body_loop_inside by assumption.
  simpl. rewrite key_e. simpl.
  rewrite <- (app_nil_r post).
  rewrite body_loop_outside by now apply Forall_weaken_body.
  reflexivity.
Qed.

End Layout.

(** C3.  In a flat sequence in which a HEAD node, a BODY node and an END
    node delimit the two regions, the head size is the sum of size + 8
    over exactly the nodes between the HEAD and the BODY node, and the body
    size the same sum over exactly the nodes between the BODY and the END
    node, both as the 32-bit counters hold them; the nodes before, behind
    and the three sentinels add nothing. *)
Theorem calculate_sizes_between_sentinels
  (pre hs bs post : list node) (h b e : node) :
  key h = KEY_HEAD -> key b = KEY_BODY -> key e = KEY_END ->
  Forall (fun n => opens_region (key n) = false) pre ->
  Forall (fun n => is_sentinel (key n) = false) hs ->
  Forall (fun n => is_sentinel (key n) = false) bs ->
  Forall (fun n => opens_region (key n) = false) post ->
  calculate_head_size (pre ++ h :: hs ++ b :: bs ++ e :: post)
  = wrap32 (region_size hs)
  /\ calculate_body_size (pre ++ h :: hs ++ b :: bs ++ e :: post)
     = wrap32 (region_size bs).
Proof.
  intros. split.
  - now apply head_size_of_layout.
  - now apply body_size_of_layout.
Qed.

(** The first node with the key gets the size. *)
Lemma set_block_size_first (l1 l2 : list node) (n : node) (k : fourcc) (sz : Z) :
  Forall (fun m => (key m =? k) = false) l1 ->
  key n = k ->
  set_block_size (l1 ++ n :: l2) k sz = (0, l1 ++ with_size n sz :: l2).
Proof.
  intros H Hn. subst k. induction H as [|m l1 Hm _ IH]; simpl.
  - now rewrite Z.eqb_refl.
  - now rewrite Hm, IH.
Qed.

Lemma calculate_head_size_range (l : list node) :
  0 <= calculate_head_size l < 2 ^ 32.
Proof.
  unfold calculate_head_size.
  assert (G : forall l b sz, 0 <= sz < 2 ^ 32 ->
              0 <= calculate_head_size_loop l b sz < 2 ^ 32).
  { clear l. induction l as [|n l IH]; intros b sz Hsz; simpl; [exact Hsz|].
    apply IH.
    destruct (if key n =? KEY_BODY then false
              else if key n =? KEY_END then false else b);
      [apply wrap32_range|exact Hsz]. }
  apply G. lia.
Qed.

(** The sizes [fixup_sizes] writes on a list with the layout of an RS
    file. *)
Lemma fixup_sizes_layout
  (pre mid hs bs post : list node) (a h b e : node) :
  key a = KEY_AQFT -> key h = KEY_HEAD -> key b = KEY_BODY -> key e = KEY_END ->
  Forall (fun n => (key n =? KEY_AQFT) = false
                   /\ opens_region (key n) = false) pre ->
  Forall (fun n => opens_region (key n) = false) mid ->
  Forall (fun n => is_sentinel (key n) = false) hs ->
  Forall (fun n => is_sentinel (key n) = false) bs ->
  Forall (fun n => opens_region (key n) = false) post ->
  let head_size := wrap32 (region_size hs) in
  let body_size := wrap32 (region_size bs) in
  let aqft_size :=
    wrap32 (head_size + sizeof_block_header + body_size + sizeof_block_header) in
  head_size <> 0 -> body_size <> 0 ->
  fixup_sizes (pre ++ a :: mid ++ h :: hs ++ b :: bs ++ e :: post)
  = (0, pre ++ with_size a aqft_size :: mid ++ with_size h head_size :: hs
          ++ with_size b body_size :: bs ++ e :: post).
Proof.
  intros Ka Kh Kb Ke Hpre Hmid Hhs Hbs Hpost head_size body_size aqft_size Hh Hb.
  assert (Hpre' : Forall (fun n => opens_region (key n) = false) (pre ++ a :: mid)).
  { apply Forall_app. split.
    - revert Hpre. apply Forall_impl. now intros n [_ H].
    - constructor; [now rewrite Ka|exact Hmid]. }
  assert (L : pre ++ a :: mid ++ h :: hs ++ b :: bs ++ e :: post
              = (pre ++ a :: mid) ++ h :: hs ++ b :: bs ++ e :: post)
    by (now rewrite <- app_assoc).
  rewrite L. unfold fixup_sizes.
  rewrite (head_size_of_layout (pre ++ a :: mid) hs bs post h b e),
          (body_size_of_layout (pre ++ a :: mid) hs bs post h b e)
    by assumption.
  fold head_size body_size.
  destruct (Z.eqb_spec head_size 0) as [|_]; [contradiction|].
  destruct (Z.eqb_spec body_size 0) as [|_]; [contradiction|].
  fold aqft_size. rewrite <- L.
  rewrite (set_block_size_first pre _ a KEY_AQFT aqft_size)
    by (try assumption; revert Hpre; apply Forall_impl; now intros n [H _]).
  cbn [negb Z.eqb].
  replace (pre ++ with_size a aqft_size :: mid ++ h :: hs ++ b :: bs ++ e :: post)
    with ((pre ++ with_size a aqft_size :: mid) ++ h :: hs ++ b :: bs ++ e :: post)
    by (now rewrite <- app_assoc).
  rewrite (set_block_size_first _ _ h KEY_HEAD head_size).
  2:{ apply Forall_app. split.
      - revert Hpre. apply Forall_impl. intros n [_ H].
        now apply opens_region_false in H.
      - constructor; [simpl; now rewrite Ka|].
        now apply Forall_weaken_head. }
  2: assumption.
  cbn [negb Z.eqb].
  replace ((pre ++ with_size a aqft_size :: mid) ++ with_size h head_size :: hs
             ++ b :: bs ++ e :: post)
    with (((pre ++ with_size a aqft_size :: mid) ++ with_size h head_size :: hs)
             ++ b :: bs ++ e :: post)
    by (now rewrite <- app_assoc).
  rewrite (set_block_size_first _ _ b KEY_BODY body_size).
  2:{ apply Forall_app. split.
      - apply Forall_app. split.
        + revert Hpre. apply Forall_impl. intros n [_ H].
          now apply opens_region_false in H.
        + constructor; [simpl; now rewrite Ka|].
          now apply Forall_weaken_body.
      - constructor; [simpl; now rewrite Kh|].
        now apply Forall_weaken_body, Forall_sentinel_opens. }
  2: assumption.
  cbn [negb Z.eqb].
  now rewrite <- !app_assoc.
Qed.

(** C2.  On a list with the layout of an RS file (an AQFT node, then the
    HEAD region, the BODY region and the END node) whose two regions are
    not empty, [fixup_sizes] succeeds and writes head + 8 + body + 8 into
    the AQFT node, where head and body are the sizes it writes into the
    HEAD and the BODY node; the END node, whatever its size, and what
    follows it add nothing.  With head 16 and body 24 the AQFT size is
    56. *)
Theorem fixup_sizes_root_size
  (pre mid hs bs post : list node) (a h b e : node) :
  key a = KEY_AQFT -> key h = KEY_HEAD -> key b = KEY_BODY -> key e = KEY_END ->
  Forall (fun n => (key n =? KEY_AQFT) = false
                   /\ opens_region (key n) = false) pre ->
  Forall (fun n => opens_region (key n) = false) mid ->
  Forall (fun n => is_sentinel (key n) = false) hs ->
  Forall (fun n => is_sentinel (key n) = false) bs ->
  Forall (fun n => opens_region (key n) = false) post ->
  let head_size := wrap32 (region_size hs) in
  let body_size := wrap32 (region_size bs) in
  let aqft_size :=
    wrap32 (head_size + sizeof_block_header + body_size + sizeof_block_header) in
  head_size <> 0 -> body_size <> 0 ->
  fixup_sizes (pre ++ a :: mid ++ h :: hs ++ b :: bs ++ e :: post)
  = (0, pre ++ with_size a aqft_size :: mid ++ with_size h head_size :: hs
          ++ with_size b body_size :: bs ++ e :: post)
  /\ (head_size = 16 -> body_size = 24 -> aqft_size = 56).
Proof.
  intros Ka Kh Kb Ke Hpre Hmid Hhs Hbs Hpost head_size body_size aqft_size Hh Hb.
  split.
  - now apply fixup_sizes_layout.
  - intros E1 E2. unfold aqft_size. rewrite E1, E2. reflexivity.
Qed.


(** ** The file buffer keeps its length *)

Lemma store_length (buf : list Z) (off : nat) (bytes : list Z) :
  length (store buf off bytes) = length buf.
Proof.
  unfold store.
  rewrite !length_app, !length_firstn, length_skipn. lia.
Qed.

Lemma swapcopy_length (l : list Z) : length (swapcopy l) = length l.
Proof.
  unfold swapcopy.
  destruct (length l) as [|[|[|[|[|[|[|[|[|]]]]]]]]] eqn:E;
    rewrite ?length_rev; congruence.
Qed.

Lemma endian_fixup_length (l : list Z) : length (endian_fixup l) = length l.
Proof.
  unfold endian_fixup. destruct little_endian; [apply swapcopy_length|reflexivity].
Qed.

Lemma endian_fixup_at_length (mem : list Z) (off len : nat) :
  length (endian_fixup_at mem off len) = length mem.
Proof. apply store_length. Qed.

Lemma fixup_fields_length (fields : list (nat * nat)) (mem mem' : list Z) (off : nat) :
  fixup_fields mem off fields = Some mem' -> length mem' = length mem.
Proof.
  revert mem. induction fields as [|[o w] fields IH]; intros mem H; simpl in H.
  - now inversion H.
  - destruct (in_bounds mem (off + o) w); [|discriminate].
    apply IH in H. now rewrite endian_fixup_at_length in H.
Qed.

Lemma fixup_data_length (k : fourcc) (sizeof : Z) (fields : list (nat * nat))
  (mem mem' : list Z) (n : node) (err : Z) (d : list diag) :
  fixup_data k sizeof fields mem n = Some (err, mem', d) -> length mem' = length mem.
Proof.
  unfold fixup_data.
  destruct (size n <? sizeof); [now inversion 1|].
  destruct fields as [|fd fields]; [now inversion 1|].
  destruct (data n); try discriminate.
  destruct (fixup_fields mem off (fd :: fields)) eqn:E; [|discriminate].
  inversion 1; subst. now apply fixup_fields_length in E.
Qed.

Lemma fixup_of_length (f : block_functions) (mem mem' : list Z) (n : node)
  (err : Z) (d : list diag) :
  fixup_of f mem n = Some (err, mem', d) -> length mem' = length mem.
Proof.
  destruct f; simpl;
    first [ now inversion 1 | apply fixup_data_length ].
Qed.

Lemma fixup_block_length (mem mem' : list Z) (n : node) (err : Z) (d : list diag) :
  fixup_block mem n = Some (err, mem', d) -> length mem' = length mem.
Proof.
  unfold fixup_block.
  destruct (find_block_functions (key n)) as [[f|] d0]; [|now inversion 1].
  destruct (fixup_of f mem n) as [[[e m] d1]|] eqn:E; [|discriminate].
  apply fixup_of_length in E.
  destruct (e =? 0); inversion 1; now subst.
Qed.

Lemma parse_block_length (fuel : nat) :
  forall (mem : list Z) (buffer : nat) (len : Z) mem' nodes d,
    parse_block fuel mem buffer len = Parsed mem' nodes d ->
    length mem' = length mem.
Proof.
  induction fuel as [|fuel IH]; intros mem buffer len mem' nodes d; simpl.
  - destruct (len <=? 0); [now inversion 1|discriminate].
  - destruct (len <=? 0); [now inversion 1|].
    destruct (in_bounds mem buffer 8); simpl; [|discriminate].
    set (mem1 := endian_fixup_at mem buffer 4).
    set (mem2 := endian_fixup_at mem1 (buffer + 4) 4).
    assert (L2 : length mem2 = length mem)
      by (unfold mem2, mem1; now rewrite !endian_fixup_at_length).
    destruct (host_decode (slice mem2 (buffer + 4) 4)
              >? wrap64 (len - sizeof_block_header)).
    + destruct (superblock _).
      * destruct (parse_block fuel mem2 _ _) eqn:E1; try discriminate.
        destruct (parse_block fuel mem0 _ _) eqn:E2; try discriminate.
        inversion 1; subst.
        apply IH in E1, E2. congruence.
      * destruct (fixup_block mem2 _) as [[[e m3] d2]|] eqn:E1; [|discriminate].
        destruct (parse_block fuel m3 _ _) eqn:E2; try discriminate.
        inversion 1; subst.
        apply fixup_block_length in E1. apply IH in E2. congruence.
    + destruct (superblock _).
      * destruct (parse_block fuel mem2 _ _) eqn:E1; try discriminate.
        destruct (parse_block fuel mem0 _ _) eqn:E2; try discriminate.
        inversion 1; subst.
        apply IH in E1, E2. congruence.
      * destruct (fixup_block mem2 _) as [[[e m3] d2]|] eqn:E1; [|discriminate].
        destruct (parse_block fuel m3 _ _) eqn:E2; try discriminate.
        inversion 1; subst.
        apply fixup_block_length in E1. apply IH in E2. congruence.
Qed.

(** Every block takes at least the eight bytes of its header from the
    buffer, so a buffer is done with before the fuel [parse_file] gives. *)
Lemma parse_block_fuel (fuel : nat) :
  forall (mem : list Z) (buffer : nat) (len : Z),
    (length mem - buffer < fuel)%nat ->
    parse_block fuel mem buffer len <> OutOfFuel.
Proof.
  induction fuel as [|fuel IH]; intros mem buffer len Hf; [lia|].
  simpl.
  destruct (len <=? 0); [discriminate|].
  destruct (in_bounds mem buffer 8) eqn:B; simpl; [|discriminate].
  unfold in_bounds in B. apply Nat.leb_le in B.
  set (mem1 := endian_fixup_at mem buffer 4).
  set (mem2 := endian_fixup_at mem1 (buffer + 4) 4).
  assert (L2 : length mem2 = length mem)
    by (unfold mem2, mem1; now rewrite !endian_fixup_at_length).
  assert (N : forall m3 sz1 len', length m3 = length mem ->
            parse_block fuel m3 (buffer + 8 + sz1) len' <> OutOfFuel)
    by (intros; apply IH; lia).
  destruct (host_decode (slice mem2 (buffer + 4) 4)
            >? wrap64 (len - sizeof_block_header)).
  - destruct (superblock _).
    + destruct (parse_block fuel mem2 _ _) eqn:E1; try discriminate.
      * apply parse_block_length in E1.
        specialize (N mem0 (Z.to_nat (wrap32 (wrap64 (len - sizeof_block_header))))
                      (wrap64 (wrap64 (len - sizeof_block_header)
                               - wrap32 (wrap64 (len - sizeof_block_header))))).
        destruct (parse_block fuel mem0 _ _); try discriminate.
        apply N. congruence.
      * exfalso. revert E1. apply IH. lia.
    + destruct (fixup_block mem2 _) as [[[e m3] d2]|] eqn:E1; [|discriminate].
      apply fixup_block_length in E1.
      specialize (N m3 (Z.to_nat (wrap32 (wrap64 (len - sizeof_block_header))))
                    (wrap64 (wrap64 (len - sizeof_block_header)
                             - wrap32 (wrap64 (len - sizeof_block_header))))).
      destruct (parse_block fuel m3 _ _); try discriminate.
      apply N. congruence.
  - set (sz := host_decode (slice mem2 (buffer + 4) 4)).
    destruct (superblock _).
    + destruct (parse_block fuel mem2 _ _) eqn:E1; try discriminate.
      * apply parse_block_length in E1.
        specialize (N mem0 (Z.to_nat sz)
                      (wrap64 (wrap64 (len - sizeof_block_header) - sz))).
        destruct (parse_block fuel mem0 _ _); try discriminate.
        apply N. congruence.
      * exfalso. revert E1. apply IH. lia.
    + destruct (fixup_block mem2 _) as [[[e m3] d2]|] eqn:E1; [|discriminate].
      apply fixup_block_length in E1.
      specialize (N m3 (Z.to_nat sz)
                    (wrap64 (wrap64 (len - sizeof_block_header) - sz))).
      destruct (parse_block fuel m3 _ _); try discriminate.
      apply N. congruence.
Qed.

Lemma parse_file_fuel (mem : list Z) : parse_file mem <> OutOfFuel.
Proof. unfold parse_file. apply parse_block_fuel. lia. Qed.

(** ** Reading lines *)

Lemma fgets_chars_app (l fd : list Z) (room : nat) :
  forallb (fun c => negb (c =? LF)) l = true ->
  (length l <= room)%nat ->
  fgets_chars room (l ++ fd)
  = (l ++ fst (fgets_chars (room - length l) fd),
     snd (fgets_chars (room - length l) fd)).
Proof.
  revert room. induction l as [|c l IH]; intros room Hl Hr; simpl in *.
  - rewrite Nat.sub_0_r. now destruct (fgets_chars room fd).
  - apply andb_true_iff in Hl. destruct Hl as [Hc Hl].
    destruct room as [|room]; [lia|]. simpl.
    apply negb_true_iff in Hc. rewrite Hc.
    rewrite IH by (assumption || lia).
    reflexivity.
Qed.

(** [fgets] on a line that fits takes the line and its newline. *)
Lemma fgets_line (l fd : list Z) :
  fits_line l = true ->
  fgets SIZE_LINE (l ++ LF :: fd) = Some (l ++ [LF], fd).
Proof.
  unfold fits_line. intros H. apply andb_true_iff in H. destruct H as [Hl Hn].
  apply Nat.ltb_lt in Hn.
  unfold fgets.
  destruct (l ++ LF :: fd) eqn:E; [now destruct l|]. rewrite <- E.
  rewrite fgets_chars_app by (assumption || (unfold SIZE_LINE; lia)).
  destruct (SIZE_LINE - 1 - length l)%nat eqn:R; [unfold SIZE_LINE in R; lia|].
  reflexivity.
Qed.

Lemma chomp_nl_line (l tail : list Z) :
  forallb (fun c => negb (c =? LF)) l = true ->
  cstring (chomp_nl (l ++ LF :: tail)) = cstring l.
Proof.
  induction l as [|c l IH]; intros H; simpl in *.
  - reflexivity.
  - apply andb_true_iff in H. destruct H as [Hc H].
    apply negb_true_iff in Hc. rewrite Hc.
    destruct (c =? NUL) eqn:E; simpl; rewrite E; [reflexivity|].
    now rewrite IH.
Qed.

(** The string [fgets] and [chomp] leave of such a line. *)
Lemma line_string_line (l : list Z) :
  fits_line l = true -> line_string (l ++ [LF]) = cstring l.
Proof.
  unfold fits_line. intros H. apply andb_true_iff in H. destruct H as [Hl _].
  unfold line_string. rewrite <- app_assoc. simpl.
  now apply chomp_nl_line.
Qed.

Lemma cstring_text (l : list Z) :
  forallb (fun c => negb (c =? NUL)) l = true -> cstring l = l.
Proof.
  induction l as [|c l IH]; intros H; simpl in *; [reflexivity|].
  apply andb_true_iff in H. destruct H as [Hc H].
  apply negb_true_iff in Hc. rewrite Hc. now rewrite IH.
Qed.

Lemma line_string_text_line (l : list Z) :
  text_line l = true -> line_string (l ++ [LF]) = l.
Proof.
  unfold text_line. intros H. apply andb_true_iff in H. destruct H as [Hf Hn].
  rewrite line_string_line by assumption. now apply cstring_text.
Qed.

Lemma line_string_blank : line_string [LF] = [].
Proof. reflexivity. Qed.

Lemma fgets_blank (fd : list Z) : fgets SIZE_LINE (LF :: fd) = Some ([LF], fd).
Proof. reflexivity. Qed.

Lemma text_of_lines_cons (l : list Z) (lines : list (list Z)) (fd : list Z) :
  text_of_lines (l :: lines) ++ fd = l ++ LF :: text_of_lines lines ++ fd.
Proof. unfold text_of_lines. simpl. now rewrite <- !app_assoc. Qed.

Lemma text_of_lines_length (lines : list (list Z)) :
  (length lines <= length (text_of_lines lines))%nat.
Proof.
  induction lines as [|l lines IH]; simpl; [lia|].
  rewrite !length_app. simpl. lia.
Qed.

(** ** The count of sample lines *)

Lemma count_iqdata_lines_loop_lines (lines : list (list Z)) (rest : list Z) :
  forallb nonblank_line lines = true ->
  forall (fuel : nat) (count : Z),
    (length lines < fuel)%nat ->
    count_iqdata_lines_loop fuel (text_of_lines lines ++ LF :: rest) count
    = count + Z.of_nat (length lines).
Proof.
  induction lines as [|l lines IH]; intros H fuel count Hf.
  - destruct fuel as [|fuel]; [simpl in Hf; lia|].
    simpl. lia.
  - simpl in H. apply andb_true_iff in H. destruct H as [Hl H].
    unfold nonblank_line in Hl. apply andb_true_iff in Hl. destruct Hl as [Hfit Hnb].
    destruct fuel as [|fuel]; [simpl in Hf; lia|].
    rewrite text_of_lines_cons.
    cbn [count_iqdata_lines_loop].
    rewrite fgets_line by assumption.
    rewrite line_string_line by assumption.
    apply negb_true_iff in Hnb.
    unfold strlen in *.
    rewrite Z.eqb_neq in Hnb.
    destruct (Z.ltb_spec (Z.of_nat (length (cstring (cstring l)))) 1) as [Hlt|_].
    + exfalso. apply Hnb.
      assert (E : cstring (cstring l) = cstring l).
      { clear. induction l as [|c l IH]; simpl; [reflexivity|].
        destruct (c =? NUL) eqn:E; simpl; [reflexivity|]. now rewrite E, IH. }
      rewrite E in Hlt. lia.
    + rewrite IH by (assumption || (simpl in Hf; lia)).
      simpl length. lia.
Qed.

Lemma count_iqdata_lines_record (lines : list (list Z)) (rest : list Z) :
  forallb nonblank_line lines = true ->
  count_iqdata_lines (text_of_lines lines ++ LF :: rest)
  = Z.of_nat (length lines).
Proof.
  intros H. unfold count_iqdata_lines.
  rewrite count_iqdata_lines_loop_lines; [lia|assumption|].
  rewrite length_app. simpl.
  pose proof (text_of_lines_length lines). lia.
Qed.

(** C8 (amended).  A sample record (afft or ifft) whose lines before the
    blank line, each of them not blank and of fewer than 255 characters,
    are not a multiple of 3 in number is refused by its make function,
    with the diagnostic that gives the number, whatever the lines hold
    and whatever the format settings are. *)
Theorem make_node_iqdata_multiple_of_three
  (cfg : config) (lines : list (list Z)) (rest : list Z) :
  forallb nonblank_line lines = true ->
  Z.of_nat (length lines) mod 3 <> 0 ->
  make_of F_afft cfg (text_of_lines lines ++ LF :: rest)
  = Err 1 [D_bad_number_of_lines (Z.of_nat (length lines)) KEY_afft]
  /\ make_of F_ifft cfg (text_of_lines lines ++ LF :: rest)
     = Err 1 [D_bad_number_of_lines (Z.of_nat (length lines)) KEY_ifft].
Proof.
  intros H Hm.
  assert (G : forall k, make_node_iqdata k cfg (text_of_lines lines ++ LF :: rest)
              = Err 1 [D_bad_number_of_lines (Z.of_nat (length lines)) k]).
  { intros k. unfold make_node_iqdata.
    rewrite count_iqdata_lines_record by assumption.
    destruct (Z.leb_spec (Z.of_nat (length lines)) 0) as [Hz|Hp].
    - exfalso. apply Hm. replace (Z.of_nat (length lines)) with 0 by lia.
      reflexivity.
    - rewrite Z.rem_mod_nonneg by lia.
      destruct (Z.eqb_spec (Z.of_nat (length lines) mod 3) 0); [contradiction|].
      reflexivity. }
  split; apply G.
Qed.

(** ** Fields are found in any order *)

(** On a record of text lines that ends in a blank line [read_parameter]
    asks the lines in their order. *)
Lemma read_parameter_loop_record (f : format) (lines : list (list Z)) (rest : list Z) :
  forallb field_line lines = true ->
  forall fuel : nat,
    (length lines < fuel)%nat ->
    read_parameter_loop fuel (text_of_lines lines ++ LF :: rest) f
    = first_response lines f.
Proof.
  induction lines as [|l lines IH]; intros H fuel Hf.
  - destruct fuel as [|fuel]; [simpl in Hf; lia|]. reflexivity.
  - simpl in H. apply andb_true_iff in H. destruct H as [Hl H].
    unfold field_line in Hl. apply andb_true_iff in Hl. destruct Hl as [Ht Hc].
    destruct fuel as [|fuel]; [simpl in Hf; lia|].
    rewrite text_of_lines_cons.
    cbn [read_parameter_loop first_response].
    assert (Hfit : fits_line l = true)
      by (unfold text_line in Ht; now apply andb_true_iff in Ht).
    rewrite fgets_line by assumption.
    rewrite line_string_text_line by assumption.
    destruct l as [|c l]; [discriminate|].
    unfold text_line in Ht. apply andb_true_iff in Ht. destruct Ht as [_ Hn].
    simpl in Hn. apply andb_true_iff in Hn. destruct Hn as [Hn _].
    apply negb_true_iff in Hn.
    unfold strlen. simpl cstring. rewrite Hn. simpl length.
    destruct (Z.eqb_spec (Z.of_nat (S (length (cstring l)))) 0); [lia|].
    rewrite IH by (assumption || (simpl in Hf; lia)).
    reflexivity.
Qed.

Lemma read_parameter_record (f : format) (lines : list (list Z)) (rest : list Z) :
  forallb field_line lines = true ->
  read_parameter (text_of_lines lines ++ LF :: rest) f = first_response lines f.
Proof.
  intros H. unfold read_parameter.
  apply read_parameter_loop_record; [assumption|].
  rewrite length_app. simpl.
  pose proof (text_of_lines_length lines). lia.
Qed.

(** When all the lines that answer a format are the same line, the order
    of the lines does not matter. *)
Lemma first_response_perm (f : format) (lines lines' : list (list Z)) :
  Permutation lines lines' ->
  (forall l1 l2, In l1 lines -> In l2 lines ->
     sscanf1 l1 f <> ScanFail -> sscanf1 l2 f <> ScanFail -> l1 = l2) ->
  first_response lines f = first_response lines' f.
Proof.
  induction 1 as [|x l l' Hp IH|x y l|l l' l'' Hp1 IH1 Hp2 IH2]; intros U.
  - reflexivity.
  - simpl. destruct (sscanf1 x f); try reflexivity.
    apply IH. intros l1 l2 H1 H2. apply U; now right.
  - simpl.
    destruct (sscanf1 y f) eqn:Ey; destruct (sscanf1 x f) eqn:Ex;
      try reflexivity;
      assert (E : y = x)
        by (apply U; [now left|right; now left|congruence|congruence]);
      congruence.
  - rewrite IH1 by assumption. apply IH2.
    intros l1 l2 H1 H2.
    apply U; eapply Permutation_in; try eassumption; now apply Permutation_sym.
Qed.

Lemma match_literal_app (name l : list Z) :
  forallb (fun c => negb (c =? 58)) name = true ->
  existsb (fun c => c =? 58) l = true ->
  match_literal (name ++ [58]) l <> ScanFail ->
  line_name l = name.
Proof.
  revert l. induction name as [|c name IH]; intros l Hn Hl Hm; simpl in *.
  - destruct l as [|d l]; [discriminate|]. simpl.
    destruct (d =? 58); [reflexivity|congruence].
  - apply andb_true_iff in Hn. destruct Hn as [Hc Hn].
    apply negb_true_iff in Hc.
    destruct l as [|d l]; [discriminate|]. simpl in *.
    destruct (Z.eqb_spec d c) as [->|]; [|congruence].
    rewrite Hc in *. simpl in Hl.
    f_equal. now apply IH.
Qed.

(** A line that answers a format bears the name of the format. *)
Lemma sscanf1_line_name (f : format) (l : list Z) :
  label_ok f = true -> field_line l = true ->
  sscanf1 l f <> ScanFail ->
  line_name l ++ [58] = label f.
Proof.
  unfold label_ok, field_line, sscanf1. intros Hf Hl Hs.
  apply andb_true_iff in Hl. destruct Hl as [_ Hc].
  destruct (rev (label f)) as [|c name] eqn:E; [discriminate|].
  assert (E' : label f = rev name ++ [c]).
  { rewrite <- (rev_involutive (label f)), E. reflexivity. }
  destruct (Z.eqb_spec c 58) as [->|]; [|
    now destruct c as [|[p|p|]|]; try discriminate;
        repeat (destruct p as [p|p|]; try discriminate) ].
  rewrite E' in *.
  rewrite (match_literal_app (rev name) l); trivial.
  - rewrite forallb_forall in *. intros x Hx. apply Hf. now apply in_rev.
  - destruct (match_literal (rev name ++ [58]) l); congruence.
Qed.

Lemma NoDup_map_injective {A B : Type} (g : A -> B) (l : list A) (a b : A) :
  NoDup (map g l) -> In a l -> In b l -> g a = g b -> a = b.
Proof.
  induction l as [|x l IH]; intros Hd Ha Hb E; [contradiction|].
  simpl in Hd. inversion Hd as [|? ? Hx Hd']; subst.
  destruct Ha as [->|Ha], Hb as [->|Hb]; trivial.
  - exfalso. apply Hx. rewrite E. now apply in_map.
  - exfalso. apply Hx. rewrite <- E. now apply in_map.
  - now apply IH.
Qed.

(** A field is read alike from two records that hold the same lines, each
    field once, whatever follows their blank lines. *)
Lemma read_parameter_perm (lines lines' : list (list Z)) (rest rest' : list Z) :
  Permutation lines lines' ->
  forallb field_line lines = true ->
  NoDup (map line_name lines) ->
  forall f : format,
    label_ok f = true ->
    read_parameter (text_of_lines lines ++ LF :: rest) f
    = read_parameter (text_of_lines lines' ++ LF :: rest') f.
Proof.
  intros Hp Hl Hd f Hf.
  assert (Hl' : forallb field_line lines' = true).
  { rewrite forallb_forall in *. intros x Hx. apply Hl.
    eapply Permutation_in; [apply Permutation_sym|]; eassumption. }
  rewrite !read_parameter_record by assumption.
  apply first_response_perm; [assumption|].
  intros l1 l2 H1 H2 R1 R2.
  apply (NoDup_map_injective line_name lines); trivial.
  rewrite forallb_forall in Hl.
  apply (app_inv_tail [58]).
  rewrite (sscanf1_line_name f l1), (sscanf1_line_name f l2); auto.
Qed.

Lemma first_response_fails (f : format) (lines : list (list Z)) :
  (exists c d, first_response lines f = Err c d)
  <-> Forall (fun l => sscanf1 l f = ScanFail) lines.
Proof.
  induction lines as [|l lines IH]; simpl.
  - split; [constructor|]. intros _. now eexists; eexists.
  - destruct (sscanf1 l f) eqn:E.
    + split; [intros (c & d & H); discriminate|].
      inversion 1; congruence.
    + rewrite IH. split; [now constructor|now inversion 1].
    + split; [intros (c & d & H); discriminate|].
      inversion 1; congruence.
Qed.

(** C9 (amended).  The record of a leaf of fixed layout, given as
    [name:value] lines of fewer than 255 characters with each name once
    and ended by a blank line, is made into the same block whatever the
    order of its lines, and where the make function fails or writes
    outside its block it does so in every order; and a field is missed
    only when no line of the record answers its format. *)
Theorem make_node_order_of_lines
  (f : block_functions) (cfg : config)
  (lines lines' : list (list Z)) (rest rest' : list Z) :
  fixed_layout f = true ->
  Permutation lines lines' ->
  forallb field_line lines = true ->
  NoDup (map line_name lines) ->
  made_block (make_of f cfg (text_of_lines lines ++ LF :: rest))
  = made_block (make_of f cfg (text_of_lines lines' ++ LF :: rest'))
  /\ forall fmt : format,
       (exists c d, read_parameter (text_of_lines lines ++ LF :: rest) fmt = Err c d)
       <-> Forall (fun l => sscanf1 l fmt = ScanFail) lines.
Proof.
  intros Hf Hp Hl Hd. split.
  - pose proof (read_parameter_perm lines lines' rest rest' Hp Hl Hd) as R.
    destruct f; try discriminate; cbn [make_of];
      unfold make_node_sign, make_node_mcda, make_node_dbrf, make_node_cnst,
        make_node_swep, make_node_fbin, make_node_rtag, make_node_gps1,
        make_node_indx, make_node_scal, read_field;
      repeat (rewrite R by reflexivity);
      repeat
        match goal with
        | |- context [read_parameter ?fd ?fmt] =>
            destruct (read_parameter fd fmt) as [[?|]|? ?|];
            cbn [bind made_block]; try reflexivity
        | |- context [if ?c then _ else _] =>
            destruct c; cbn [bind made_block]; try reflexivity
        end.
  - intros fmt. rewrite read_parameter_record by assumption.
    apply first_response_fails.
Qed.

(** ** Integers printed and read back *)

Lemma digit_value_digit_char (b d : Z) :
  2 <= b <= 16 -> 0 <= d < b -> digit_value b (digit_char d) = Some d.
Proof.
  intros Hb Hd. unfold digit_value, digit_char.
  destruct (Z.ltb_spec d 10).
  - replace ((48 <=? 48 + d) && (48 + d <=? 57)) with true
      by (symmetry; apply andb_true_iff; split; apply Z.leb_le; lia).
    replace (48 + d - 48) with d by lia.
    destruct (Z.ltb_spec d b); [reflexivity|lia].
  - replace ((48 <=? 87 + d) && (87 + d <=? 57)) with false
      by (symmetry; apply andb_false_iff; right; apply Z.leb_gt; lia).
    replace ((97 <=? 87 + d) && (87 + d <=? 122)) with true
      by (symmetry; apply andb_true_iff; split; apply Z.leb_le; lia).
    replace (87 + d - 87) with d by lia.
    destruct (Z.ltb_spec d b); [reflexivity|lia].
Qed.

(** A character that is a decimal digit. *)
Definition is_digit (c : Z) : bool := (48 <=? c) && (c <=? 57).

Lemma digit_char_is_digit (d : Z) : 0 <= d < 10 -> is_digit (digit_char d) = true.
Proof.
  intros H. unfold is_digit, digit_char.
  destruct (Z.ltb_spec d 10); [|lia].
  apply andb_true_iff. split; apply Z.leb_le; lia.
Qed.

Lemma print_base_digits (fuel : nat) (v : Z) :
  0 <= v -> forallb is_digit (print_base 10 fuel v) = true.
Proof.
  revert v. induction fuel as [|fuel IH]; intros v Hv; simpl; [reflexivity|].
  rewrite forallb_app. apply andb_true_iff. split.
  - destruct (v / 10 =? 0); [reflexivity|].
    apply IH. apply Z.div_pos; lia.
  - simpl. rewrite digit_char_is_digit; [reflexivity|].
    apply Z.mod_pos_bound. lia.
Qed.

Lemma print_base_nonempty (b : Z) (fuel : nat) (v : Z) :
  print_base b (S fuel) v <> [].
Proof. simpl. now destruct (if v / b =? 0 then [] else print_base b fuel (v / b)). Qed.

Lemma print_base_length (b : Z) (fuel : nat) (v : Z) :
  (length (print_base b fuel v) <= fuel)%nat.
Proof.
  revert v. induction fuel as [|fuel IH]; intros v; simpl; [lia|].
  rewrite length_app. simpl.
  destruct (v / b =? 0); simpl; [lia|].
  specialize (IH (v / b)). lia.
Qed.

(** Reading the digits [print_base] wrote gives the number back. *)
Lemma scan_digits_print_base (b : Z) (fuel : nat) :
  2 <= b <= 16 ->
  forall (v : Z) (tl : list Z) (acc : Z) (n : nat),
    0 <= v < b ^ Z.of_nat fuel ->
    scan_digits b (print_base b fuel v ++ tl) acc n
    = scan_digits b tl
        (acc * b ^ Z.of_nat (length (print_base b fuel v)) + v)
        (n + length (print_base b fuel v)).
Proof.
  intros Hb. induction fuel as [|fuel IH]; intros v tl acc n Hv.
  - simpl in *. replace v with 0 by lia.
    f_equal; [lia|lia].
  - cbn [print_base].
    assert (Hm : 0 <= v mod b < b) by (apply Z.mod_pos_bound; lia).
    assert (Hd : v = b * (v / b) + v mod b) by (apply Z.div_mod; lia).
    destruct (Z.eqb_spec (v / b) 0) as [E|E].
    + simpl. rewrite digit_value_digit_char by assumption.
      f_equal; [|lia].
      rewrite E in Hd. change (Z.of_nat 1) with 1. lia.
    + rewrite <- app_assoc. simpl.
      rewrite IH.
      * simpl. rewrite digit_value_digit_char by assumption.
        rewrite length_app. simpl.
        f_equal; [|lia].
        rewrite Nat2Z.inj_add. change (Z.of_nat 1) with 1.
        rewrite Z.pow_add_r by lia. lia.
      * split; [apply Z.div_pos; lia|].
        apply Z.div_lt_upper_bound; [lia|].
        rewrite Nat2Z.inj_succ, Z.pow_succ_r in Hv by lia. lia.
Qed.

Lemma scan_digits_stop (b : Z) (tl : list Z) (acc : Z) (n : nat) :
  match tl with [] => True | c :: _ => digit_value b c = None end ->
  scan_digits b tl acc n = (acc, n, tl).
Proof. destruct tl as [|c tl]; simpl; [reflexivity|]. now intros ->. Qed.

Lemma is_digit_not_space (c : Z) : is_digit c = true -> isspace c = false.
Proof.
  unfold is_digit, isspace. intros H.
  apply andb_true_iff in H. destruct H as [H1 H2].
  apply Z.leb_le in H1, H2.
  apply orb_false_iff. split; [apply Z.eqb_neq; lia|].
  apply andb_false_iff. right. apply Z.leb_gt. lia.
Qed.

(** An unsigned decimal number, followed by what is no digit, as scanf
    reads it. *)
Lemma scan_int_printf_u (v : Z) (tl : list Z) :
  0 <= v < 2 ^ 64 ->
  match tl with [] => True | c :: _ => digit_value 10 c = None end ->
  scan_int 10 (printf_u v ++ tl) = ScanOK (false, v, tl).
Proof.
  intros Hv Htl. unfold printf_u, scan_int.
  pose proof (print_base_digits 64 v (proj1 Hv)) as Hd.
  pose proof (print_base_nonempty 10 63 v) as Hne.
  pose proof (scan_digits_print_base 10 64 ltac:(lia) v tl 0 0) as Hs.
  destruct (print_base 10 64 v) as [|c s] eqn:E; [congruence|].
  simpl in Hd. apply andb_true_iff in Hd. destruct Hd as [Hc Hd].
  cbn [app skip_space]. rewrite (is_digit_not_space c Hc).
  unfold is_digit in Hc. apply andb_true_iff in Hc. destruct Hc as [H1 H2].
  apply Z.leb_le in H1, H2.
  destruct (Z.eqb_spec c 45); [lia|]. destruct (Z.eqb_spec c 43); [lia|].
  assert (S0 : skip_0x 10 (c :: s ++ tl) = c :: s ++ tl).
  { unfold skip_0x. destruct c as [|p|p]; try reflexivity.
    destruct (s ++ tl) as [|x [|d r]]; try reflexivity;
      repeat (destruct p as [p|p|]; try reflexivity). }
  rewrite S0.
  change (c :: s ++ tl) with ((c :: s) ++ tl).
  rewrite Hs; [|split; [lia|]].
  - rewrite scan_digits_stop by assumption.
    cbn [length Nat.add]. now rewrite Z.mul_0_l.
  - eapply Z.lt_trans; [apply Hv|]. reflexivity.
Qed.

Lemma match_literal_prefix (lit s : list Z) :
  match_literal lit (lit ++ s) = ScanOK s.
Proof.
  induction lit as [|c lit IH]; simpl; [reflexivity|].
  now rewrite Z.eqb_refl.
Qed.

(** [name:%u] on a line that gives the name, a number and then no
    digit. *)
Lemma sscanf1_printf_u (name : list Z) (v : Z) (tl : list Z) :
  0 <= v < 2 ^ 64 ->
  match tl with [] => True | c :: _ => digit_value 10 c = None end ->
  sscanf1 (name ++ printf_u v ++ tl) (mkformat name Conv_u)
  = ScanOK (host_encode 4 (wrap32 v)).
Proof.
  intros Hv Htl. unfold sscanf1. simpl label.
  rewrite match_literal_prefix. simpl.
  rewrite scan_int_printf_u by assumption.
  unfold strtoul_value.
  destruct (Z.leb_spec (2 ^ 64) v); [lia|reflexivity].
Qed.

(** ** Byte order *)

Lemma be_encode_length (n : nat) (v : Z) : length (be_encode n v) = n.
Proof. induction n as [|n IH]; simpl; [reflexivity|now rewrite IH]. Qed.

Lemma host_encode_length (n : nat) (v : Z) : length (host_encode n v) = n.
Proof.
  unfold host_encode. destruct little_endian;
    rewrite ?length_rev; apply be_encode_length.
Qed.

Lemma be_decode_acc (bs : list Z) (acc : Z) :
  fold_left (fun a b => a * 256 + b) bs acc
  = acc * 256 ^ Z.of_nat (length bs) + be_decode bs.
Proof.
  unfold be_decode. revert acc.
  induction bs as [|b bs IH]; intros acc.
  - simpl. lia.
  - cbn [fold_left length]. rewrite IH, (IH (0 * 256 + b)).
    rewrite Nat2Z.inj_succ, Z.pow_succ_r by lia. lia.
Qed.

Lemma be_decode_cons (b : Z) (bs : list Z) :
  be_decode (b :: bs) = b * 256 ^ Z.of_nat (length bs) + be_decode bs.
Proof.
  unfold be_decode at 1. cbn [fold_left]. rewrite be_decode_acc. lia.
Qed.

Lemma be_decode_encode (n : nat) (v : Z) :
  be_decode (be_encode n v) = v mod 256 ^ Z.of_nat n.
Proof.
  induction n as [|n IH].
  - simpl. now rewrite Z.mod_1_r.
  - cbn [be_encode]. rewrite be_decode_cons, be_encode_length, IH.
    rewrite Nat2Z.inj_succ, Z.pow_succ_r by lia.
    rewrite (Z.mul_comm 256), Z.rem_mul_r by lia.
    lia.
Qed.

Lemma host_decode_encode (n : nat) (v : Z) :
  host_decode (host_encode n v) = v mod 256 ^ Z.of_nat n.
Proof.
  unfold host_decode, host_encode.
  destruct little_endian; rewrite ?rev_involutive; apply be_decode_encode.
Qed.

Lemma host_decode_encode_4 (v : Z) :
  0 <= v < 2 ^ 32 -> host_decode (host_encode 4 v) = v.
Proof.
  intros H. rewrite host_decode_encode. apply Z.mod_small.
  change (256 ^ Z.of_nat 4) with (2 ^ 32). exact H.
Qed.

Lemma swapcopy_4 (l : list Z) : length l = 4%nat -> swapcopy l = rev l.
Proof. unfold swapcopy. now intros ->. Qed.

Lemma swapcopy_8 (l : list Z) : length l = 8%nat -> swapcopy l = rev l.
Proof. unfold swapcopy. now intros ->. Qed.

(** A field of 4 or 8 bytes fixed in memory is the field in file order. *)
Lemma endian_fixup_host_encode (n : nat) (v : Z) :
  n = 4%nat \/ n = 8%nat ->
  endian_fixup (host_encode n v) = be_encode n v.
Proof.
  intros Hn. unfold endian_fixup, host_encode.
  destruct little_endian; [|reflexivity].
  destruct Hn as [-> | ->].
  - rewrite swapcopy_4 by (rewrite length_rev; apply be_encode_length).
    apply rev_involutive.
  - rewrite swapcopy_8 by (rewrite length_rev; apply be_encode_length).
    apply rev_involutive.
Qed.

Lemma host_decode_endian_fixup (bs : list Z) :
  length bs = 4%nat \/ length bs = 8%nat ->
  host_decode (endian_fixup bs) = be_decode bs.
Proof.
  intros Hn. unfold endian_fixup, host_decode.
  destruct little_endian; [|reflexivity].
  destruct Hn as [H|H].
  - rewrite swapcopy_4 by assumption. now rewrite rev_involutive.
  - rewrite swapcopy_8 by assumption. now rewrite rev_involutive.
Qed.

Lemma endian_fixup_involutive (bs : list Z) :
  endian_fixup (endian_fixup bs) = bs.
Proof.
  unfold endian_fixup. destruct little_endian; [|reflexivity].
  unfold swapcopy.
  destruct (length bs) as [|[|[|[|[|[|[|[|[|]]]]]]]]] eqn:E;
    rewrite ?length_rev, ?E, ?rev_involutive; try reflexivity;
    now rewrite E.
Qed.

Lemma strkey_be (k : fourcc) : strkey k = be_encode 4 k.
Proof. unfold strkey. apply endian_fixup_host_encode. now left. Qed.

Lemma gen_header_be (n : node) :
  gen_header n = be_encode 4 (key n) ++ be_encode 4 (size n).
Proof.
  unfold gen_header. now rewrite !endian_fixup_host_encode by now left.
Qed.

(** ** Blocks of memory *)

Lemma slice_length (buf : list Z) (off len : nat) :
  (off + len <= length buf)%nat -> length (slice buf off len) = len.
Proof.
  intros H. unfold slice. rewrite length_firstn, length_skipn. lia.
Qed.

Lemma slice_store_same (buf : list Z) (off : nat) (bytes : list Z) :
  (off + length bytes <= length buf)%nat ->
  slice (store buf off bytes) off (length bytes) = bytes.
Proof.
  intros H. unfold slice, store.
  rewrite skipn_app, length_firstn.
  replace (off - Nat.min off (length buf))%nat with 0%nat by lia.
  rewrite skipn_firstn_comm.
  replace (off - off)%nat with 0%nat by lia.
  simpl. rewrite firstn_all2 with (n := (length buf - off)%nat) by lia.
  rewrite firstn_app, Nat.sub_diag. simpl.
  now rewrite firstn_all, app_nil_r.
Qed.

Lemma store_whole (buf bytes : list Z) :
  length bytes = length buf -> store buf 0 bytes = bytes.
Proof.
  intros H. unfold store. simpl.
  rewrite Nat.sub_0_r, <- H, firstn_all, skipn_all2 by lia.
  apply app_nil_r.
Qed.

Lemma slice_whole (buf : list Z) : slice buf 0 (length buf) = buf.
Proof. unfold slice. simpl. apply firstn_all. Qed.

(** ** One step of [read_parameter] *)

Definition plain_char (c : Z) : bool := negb (c =? LF) && negb (c =? NUL).

Lemma plain_text_line (l : list Z) :
  text_line l = true -> forallb plain_char l = true.
Proof.
  unfold text_line, fits_line, plain_char. intros H.
  apply andb_true_iff in H. destruct H as [H Hn].
  apply andb_true_iff in H. destruct H as [Hl _].
  rewrite forallb_forall in *. intros x Hx.
  now rewrite (Hl x Hx), (Hn x Hx).
Qed.

Lemma line_string_prefix (A c : list Z) :
  forallb plain_char A = true -> line_string (A ++ c) = A ++ line_string c.
Proof.
  unfold line_string. induction A as [|a A IH]; intros H; simpl in *.
  - reflexivity.
  - apply andb_true_iff in H. destruct H as [Ha H].
    unfold plain_char in Ha. apply andb_true_iff in Ha. destruct Ha as [H1 H2].
    apply negb_true_iff in H1, H2.
    rewrite H2, H1. simpl. rewrite H2. now rewrite IH.
Qed.

(** A line on which the answer of sscanf is settled by a start [A] of
    the line. *)
Lemma read_parameter_loop_found (f : format) (A B : list Z) (fuel : nat)
  (v : list Z) :
  A <> [] -> forallb plain_char A = true -> (length A <= 254)%nat ->
  (forall X, sscanf1 (A ++ X) f = ScanOK v) ->
  read_parameter_loop (S fuel) (A ++ B) f = Ok (Some v).
Proof.
  intros Hne Hp Hl Hs. cbn [read_parameter_loop].
  unfold fgets. destruct (A ++ B) eqn:E; [now destruct A|]. rewrite <- E.
  rewrite fgets_chars_app.
  - rewrite line_string_prefix by assumption.
    rewrite Hs.
    destruct A as [|a A]; [congruence|].
    simpl in Hp. apply andb_true_iff in Hp. destruct Hp as [Ha _].
    unfold plain_char in Ha. apply andb_true_iff in Ha. destruct Ha as [_ H2].
    apply negb_true_iff in H2.
    unfold strlen. simpl. rewrite H2. simpl length.
    now destruct (Z.eqb_spec (Z.of_nat (S (length (cstring (A ++ line_string
      (fst (fgets_chars (SIZE_LINE - 1 - S (length A)) B))))))) 0); [lia|].
  - rewrite forallb_forall in *. intros x Hx. specialize (Hp x Hx).
    unfold plain_char in Hp. now apply andb_true_iff in Hp.
  - unfold SIZE_LINE. lia.
Qed.

(** A line of text: the answer of sscanf decides. *)
Lemma read_parameter_loop_line (f : format) (l fd : list Z) (fuel : nat) :
  text_line l = true -> l <> [] ->
  read_parameter_loop (S fuel) (l ++ LF :: fd) f
  = match sscanf1 l f with
    | ScanFail => read_parameter_loop fuel fd f
    | ScanEOF => Ok None
    | ScanOK v => Ok (Some v)
    end.
Proof.
  intros Ht Hne. cbn [read_parameter_loop].
  assert (Hfit : fits_line l = true)
    by (unfold text_line in Ht; now apply andb_true_iff in Ht).
  rewrite fgets_line by assumption.
  rewrite line_string_text_line by assumption.
  destruct l as [|c l]; [congruence|].
  apply plain_text_line in Ht. simpl in Ht.
  apply andb_true_iff in Ht. destruct Ht as [Hc _].
  unfold plain_char in Hc. apply andb_true_iff in Hc. destruct Hc as [_ H2].
  apply negb_true_iff in H2.
  unfold strlen. simpl cstring. rewrite H2. simpl length.
  now destruct (Z.eqb_spec (Z.of_nat (S (length (cstring l)))) 0); [lia|].
Qed.

(** ** The legacy time stamp *)

Lemma printf_u_plain (v : Z) : 0 <= v -> forallb plain_char (printf_u v) = true.
Proof.
  intros Hv. pose proof (print_base_digits 64 v Hv) as H.
  unfold printf_u. rewrite forallb_forall in *. intros x Hx.
  specialize (H x Hx). unfold is_digit in H. unfold plain_char, LF, NUL.
  apply andb_true_iff in H. destruct H as [H1 H2]. apply Z.leb_le in H1, H2.
  apply andb_true_iff. split; apply negb_true_iff, Z.eqb_neq; lia.
Qed.

Lemma wrap64_range (z : Z) : 0 <= wrap64 z < 2 ^ 64.
Proof. unfold wrap64. apply Z.mod_pos_bound. lia. Qed.

Lemma wrap32_wrap64 (z : Z) : wrap32 (wrap64 z) = wrap32 z.
Proof.
  unfold wrap32, wrap64.
  apply Z.mod_mod_divide.
  exists (2 ^ 32). reflexivity.
Qed.

(** The line of a time stamp answers the format of its field with the
    seconds since 1970 as a 32-bit number. *)
Lemma read_parameter_timestamp (name : list Z) (t : Z) (fd : list Z) :
  name <> [] -> forallb plain_char name = true -> (length name <= 100)%nat ->
  read_parameter (timestamp_line name t ++ fd) (mkformat name Conv_u)
  = Ok (Some (host_encode 4 (wrap32 (t - epoch_offset)))).
Proof.
  intros Hne Hp Hl. unfold read_parameter, timestamp_line.
  set (w := wrap64 (t - epoch_offset)).
  pose proof (wrap64_range (t - epoch_offset)) as Hw. fold w in Hw.
  change (str " (NB: seconds since 1970) (")
    with ([32] ++ str "(NB: seconds since 1970) (").
  repeat rewrite <- app_assoc.
  rewrite (app_assoc name), (app_assoc (name ++ printf_u w)).
  match goal with
  | |- read_parameter_loop (length ?full) _ _ = _ =>
      destruct (length full) as [|fuel] eqn:E
  end.
  { rewrite !length_app in E. destruct name; [congruence|cbn [length] in E; lia]. }
  rewrite read_parameter_loop_found
    with (v := host_encode 4 (wrap32 (t - epoch_offset))).
  - reflexivity.
  - destruct name; [congruence|discriminate].
  - rewrite !forallb_app, Hp, printf_u_plain by lia. reflexivity.
  - rewrite !length_app. pose proof (print_base_length 10 64 w).
    unfold printf_u. cbn [length]. lia.
  - intros X. rewrite <- !app_assoc. cbn [app].
    rewrite sscanf1_printf_u by (assumption || reflexivity).
    unfold w. now rewrite wrap32_wrap64.
Qed.

Lemma store_fits (buf : list Z) (off : nat) (bytes : list Z) :
  (off + length bytes <= length buf)%nat ->
  store buf off bytes = firstn off buf ++ bytes ++ skipn (off + length bytes) buf.
Proof.
  intros H. unfold store. now rewrite firstn_all2 with (l := bytes) by lia.
Qed.

Lemma slice_store_at (buf : list Z) (off n : nat) (bytes : list Z) :
  n = length bytes -> (off + n <= length buf)%nat ->
  slice (store buf off bytes) off n = bytes.
Proof. intros -> H. now apply slice_store_same. Qed.

Lemma store_store (buf : list Z) (off : nat) (a b : list Z) :
  length a = length b -> (off + length a <= length buf)%nat ->
  store (store buf off a) off b = store buf off b.
Proof.
  intros E H.
  rewrite (store_fits (store buf off a)) by (rewrite store_length; lia).
  rewrite (store_fits buf off a), (store_fits buf off b) by lia.
  rewrite firstn_app, firstn_firstn, length_firstn.
  replace (Nat.min off off) with off by lia.
  replace (off - Nat.min off (length buf))%nat with 0%nat by lia.
  simpl. rewrite app_nil_r. f_equal. f_equal.
  rewrite skipn_app, length_firstn.
  rewrite skipn_all2 with (l := firstn off buf) by (rewrite length_firstn; lia).
  replace (off + length b - Nat.min off (length buf))%nat with (length a) by lia.
  rewrite skipn_app, skipn_all, Nat.sub_diag. simpl. now rewrite E.
Qed.

Lemma add_epoch_offset_store (blk : list Z) (off : nat) (t : Z) :
  (off + 4 <= length blk)%nat -> 0 <= t < 2 ^ 32 ->
  add_epoch_offset (store blk off (host_encode 4 (wrap32 (t - epoch_offset)))) off
  = store blk off (host_encode 4 t).
Proof.
  intros Hb Ht. unfold add_epoch_offset.
  rewrite slice_store_at by (rewrite ?host_encode_length; lia).
  rewrite host_decode_encode_4 by apply wrap32_range.
  rewrite wrap32_add_l.
  replace (t - epoch_offset + epoch_offset) with t by lia.
  rewrite (wrap32_small t) by assumption.
  apply store_store; rewrite !host_encode_length; lia.
Qed.

(** ** Fuel *)

Lemma fgets_chars_shorter (room : nat) (fd : list Z) :
  (length (snd (fgets_chars room fd)) <= length fd)%nat
  /\ (room <> 0%nat -> fd <> [] ->
      (length (snd (fgets_chars room fd)) < length fd)%nat).
Proof.
  revert fd. induction room as [|room IH]; intros fd.
  - simpl. split; [lia|congruence].
  - destruct fd as [|c fd]; simpl; [split; [lia|congruence]|].
    destruct (c =? LF); simpl; [split; lia|].
    specialize (IH fd). destruct (fgets_chars room fd) as [l r]. simpl in *.
    split; lia.
Qed.

Lemma fgets_shorter (n : nat) (fd chars fd' : list Z) :
  (2 <= n)%nat -> fgets n fd = Some (chars, fd') ->
  (length fd' < length fd)%nat.
Proof.
  intros Hn. unfold fgets. destruct fd as [|c fd]; [discriminate|].
  intros H. inversion H as [E].
  pose proof (fgets_chars_shorter (n - 1) (c :: fd)) as [_ L].
  rewrite E in L. simpl in L. apply L; [lia|discriminate].
Qed.

(** [read_parameter] does not depend on fuel beyond the length of the
    text. *)
Lemma read_parameter_loop_fuel (f : format) (fuel1 : nat) :
  forall (fuel2 : nat) (fd : list Z),
    (length fd <= fuel1)%nat -> (length fd <= fuel2)%nat ->
    read_parameter_loop fuel1 fd f = read_parameter_loop fuel2 fd f.
Proof.
  induction fuel1 as [|fuel1 IH]; intros fuel2 fd H1 H2.
  - destruct fd; [|simpl in H1; lia]. now destruct fuel2.
  - destruct fuel2 as [|fuel2].
    + destruct fd; [|simpl in H2; lia]. reflexivity.
    + simpl. destruct (fgets SIZE_LINE fd) as [[chars fd']|] eqn:E; [|reflexivity].
      apply fgets_shorter in E; [|unfold SIZE_LINE; lia].
      destruct (strlen (line_string chars) =? 0); [reflexivity|].
      destruct (sscanf1 (line_string chars) f); try reflexivity.
      apply IH; lia.
Qed.

Lemma read_parameter_fuel (f : format) (fuel : nat) (fd : list Z) :
  (length fd <= fuel)%nat ->
  read_parameter fd f = read_parameter_loop fuel fd f.
Proof. intros H. unfold read_parameter. apply read_parameter_loop_fuel; lia. Qed.

(** The value read for a field lies within the block. *)
Ltac fits :=
  repeat
    match goal with
    | |- context [if (?a <=? ?b)%nat then Ok ?x else Overrun] =>
        replace (a <=? b)%nat with true
          by (symmetry; apply Nat.leb_le;
              rewrite ?store_length, ?host_encode_length, ?repeat_length;
              cbn; lia);
        cbv iota; cbn [bind]
    end.

Lemma make_node_mcda_timestamp (cfg : config) (t : Z) (fd : list Z) :
  0 <= t < 2 ^ 32 ->
  make_node_mcda cfg (timestamp_line (str "filetimestamp:") t ++ fd)
  = Ok (mknode KEY_mcda sizeof_block_mcda (HeapPtr (host_encode 4 t)), cfg,
        timestamp_line (str "filetimestamp:") t ++ fd).
Proof.
  intros Ht. unfold make_node_mcda, read_field.
  rewrite read_parameter_timestamp by (discriminate || reflexivity || (simpl; lia)).
  cbn [bind]. fits.
  rewrite add_epoch_offset_store by (assumption || (simpl; lia)).
  rewrite store_whole by (now rewrite host_encode_length).
  reflexivity.
Qed.

Lemma sscanf1_double_line (name : list Z) (prec : nat) (d v : Z) (r : list Z) :
  scan_lf (printf_lf false prec d) = ScanOK (v, r) ->
  sscanf1 (name ++ printf_lf false prec d) (mkformat name Conv_lf)
  = ScanOK (host_encode 8 v).
Proof.
  intros H. unfold sscanf1. simpl label.
  rewrite match_literal_prefix. simpl. now rewrite H.
Qed.

Lemma app_nonempty (name s : list Z) : name <> [] -> name ++ s <> [].
Proof. now destruct name. Qed.

Lemma sscanf1_mismatch (lit line : list Z) (c : conv) :
  match_literal lit line = ScanFail ->
  sscanf1 line (mkformat lit c) = ScanFail.
Proof. intros H. unfold sscanf1. simpl label. now rewrite H. Qed.

Lemma make_node_gps1_timestamp (cfg : config) (lat lon alt t : Z) (fd : list Z) :
  double_line_ok (str "lat:") 6 lat ->
  double_line_ok (str "lon:") 6 lon ->
  double_line_ok (str "alt:") 6 alt ->
  0 <= t < 2 ^ 32 ->
  let body :=
    str "lat:" ++ printf_lf false 6 lat ++ [LF]
      ++ str "lon:" ++ printf_lf false 6 lon ++ [LF]
      ++ str "alt:" ++ printf_lf false 6 alt ++ [LF]
      ++ timestamp_line (str "gpstimestamp:") t ++ fd in
  exists gps1,
    make_node_gps1 cfg body
    = Ok (mknode KEY_gps1 sizeof_block_gps1 (HeapPtr gps1), cfg, body)
    /\ slice gps1 24 4 = host_encode 4 t.
Proof.
  intros (T1 & v1 & r1 & S1) (T2 & v2 & r2 & S2) (T3 & v3 & r3 & S3) Ht body.
  pose proof (sscanf1_double_line (str "lat:") 6 lat v1 r1 S1) as Q1.
  pose proof (sscanf1_double_line (str "lon:") 6 lon v2 r2 S2) as Q2.
  pose proof (sscanf1_double_line (str "alt:") 6 alt v3 r3 S3) as Q3.
  assert (M : forall lit c s,
            match_literal lit s = ScanFail -> sscanf1 s (mkformat lit c) = ScanFail)
    by (intros; now apply sscanf1_mismatch).
  pose proof (M (str "lon:") Conv_lf (str "lat:" ++ printf_lf false 6 lat) eq_refl) as F21.
  pose proof (M (str "alt:") Conv_lf (str "lat:" ++ printf_lf false 6 lat) eq_refl) as F31.
  pose proof (M (str "alt:") Conv_lf (str "lon:" ++ printf_lf false 6 lon) eq_refl) as F32.
  pose proof (M (str "gpstimestamp:") Conv_u (str "lat:" ++ printf_lf false 6 lat) eq_refl) as F41.
  pose proof (M (str "gpstimestamp:") Conv_u (str "lon:" ++ printf_lf false 6 lon) eq_refl) as F42.
  pose proof (M (str "gpstimestamp:") Conv_u (str "alt:" ++ printf_lf false 6 alt) eq_refl) as F43.
  clear M.
  set (l1 := str "lat:" ++ printf_lf false 6 lat) in *.
  set (l2 := str "lon:" ++ printf_lf false 6 lon) in *.
  set (l3 := str "alt:" ++ printf_lf false 6 alt) in *.
  set (ts := timestamp_line (str "gpstimestamp:") t ++ fd).
  assert (B : body = l1 ++ LF :: l2 ++ LF :: l3 ++ LF :: ts).
  { unfold body, l1, l2, l3, ts. now rewrite <- !app_assoc. }
  assert (N1 : l1 <> []) by (apply app_nonempty; discriminate).
  assert (N2 : l2 <> []) by (apply app_nonempty; discriminate).
  assert (N3 : l3 <> []) by (apply app_nonempty; discriminate).
  assert (F : forall f, read_parameter body f
            = read_parameter_loop (S (S (S (length l1 + length l2 + length l3 + length ts))))
                (l1 ++ LF :: l2 ++ LF :: l3 ++ LF :: ts) f).
  { intros f. rewrite <- B. apply read_parameter_fuel.
    rewrite B, !length_app. cbn [length]. rewrite !length_app. cbn [length].
    rewrite !length_app. cbn [length]. lia. }
  assert (R1 : read_parameter body (mkformat (str "lat:") Conv_lf)
               = Ok (Some (host_encode 8 v1))).
  { rewrite F, read_parameter_loop_line by assumption. now rewrite Q1. }
  assert (R2 : read_parameter body (mkformat (str "lon:") Conv_lf)
               = Ok (Some (host_encode 8 v2))).
  { rewrite F, read_parameter_loop_line, F21 by assumption.
    rewrite read_parameter_loop_line by assumption. now rewrite Q2. }
  assert (R3 : read_parameter body (mkformat (str "alt:") Conv_lf)
               = Ok (Some (host_encode 8 v3))).
  { rewrite F, read_parameter_loop_line, F31 by assumption.
    rewrite read_parameter_loop_line, F32 by assumption.
    rewrite read_parameter_loop_line by assumption. now rewrite Q3. }
  assert (R4 : read_parameter body (mkformat (str "gpstimestamp:") Conv_u)
               = Ok (Some (host_encode 4 (wrap32 (t - epoch_offset))))).
  { rewrite F, read_parameter_loop_line, F41 by assumption.
    rewrite read_parameter_loop_line, F42 by assumption.
    rewrite read_parameter_loop_line, F43 by assumption.
    rewrite <- read_parameter_fuel by lia.
    unfold ts. apply read_parameter_timestamp;
      [discriminate|reflexivity|cbn [length str]; lia]. }
  unfold make_node_gps1, read_field.
  rewrite R1. cbn [bind]. fits. rewrite R2. cbn [bind]. fits.
  rewrite R3. cbn [bind]. fits. rewrite R4. cbn [bind]. fits.
  eexists. split; [reflexivity|].
  set (blk := store _ 16 (host_encode 8 v3)).
  assert (Lb : length blk = 28%nat).
  { unfold blk. rewrite !store_length. reflexivity. }
  rewrite add_epoch_offset_store by (assumption || lia).
  apply slice_store_at; rewrite ?host_encode_length; lia.
Qed.

(** C6 (amended).  A legacy time stamp [t] other than 0, stored in an
    mcda block or in a gps1 block, is written by the dump function as the
    seconds since 1970 and read back by the make function, which adds the
    offset again, as the 32-bit integer [t] itself: the block made from
    the text holds [t], as the block that was dumped does.  For gps1 the
    three doubles have to be lines that scanf reads. *)
Theorem epoch_offset_round_trip
  (mem : list Z) (nm ng : node) (cfg cfg' : config) (rest : list Z) (t : Z) :
  0 < t < 2 ^ 32 ->
  sizeof_block_mcda <= size nm ->
  field_u32 (node_bytes mem nm) 0 = t ->
  sizeof_block_gps1 <= size ng ->
  field_u32 (node_bytes mem ng) 24 = t ->
  double_line_ok (str "lat:") 6 (field_f64 (node_bytes mem ng) 0) ->
  double_line_ok (str "lon:") 6 (field_f64 (node_bytes mem ng) 8) ->
  double_line_ok (str "alt:") 6 (field_f64 (node_bytes mem ng) 16) ->
  (exists body,
     dump_block_mcda mem nm cfg
     = Ok (printf_s (strkey KEY_mcda) ++ [LF] ++ body, cfg)
     /\ make_node_mcda cfg' (body ++ rest)
        = Ok (mknode KEY_mcda sizeof_block_mcda (HeapPtr (host_encode 4 t)),
              cfg', body ++ rest))
  /\ (exists body gps1,
        dump_block_gps1 mem ng cfg
        = Ok (printf_s (strkey KEY_gps1) ++ [LF] ++ body, cfg)
        /\ make_node_gps1 cfg' (body ++ rest)
           = Ok (mknode KEY_gps1 sizeof_block_gps1 (HeapPtr gps1),
                 cfg', body ++ rest)
        /\ field_u32 gps1 24 = t).
Proof.
  intros Ht Sm Tm Sg Tg D1 D2 D3.
  assert (Hne : (t =? 0) = false) by (apply Z.eqb_neq; lia).
  split.
  - exists (timestamp_line (str "filetimestamp:") t ++ [LF]). split.
    + unfold dump_block_mcda.
      destruct (Z.ltb_spec (size nm) sizeof_block_mcda); [lia|].
      rewrite Tm, Hne. reflexivity.
    + rewrite <- app_assoc. apply make_node_mcda_timestamp. lia.
  - destruct (make_node_gps1_timestamp cfg' _ _ _ t ([LF] ++ rest) D1 D2 D3)
      as (gps1 & Hm & Hs); [lia|].
    eexists. exists gps1. split; [|split].
    + unfold dump_block_gps1.
      destruct (Z.ltb_spec (size ng) sizeof_block_gps1); [lia|].
      rewrite Tg, Hne. cbn [negb]. reflexivity.
    + rewrite <- !app_assoc. exact Hm.
    + unfold field_u32. rewrite Hs. apply host_decode_encode_4. lia.
Qed.

(** ** The line array of rsgen *)

Lemma chomp_nl_length (l : list Z) : length (chomp_nl l) = length l.
Proof.
  induction l as [|c l IH]; simpl; [reflexivity|].
  destruct (c =? NUL); [reflexivity|].
  destruct (c =? LF); simpl; [reflexivity|now rewrite IH].
Qed.

Lemma chomp_length (line : list Z) (max : nat) : length (chomp line max) = length line.
Proof. unfold chomp. now rewrite chomp_nl_length, store_length. Qed.

Lemma store_line_length (old chars : list Z) :
  length (store_line old chars) = length old.
Proof. apply store_length. Qed.

Lemma chomp_nl_plain (l tail : list Z) :
  forallb plain_char l = true ->
  chomp_nl (l ++ LF :: tail) = l ++ NUL :: tail.
Proof.
  induction l as [|c l IH]; intros H; simpl in *; [reflexivity|].
  apply andb_true_iff in H. destruct H as [Hc H].
  unfold plain_char in Hc. apply andb_true_iff in Hc. destruct Hc as [H1 H2].
  apply negb_true_iff in H1, H2. rewrite H2, H1. now rewrite IH.
Qed.

Lemma cstring_plain (l tail : list Z) :
  forallb plain_char l = true -> cstring (l ++ NUL :: tail) = l.
Proof.
  induction l as [|c l IH]; intros H; simpl in *; [reflexivity|].
  apply andb_true_iff in H. destruct H as [Hc H].
  unfold plain_char in Hc. apply andb_true_iff in Hc. destruct Hc as [_ H2].
  apply negb_true_iff in H2. rewrite H2. now rewrite IH.
Qed.

(** The array after a line of text was read into it and chomped: the
    line, a NUL, and bytes that do not matter. *)
Lemma line_array (line l : list Z) :
  length line = SIZE_LINE -> text_line l = true ->
  exists tail, chomp (store_line line (l ++ [LF])) SIZE_LINE = l ++ NUL :: tail.
Proof.
  intros Hlen Ht.
  pose proof (plain_text_line l Ht) as Hp.
  unfold text_line, fits_line in Ht.
  apply andb_true_iff in Ht. destruct Ht as [Ht _].
  apply andb_true_iff in Ht. destruct Ht as [_ Hl].
  apply Nat.ltb_lt in Hl. unfold SIZE_LINE in *.
  unfold chomp, store_line.
  rewrite (store_fits line 0) by (rewrite !length_app; simpl; lia).
  cbn [firstn app Nat.add]. rewrite <- !app_assoc. cbn [app].
  set (Y := NUL :: skipn (length (l ++ [LF; NUL])) line).
  assert (LY : (length l + 1 + length Y = 256)%nat).
  { unfold Y. cbn [length]. rewrite length_skipn, length_app. simpl. lia. }
  unfold store.
  rewrite firstn_app.
  rewrite firstn_all2 with (l := l) by lia.
  replace (256 - 1 - length l)%nat with (S (254 - length l)) by lia.
  cbn [firstn]. rewrite <- app_assoc. cbn [app].
  rewrite chomp_nl_plain by assumption.
  eexists. reflexivity.
Qed.

Lemma line_array_key (l tail : list Z) :
  (4 <= length l)%nat -> slice (l ++ NUL :: tail) 0 4 = firstn 4 l.
Proof.
  intros H. unfold slice. cbn [skipn].
  rewrite firstn_app. replace (4 - length l)%nat with 0%nat by lia.
  cbn [firstn]. apply app_nil_r.
Qed.

Lemma has_char_plain (c : Z) (l tail : list Z) :
  forallb plain_char l = true ->
  has_char c (l ++ NUL :: tail) = existsb (fun x => x =? c) l.
Proof. intros H. unfold has_char. now rewrite cstring_plain. Qed.

Lemma strlen_plain (l tail : list Z) :
  forallb plain_char l = true ->
  strlen (l ++ NUL :: tail) = Z.of_nat (length l).
Proof. intros H. unfold strlen. now rewrite cstring_plain. Qed.

(** ** Unknown keys *)

(** A line of rsgen that is taken for the key of a record. *)
Definition key_line (l : list Z) : bool :=
  text_line l && (4 <=? length l)%nat && negb (existsb (fun c => c =? 58) l).

Lemma rsgen_loop_key_line (fuel : nat) (line : list Z) (cfg : config)
  (l fd : list Z) (line_count : Z) (nodes : list node) :
  length line = SIZE_LINE -> key_line l = true ->
  exists line1,
    length line1 = SIZE_LINE
    /\ rsgen_loop (S fuel) line cfg (l ++ LF :: fd) line_count nodes
       = let k := be_decode (firstn 4 l) in
         match find_block_functions k with
         | (None, d) => Err 1 (d ++ [D_cannot_gen k])
         | (Some f, _) =>
             match make_of f cfg fd with
             | Err _ d => Err 1 (d ++ [D_error_in_block_at k (line_count + 1)])
             | Ok (newnode, cfg', fd2) =>
                 rsgen_loop fuel line1 cfg' fd2 (line_count + 1) (nodes ++ [newnode])
             | Overrun => Overrun
             end
         end.
Proof.
  intros Hlen Hk. unfold key_line in Hk.
  apply andb_true_iff in Hk. destruct Hk as [Hk Hc].
  apply andb_true_iff in Hk. destruct Hk as [Ht H4].
  apply Nat.leb_le in H4. apply negb_true_iff in Hc.
  destruct (line_array line l Hlen Ht) as [tail E].
  pose proof (plain_text_line l Ht) as Hp.
  exists (l ++ NUL :: tail). split.
  - rewrite <- E, chomp_length, store_line_length. exact Hlen.
  - cbn [rsgen_loop].
    rewrite fgets_line
      by (unfold text_line in Ht; now apply andb_true_iff in Ht).
    rewrite E, strlen_plain, has_char_plain, Hc by assumption.
    destruct (Z.leb_spec (Z.of_nat (length l)) 1); [lia|].
    rewrite line_array_key by assumption.
    rewrite host_decode_endian_fixup
      by (left; rewrite length_firstn; lia).
    reflexivity.
Qed.

Lemma rs_write_app (l1 l2 : list node) :
  forall out out1 d1,
    rs_write l1 out = (0, out1, d1) ->
    d1 = [] /\ rs_write (l1 ++ l2) out = rs_write l2 out1.
Proof.
  induction l1 as [|n l1 IH]; intros out out1 d1; simpl.
  - inversion 1. now subst.
  - destruct (find_block_functions (key n)) as [[f|] d]; [|discriminate].
    apply IH.
Qed.

Lemma field_line_text (l : list Z) : field_line l = true -> text_line l = true.
Proof. unfold field_line. intros H. now apply andb_true_iff in H. Qed.

(** ** The rounds of the loop of rsgen *)

(** The state of the loop of [rsgen]: the line array, the settings, the
    text that is left to read, the count of lines and the list made so
    far. *)
Definition loop_state : Type :=
  (list Z * config * list Z * Z * list node)%type.

(** One round of the loop after which the loop goes on: a line is passed
    over, or the key of a line is found in the dictionary and its make
    function makes a node. *)
Definition rsgen_round (s : loop_state) : option loop_state :=
  let '(line, cfg, fd, line_count, nodes) := s in
  match fgets SIZE_LINE fd with
  | None => None
  | Some (chars, fd1) =>
      let line1 := chomp (store_line line chars) SIZE_LINE in
      let line_count1 := line_count + 1 in
      if strlen line1 <=? 1 then Some (line1, cfg, fd1, line_count1, nodes)
      else if has_char 58 line1 then Some (line1, cfg, fd1, line_count1, nodes)
      else
        let k := host_decode (endian_fixup (slice line1 0 4)) in
        match find_block_functions k with
        | (None, _) => None
        | (Some f, _) =>
            match make_of f cfg fd1 with
            | Ok (newnode, cfg', fd2) =>
                Some (line1, cfg', fd2, line_count1, nodes ++ [newnode])
            | _ => None
            end
        end
  end.

(** The states the loop comes to from a state, round after round. *)
Inductive rsgen_reaches : loop_state -> loop_state -> Prop :=
| reaches_here (s : loop_state) : rsgen_reaches s s
| reaches_round (s s1 s2 : loop_state) :
    rsgen_round s = Some s1 -> rsgen_reaches s1 s2 -> rsgen_reaches s s2.

(** The loop started in a state. *)
Definition rsgen_from (fuel : nat) (s : loop_state) : result (list node * Z) :=
  let '(line, cfg, fd, line_count, nodes) := s in
  rsgen_loop fuel line cfg fd line_count nodes.

Definition text_left (s : loop_state) : list Z :=
  let '(_, _, fd, _, _) := s in fd.

Definition line_array_of (s : loop_state) : list Z :=
  let '(line, _, _, _, _) := s in line.

Lemma rsgen_loop_round (fuel : nat) (s s1 : loop_state) :
  rsgen_round s = Some s1 -> rsgen_from (S fuel) s = rsgen_from fuel s1.
Proof.
  destruct s as [[[[line cfg] fd] lc] nodes].
  unfold rsgen_round, rsgen_from. cbn [rsgen_loop].
  destruct (fgets SIZE_LINE fd) as [[chars fd1]|]; [|discriminate].
  cbv zeta.
  destruct (strlen (chomp (store_line line chars) SIZE_LINE) <=? 1);
    [intros H; now inversion H|].
  destruct (has_char 58 (chomp (store_line line chars) SIZE_LINE));
    [intros H; now inversion H|].
  destruct (find_block_functions _) as [[f|] d]; [|discriminate].
  destruct (make_of f cfg fd1) as [[[n cfg'] fd2]|? ?|]; try discriminate.
  intros H. now inversion H.
Qed.

Lemma read_iqdata_loop_stream (todo : nat) :
  forall (sample_count : nat) (iqdata fd iqdata' fd' : list Z),
    read_iqdata_loop todo sample_count iqdata fd = Ok (iqdata', fd') ->
    (length fd' <= length fd)%nat.
Proof.
  induction todo as [|todo IH]; intros sc iq fd iq' fd'; cbn [read_iqdata_loop].
  - intros H. inversion H. lia.
  - destruct (fgets SIZE_LINE fd) as [[chars fd1]|] eqn:E; [|discriminate].
    apply fgets_shorter in E; [|unfold SIZE_LINE; lia].
    destruct (strlen (line_string chars) =? 0); [discriminate|].
    destruct (sscanf_iq (line_string chars)) as [[i q]|]; [|discriminate].
    intros H. apply IH in H. lia.
Qed.

(** A make function leaves the stream where it was or further on. *)
Lemma make_of_stream (f : block_functions) (cfg cfg' : config)
  (fd fd' : list Z) (n : node) :
  make_of f cfg fd = Ok (n, cfg', fd') -> (length fd' <= length fd)%nat.
Proof.
  assert (Q : forall k, make_node_iqdata k cfg fd = Ok (n, cfg', fd') ->
              (length fd' <= length fd)%nat).
  { intros k. unfold make_node_iqdata, read_iqdata_samples.
    destruct (count_iqdata_lines fd <=? 0); [discriminate|].
    destruct (negb (Z.rem (count_iqdata_lines fd) 3 =? 0)); [discriminate|].
    destruct (negb (bin_format cfg =? BINFORMAT_CVIQ)); [discriminate|].
    destruct (negb (bin_type cfg =? BINTYPE_FLT4)); [discriminate|].
    destruct (read_iqdata_loop _ _ _ _) as [[iq fd1]|? ?|] eqn:E;
      try discriminate.
    intros H. inversion H. subst fd1.
    now apply read_iqdata_loop_stream in E. }
  destruct f; cbn [make_of]; try apply Q;
    unfold make_node_aqft, make_node_head, make_node_body, make_node_end,
      make_node_sign, make_node_mcda, make_node_dbrf, make_node_cnst,
      make_node_swep, make_node_fbin, make_node_rtag, make_node_gps1,
      make_node_indx, make_node_scal, make_node_hasi, read_field;
    try (repeat
           match goal with
           | |- context [read_parameter ?a ?b] =>
               destruct (read_parameter a b) as [[?|]|? ?|]; cbn [bind]
           | |- context [if ?c then _ else _] => destruct c; cbn [bind]
           end;
         intros H; try discriminate H; inversion H; lia).
  destruct (fgets (MAX_ARGC * 3 + 1 - 1) fd) as [[chars fd1]|] eqn:E;
    [|discriminate].
  apply fgets_shorter in E; [|unfold MAX_ARGC; lia].
  destruct (_ =? 0)%nat; [discriminate|].
  destruct (_ <=? _)%nat; [discriminate|].
  intros H. inversion H. subst. lia.
Qed.

(** A round uses up some of the text and keeps the size of the array. *)
Lemma rsgen_round_shorter (s s1 : loop_state) :
  rsgen_round s = Some s1 ->
  (length (text_left s1) < length (text_left s))%nat
  /\ length (line_array_of s1) = length (line_array_of s).
Proof.
  destruct s as [[[[line cfg] fd] lc] nodes].
  unfold rsgen_round. cbn [text_left line_array_of].
  destruct (fgets SIZE_LINE fd) as [[chars fd1]|] eqn:E; [|discriminate].
  apply fgets_shorter in E; [|unfold SIZE_LINE; lia].
  cbv zeta.
  assert (L : length (chomp (store_line line chars) SIZE_LINE) = length line)
    by (now rewrite chomp_length, store_line_length).
  destruct (strlen (chomp (store_line line chars) SIZE_LINE) <=? 1);
    [intros H; inversion H; cbn [text_left line_array_of]; now split|].
  destruct (has_char 58 (chomp (store_line line chars) SIZE_LINE));
    [intros H; inversion H; cbn [text_left line_array_of]; now split|].
  destruct (find_block_functions _) as [[f|] d]; [|discriminate].
  destruct (make_of f cfg fd1) as [[[n cfg'] fd2]|? ?|] eqn:M;
    try discriminate.
  apply make_of_stream in M.
  intros H. inversion H. cbn [text_left line_array_of]. split; [lia|exact L].
Qed.

(** With fuel for the text that is left, the loop started in a state is
    the loop started in any state it comes to, again with fuel for the
    text left there. *)
Lemma rsgen_reaches_loop (s s2 : loop_state) :
  rsgen_reaches s s2 ->
  forall fuel : nat,
    (length (text_left s) <= fuel)%nat ->
    length (line_array_of s2) = length (line_array_of s)
    /\ exists fuel2 : nat,
         (length (text_left s2) <= fuel2)%nat
         /\ rsgen_from fuel s = rsgen_from fuel2 s2.
Proof.
  induction 1 as [s|s s1 s2 R _ IH]; intros fuel Hf.
  - split; [reflexivity|]. now exists fuel.
  - destruct (rsgen_round_shorter s s1 R) as [L1 L2].
    destruct fuel as [|fuel]; [lia|].
    destruct (IH fuel) as (L3 & fuel2 & Hf2 & E); [lia|].
    split; [congruence|].
    exists fuel2. split; [exact Hf2|].
    now rewrite (rsgen_loop_round fuel s s1 R).
Qed.

(** C7 (amended).  A key without an entry in the dictionary stops the
    binary encoder, and it stops the text parser when its line has no
    colon: whenever the loop of [rsgen] comes to a line of four or more
    characters without a colon whose first four characters are the key,
    wherever in the text, the loop ends with an error that names the key
    and [rsgen] exits with 1, having written nothing; [rs_write] stops
    at the node with an error that names the key, after the blocks
    before it were written.  A line with a colon is passed over by the
    loop as a line of a field, also when its first four characters are
    the key.  In the decode direction [fixup_block] reports the key and
    returns 1, and it is [dump_list] that stops, with an error that
    names the key, when it comes to the node. *)
Theorem unknown_key_stops
  (k : fourcc) (d : list diag) :
  find_block_functions k = (None, d) ->
  (forall fuel line cfg l fd line_count nodes,
      length line = SIZE_LINE -> key_line l = true ->
      be_decode (firstn 4 l) = k ->
      rsgen_loop (S fuel) line cfg (l ++ LF :: fd) line_count nodes
      = Err 1 (d ++ [D_cannot_gen k]))
  /\ (forall line0 text line cfg l fd line_count nodes,
        length line0 = SIZE_LINE ->
        rsgen_reaches (line0, config0, text, 0, [])
          (line, cfg, l ++ LF :: fd, line_count, nodes) ->
        key_line l = true -> be_decode (firstn 4 l) = k ->
        rsgen line0 text = Exit 1 [] (d ++ [D_cannot_gen k]))
  /\ (forall line cfg l fd line_count nodes,
        length line = SIZE_LINE -> field_line l = true ->
        (4 <= length l)%nat -> be_decode (firstn 4 l) = k ->
        exists line1,
          rsgen_round (line, cfg, l ++ LF :: fd, line_count, nodes)
          = Some (line1, cfg, fd, line_count + 1, nodes))
  /\ (forall l1 n l2 out out1 d1,
        key n = k -> rs_write l1 out = (0, out1, d1) ->
        rs_write (l1 ++ n :: l2) out = (1, out1, d ++ [D_cannot_write k]))
  /\ (forall mem n, key n = k ->
        fixup_block mem n = Some (1, mem, d ++ [D_cannot_fixup k]))
  /\ (forall mem n rest cfg just_header out,
        key n = k ->
        dump_list mem (n :: rest) cfg just_header out
        = (1, out, d ++ [D_cannot_dump k])).
Proof.
  intros Hk.
  assert (G : forall fuel line cfg l fd line_count nodes,
             length line = SIZE_LINE -> key_line l = true ->
             be_decode (firstn 4 l) = k ->
             rsgen_loop (S fuel) line cfg (l ++ LF :: fd) line_count nodes
             = Err 1 (d ++ [D_cannot_gen k])).
  { intros fuel line cfg l fd line_count nodes Hlen Hl Hd.
    destruct (rsgen_loop_key_line fuel line cfg l fd line_count nodes Hlen Hl)
      as (line1 & _ & E).
    rewrite E. cbv zeta. now rewrite Hd, Hk. }
  split; [exact G|]. split; [|split; [|split; [|split]]].
  - intros line0 text line cfg l fd line_count nodes Hlen R Hl Hd.
    destruct (rsgen_reaches_loop _ _ R (length text)) as (L & fuel2 & Hf & E);
      [cbn [text_left]; lia|].
    cbn [text_left line_array_of rsgen_from] in L, Hf, E.
    unfold rsgen. rewrite E.
    destruct fuel2 as [|fuel2];
      [rewrite length_app in Hf; cbn [length] in Hf; lia|].
    rewrite G by (assumption || congruence). reflexivity.
  - intros line cfg l fd line_count nodes Hlen Hf H4 _.
    pose proof (field_line_text l Hf) as Ht.
    unfold field_line in Hf. apply andb_true_iff in Hf. destruct Hf as [_ Hc].
    destruct (line_array line l Hlen Ht) as [tail E].
    pose proof (plain_text_line l Ht) as Hp.
    exists (l ++ NUL :: tail). unfold rsgen_round.
    rewrite fgets_line
      by (unfold text_line in Ht; now apply andb_true_iff in Ht).
    cbv zeta. rewrite E, has_char_plain, Hc by assumption.
    now destruct (strlen (l ++ NUL :: tail) <=? 1).
  - intros l1 n l2 out out1 d1 Kn W.
    destruct (rs_write_app l1 (n :: l2) out out1 d1 W) as [_ ->].
    simpl. now rewrite Kn, Hk.
  - intros mem n Kn. unfold fixup_block. now rewrite Kn, Hk.
  - intros mem n rest cfg jh out Kn. simpl. now rewrite Kn, Hk.
Qed.

(** ** One block of the decoder *)

Lemma endian_fixup_be_encode (n : nat) (v : Z) :
  n = 4%nat \/ n = 8%nat ->
  endian_fixup (be_encode n v) = host_encode n v.
Proof.
  intros Hn. unfold endian_fixup, host_encode.
  destruct little_endian; [|reflexivity].
  destruct Hn as [-> | ->].
  - apply swapcopy_4, be_encode_length.
  - apply swapcopy_8, be_encode_length.
Qed.

Lemma slice_app (A bs B : list Z) :
  slice (A ++ bs ++ B) (length A) (length bs) = bs.
Proof.
  unfold slice. rewrite skipn_app, skipn_all, Nat.sub_diag. cbn [skipn app].
  rewrite firstn_app, firstn_all, Nat.sub_diag. cbn [firstn]. apply app_nil_r.
Qed.

Lemma store_app (A bs B X : list Z) :
  length X = length bs ->
  store (A ++ bs ++ B) (length A) X = A ++ X ++ B.
Proof.
  intros E. rewrite store_fits by (rewrite !length_app; lia).
  rewrite firstn_app, firstn_all, Nat.sub_diag. cbn [firstn]. rewrite app_nil_r.
  rewrite skipn_app, skipn_all2 by lia.
  replace (length A + length X - length A)%nat with (length bs) by lia.
  rewrite skipn_app, skipn_all, Nat.sub_diag. reflexivity.
Qed.

Lemma endian_fixup_at_app (A bs B : list Z) :
  endian_fixup_at (A ++ bs ++ B) (length A) (length bs)
  = A ++ endian_fixup bs ++ B.
Proof.
  unfold endian_fixup_at. rewrite slice_app.
  apply store_app, endian_fixup_length.
Qed.

Lemma in_bounds_app (A bs B : list Z) :
  in_bounds (A ++ bs ++ B) (length A) (length bs) = true.
Proof. unfold in_bounds. apply Nat.leb_le. rewrite !length_app. lia. Qed.

Lemma wrap64_small (z : Z) : 0 <= z < 2 ^ 64 -> wrap64 z = z.
Proof. intros H. unfold wrap64. now apply Z.mod_small. Qed.

Lemma host_decode_be_fixed (v : Z) :
  0 <= v < 2 ^ 32 -> host_decode (endian_fixup (be_encode 4 v)) = v.
Proof.
  intros H. rewrite endian_fixup_be_encode by now left.
  now apply host_decode_encode_4.
Qed.

Lemma slice_app_n (A bs B : list Z) (n : nat) :
  length bs = n -> slice (A ++ bs ++ B) (length A) n = bs.
Proof. intros <-. apply slice_app. Qed.

Lemma slice_app_off (A H bs B : list Z) (h n : nat) :
  length H = h -> length bs = n ->
  slice (A ++ H ++ bs ++ B) (length A + h) n = bs.
Proof.
  intros <- <-. rewrite (app_assoc A H), <- length_app. apply slice_app.
Qed.

Lemma fixup_word_app (A B : list Z) (n : nat) (v : Z) :
  n = 4%nat \/ n = 8%nat ->
  endian_fixup_at (A ++ be_encode n v ++ B) (length A) n
  = A ++ host_encode n v ++ B.
Proof.
  intros Hn. rewrite <- (be_encode_length n v) at 2.
  rewrite endian_fixup_at_app. now rewrite endian_fixup_be_encode.
Qed.

Lemma fixup_word_app_off (A H B : list Z) (h n : nat) (v : Z) :
  n = 4%nat \/ n = 8%nat -> length H = h ->
  endian_fixup_at (A ++ H ++ be_encode n v ++ B) (length A + h) n
  = A ++ H ++ host_encode n v ++ B.
Proof.
  intros Hn <-. rewrite (app_assoc A H), <- length_app.
  rewrite fixup_word_app by assumption. now rewrite <- app_assoc.
Qed.

(** A block whose header and payload lie within the count of bytes left:
    the header is fixed in place, the node gets the key and the size of
    the header, a super-block is parsed into, a leaf is fixed, and the
    loop goes on behind the payload. *)
Lemma parse_block_step (fuel : nat) (pre rest : list Z) (k sz len : Z) :
  0 <= k < 2 ^ 32 -> 0 <= sz < 2 ^ 32 -> 8 <= len < 2 ^ 64 -> sz <= len - 8 ->
  parse_block (S fuel) (pre ++ wire_header k sz ++ rest) (length pre) len
  = let mem2 := pre ++ (host_encode 4 k ++ host_encode 4 sz) ++ rest in
    let newnode := mknode k sz (BufPtr (length pre + 8)) in
    let next_block (mem3 : list Z) (nodes : list node) (d : list diag) :=
      match parse_block fuel mem3 (length pre + 8 + Z.to_nat sz) (len - 8 - sz) with
      | Parsed mem4 r d3 => Parsed mem4 (nodes ++ r) (d ++ d3)
      | OutOfBounds d3 => OutOfBounds (d ++ d3)
      | OutOfFuel => OutOfFuel
      end in
    if superblock k then
      match parse_block fuel mem2 (length pre + 8) sz with
      | Parsed mem3 sub d2 => next_block mem3 (newnode :: sub) d2
      | OutOfBounds d2 => OutOfBounds d2
      | OutOfFuel => OutOfFuel
      end
    else
      match fixup_block mem2 newnode with
      | Some (_, mem3, d2) => next_block mem3 [newnode] d2
      | None => OutOfBounds []
      end.
Proof.
  intros Hk Hsz Hlen Hfit.
  cbn [parse_block].
  destruct (Z.leb_spec len 0); [lia|].
  unfold wire_header. rewrite <- !app_assoc.
  assert (B : in_bounds (pre ++ be_encode 4 k ++ be_encode 4 sz ++ rest)
                (length pre) 8 = true).
  { unfold in_bounds. apply Nat.leb_le.
    rewrite !length_app, !be_encode_length. lia. }
  rewrite B. cbn [negb].
  rewrite fixup_word_app by now left.
  rewrite slice_app_n by apply host_encode_length.
  rewrite host_decode_encode_4 by assumption.
  rewrite fixup_word_app_off by (try apply host_encode_length; now left).
  rewrite slice_app_off by apply host_encode_length.
  rewrite host_decode_encode_4 by assumption.
  unfold sizeof_block_header.
  rewrite (wrap64_small (len - 8)) by lia.
  destruct (Z.gtb_spec sz (len - 8)); [lia|].
  rewrite (wrap64_small (len - 8 - sz)) by lia.
  reflexivity.
Qed.

(** ** Decoding a run of integer leaves *)

(** The block in memory once the decoder has fixed it. *)
Definition host_leaf (l : ileaf) : list Z :=
  (host_encode 4 (ileaf_key l) ++ host_encode 4 (ileaf_size l))
    ++ flat_map (host_encode 4) (ileaf_words l).

Definition host_leaves (ls : list ileaf) : list Z := flat_map host_leaf ls.

(** The nodes of a run of leaves that starts at offset [off]. *)
Fixpoint leaf_nodes (off : nat) (ls : list ileaf) : list node :=
  match ls with
  | [] => []
  | l :: ls' =>
      mknode (ileaf_key l) (ileaf_size l) (BufPtr (off + 8))
        :: leaf_nodes (off + 8 + Z.to_nat (ileaf_size l)) ls'
  end.

Definition word_fields (from n : nat) : list (nat * nat) :=
  map (fun i => (4 * i, 4)%nat) (seq from n).

Lemma flat_map_length_words (enc : Z -> list Z) (ws : list Z) :
  (forall v, length (enc v) = 4%nat) ->
  length (flat_map enc ws) = (4 * length ws)%nat.
Proof.
  intros H. induction ws as [|w ws IH]; simpl; [reflexivity|].
  rewrite length_app, H, IH. lia.
Qed.

Lemma fixup_fields_words (ws : list Z) :
  forall (done A B : list Z),
    fixup_fields
      (A ++ flat_map (host_encode 4) done ++ flat_map (be_encode 4) ws ++ B)
      (length A) (word_fields (length done) (length ws))
    = Some (A ++ flat_map (host_encode 4) (done ++ ws) ++ B).
Proof.
  induction ws as [|w ws IH]; intros done A B.
  - simpl. now rewrite app_nil_r.
  - unfold word_fields. cbn [length seq map fixup_fields flat_map].
    fold (word_fields (S (length done)) (length ws)).
    pose proof (flat_map_length_words (host_encode 4) done
                  (host_encode_length 4)) as Ld.
    rewrite <- ?app_assoc.
    assert (Bd : in_bounds
                   (A ++ flat_map (host_encode 4) done ++ be_encode 4 w
                      ++ flat_map (be_encode 4) ws ++ B)
                   (length A + 4 * length done) 4 = true).
    { unfold in_bounds. apply Nat.leb_le.
      rewrite !length_app, Ld, be_encode_length. lia. }
    rewrite Bd.
    rewrite fixup_word_app_off by (assumption || now left).
    replace (S (length done)) with (length (done ++ [w]))
      by (rewrite length_app; simpl; lia).
    specialize (IH (done ++ [w]) A B).
    rewrite flat_map_app in IH. cbn [flat_map] in IH.
    rewrite app_nil_r, <- ?app_assoc in IH.
    rewrite IH. reflexivity.
Qed.

Lemma ileaf_key_range (l : ileaf) : 0 <= ileaf_key l < 2 ^ 32.
Proof. destruct l; vm_compute; split; congruence. Qed.

Lemma ileaf_size_range (l : ileaf) : 0 <= ileaf_size l < 2 ^ 32.
Proof. destruct l; vm_compute; split; congruence. Qed.

Lemma ileaf_not_superblock (l : ileaf) : superblock (ileaf_key l) = false.
Proof. now destruct l. Qed.

Lemma fixup_block_ileaf (l : ileaf) (pre rest : list Z) :
  fixup_block
    (pre ++ (host_encode 4 (ileaf_key l) ++ host_encode 4 (ileaf_size l))
       ++ flat_map (be_encode 4) (ileaf_words l) ++ rest)
    (mknode (ileaf_key l) (ileaf_size l) (BufPtr (length pre + 8)))
  = Some (0, pre ++ host_leaf l ++ rest, []).
Proof.
  set (hdr := host_encode 4 (ileaf_key l) ++ host_encode 4 (ileaf_size l)).
  assert (Lh : length (pre ++ hdr) = (length pre + 8)%nat).
  { unfold hdr. rewrite !length_app, !host_encode_length. lia. }
  pose proof (fixup_fields_words (ileaf_words l) [] (pre ++ hdr) rest) as F.
  cbn [flat_map app length] in F. rewrite Lh, <- ?app_assoc in F.
  unfold host_leaf. fold hdr. rewrite <- ?app_assoc.
  unfold fixup_block.
  destruct l; cbn [ileaf_key key find_block_functions];
    match goal with
    | |- context [find_block_functions ?k] =>
        let r := eval vm_compute in (find_block_functions k) in
        change (find_block_functions k) with r
    end;
    cbn [fixup_of];
    unfold fixup_data_cnst, fixup_data_rtag, fixup_data_indx, fixup_data_mcda,
      fixup_data;
    cbn [size data ileaf_size ileaf_words length];
    match goal with
    | |- context [?a <? ?b] =>
        let r := eval vm_compute in (a <? b) in change (a <? b) with r
    end;
    cbv iota;
    cbn [ileaf_words length] in F; unfold word_fields in F;
    cbn [seq map] in F; cbn [Nat.mul Nat.add] in F;
    rewrite F; reflexivity.
Qed.

Lemma wire_size_nonneg (ls : list ileaf) : 0 <= wire_size ls.
Proof.
  induction ls as [|l ls IH]; simpl; [lia|].
  pose proof (ileaf_size_range l). unfold sizeof_block_header. lia.
Qed.

Lemma host_leaf_length (l : ileaf) :
  length (host_leaf l) = (8 + Z.to_nat (ileaf_size l))%nat.
Proof.
  unfold host_leaf, ileaf_size.
  rewrite !length_app, !host_encode_length,
    (flat_map_length_words _ _ (host_encode_length 4)). lia.
Qed.

Lemma parse_block_leaves (ls : list ileaf) :
  forall (fuel : nat) (pre rest : list Z),
    (length ls <= fuel)%nat -> wire_size ls < 2 ^ 64 ->
    parse_block fuel (pre ++ wire_leaves ls ++ rest) (length pre) (wire_size ls)
    = Parsed (pre ++ host_leaves ls ++ rest) (leaf_nodes (length pre) ls) [].
Proof.
  induction ls as [|l ls IH]; intros fuel pre rest Hf Hs.
  - simpl. now destruct fuel.
  - destruct fuel as [|fuel]; [simpl in Hf; lia|].
    pose proof (ileaf_key_range l) as Hk.
    pose proof (ileaf_size_range l) as Hz.
    pose proof (wire_size_nonneg ls) as Hn.
    cbn [wire_leaves flat_map wire_size fold_right] in *.
    fold (wire_leaves ls). fold (wire_size ls) in *.
    unfold sizeof_block_header in *.
    unfold wire_leaf at 1. fold (wire_header (ileaf_key l) (ileaf_size l)).
    rewrite <- ?app_assoc.
    rewrite (app_assoc (be_encode 4 (ileaf_key l))).
    fold (wire_header (ileaf_key l) (ileaf_size l)).
    rewrite parse_block_step by lia.
    cbv zeta. rewrite ileaf_not_superblock.
    rewrite fixup_block_ileaf.
    replace (ileaf_size l + 8 + wire_size ls - 8 - ileaf_size l)
      with (wire_size ls) by lia.
    replace (length pre + 8 + Z.to_nat (ileaf_size l))%nat
      with (length (pre ++ host_leaf l))
      by (rewrite length_app, host_leaf_length; lia).
    rewrite (app_assoc pre (host_leaf l)).
    rewrite IH by (simpl in Hf; lia).
    cbn [leaf_nodes host_leaves flat_map app].
    rewrite length_app, host_leaf_length.
    rewrite <- ?app_assoc.
    replace (length pre + (8 + Z.to_nat (ileaf_size l)))%nat
      with (length pre + 8 + Z.to_nat (ileaf_size l))%nat by lia.
    reflexivity.
Qed.

(** ** Decoding a file of integer leaves *)

Definition host_header (k : fourcc) (sz : Z) : list Z :=
  host_encode 4 k ++ host_encode 4 sz.

(** The buffer after the decoder has gone through [wire_file hl bl]. *)
Definition host_file (hl bl : list ileaf) : list Z :=
  host_header KEY_AQFT
      (wire_size hl + sizeof_block_header + wire_size bl + sizeof_block_header)
    ++ host_header KEY_HEAD (wire_size hl) ++ host_leaves hl
    ++ host_header KEY_BODY (wire_size bl) ++ host_leaves bl
    ++ host_header KEY_END 0.

(** The list of nodes of [wire_file hl bl] whose AQFT node has the size
    [root]. *)
Definition file_nodes (root : Z) (hl bl : list ileaf) : list node :=
  let hs := Z.to_nat (wire_size hl) in
  let bs := Z.to_nat (wire_size bl) in
  mknode KEY_AQFT root (BufPtr 8)
    :: mknode KEY_HEAD (wire_size hl) (BufPtr 16)
    :: leaf_nodes 16 hl
    ++ mknode KEY_BODY (wire_size bl) (BufPtr (16 + hs + 8))
    :: leaf_nodes (16 + hs + 8) bl
    ++ [mknode KEY_END 0 (BufPtr (16 + hs + 8 + bs + 8))].

Lemma parse_block_done (fuel : nat) (mem : list Z) (off : nat) (len : Z) :
  len <= 0 -> parse_block fuel mem off len = Parsed mem [] [].
Proof.
  intros H. destruct fuel; simpl;
    destruct (Z.leb_spec len 0); reflexivity || lia.
Qed.

Lemma parse_block_step_at (fuel : nat) (mem pre rest : list Z) (off : nat)
  (k sz len : Z) :
  mem = pre ++ wire_header k sz ++ rest -> off = length pre ->
  0 <= k < 2 ^ 32 -> 0 <= sz < 2 ^ 32 -> 8 <= len < 2 ^ 64 -> sz <= len - 8 ->
  superblock k = true ->
  forall mem3 sub mem4 r,
    parse_block fuel (pre ++ host_header k sz ++ rest) (off + 8) sz
    = Parsed mem3 sub [] ->
    parse_block fuel mem3 (off + 8 + Z.to_nat sz) (len - 8 - sz)
    = Parsed mem4 r [] ->
    parse_block (S fuel) mem off len
    = Parsed mem4 (mknode k sz (BufPtr (off + 8)) :: sub ++ r) [].
Proof.
  intros -> -> Hk Hsz Hlen Hfit Hs mem3 sub mem4 r P1 P2.
  rewrite parse_block_step by assumption.
  cbv zeta. rewrite Hs. unfold host_header in P1.
  rewrite P1, P2. reflexivity.
Qed.

Lemma parse_block_leaves_at (ls : list ileaf) (fuel : nat) (mem pre rest : list Z)
  (off : nat) (len : Z) :
  mem = pre ++ wire_leaves ls ++ rest -> off = length pre -> len = wire_size ls ->
  (length ls <= fuel)%nat -> wire_size ls < 2 ^ 64 ->
  parse_block fuel mem off len
  = Parsed (pre ++ host_leaves ls ++ rest) (leaf_nodes off ls) [].
Proof. intros -> -> ->. apply parse_block_leaves. Qed.

Lemma host_leaves_length (ls : list ileaf) :
  length (host_leaves ls) = Z.to_nat (wire_size ls).
Proof.
  induction ls as [|l ls IH]; [reflexivity|].
  pose proof (ileaf_size_range l). pose proof (wire_size_nonneg ls).
  unfold host_leaves in *. cbn [flat_map wire_size fold_right].
  fold (wire_size ls).
  rewrite length_app, host_leaf_length, IH.
  unfold sizeof_block_header. lia.
Qed.

Lemma host_header_length (k sz : Z) : length (host_header k sz) = 8%nat.
Proof. unfold host_header. now rewrite length_app, !host_encode_length. Qed.

Lemma wire_header_length (k sz : Z) : length (wire_header k sz) = 8%nat.
Proof. unfold wire_header. now rewrite length_app, !be_encode_length. Qed.

Lemma wire_leaves_length (ls : list ileaf) :
  length (wire_leaves ls) = Z.to_nat (wire_size ls).
Proof.
  induction ls as [|l ls IH]; [reflexivity|].
  pose proof (ileaf_size_range l). pose proof (wire_size_nonneg ls).
  unfold wire_leaves in *. cbn [flat_map wire_size fold_right].
  fold (wire_size ls).
  rewrite length_app, IH. unfold wire_leaf, ileaf_size.
  rewrite !length_app, !be_encode_length,
    (flat_map_length_words _ _ (be_encode_length 4)).
  unfold sizeof_block_header. lia.
Qed.

Lemma wire_size_length (ls : list ileaf) : Z.of_nat (length ls) <= wire_size ls.
Proof.
  induction ls as [|l ls IH]; [simpl; lia|].
  pose proof (ileaf_size_range l).
  cbn [wire_size fold_right length]. fold (wire_size ls).
  unfold sizeof_block_header. lia.
Qed.

Lemma parse_block_wire_file (hl bl : list ileaf) (fuel : nat) :
  let root := wire_size hl + sizeof_block_header + wire_size bl
              + sizeof_block_header in
  root + 16 < 2 ^ 32 ->
  (length hl + length bl + 3 <= fuel)%nat ->
  parse_block fuel (wire_file hl bl) 0 (root + 16)
  = Parsed (host_file hl bl) (file_nodes root hl bl) [].
Proof.
  intros root Hr Hf.
  pose proof (wire_size_nonneg hl) as Hh.
  pose proof (wire_size_nonneg bl) as Hb.
  destruct fuel as [|[|[|fuel]]]; try lia.
  unfold wire_file, host_file, file_nodes. fold root.
  unfold sizeof_block_header in *.
  set (hs := wire_size hl) in *. set (bs := wire_size bl) in *.
  assert (KR : forall k, In k [KEY_AQFT; KEY_HEAD; KEY_BODY; KEY_END] ->
               0 <= k < 2 ^ 32 /\ superblock k = true).
  { intros k [<-|[<-|[<-|[<-|[]]]]]; vm_compute; repeat split; congruence. }
  (* the BODY block, inside the AQFT block *)
  assert (PB : forall pre rest off,
             off = length pre ->
             parse_block (S fuel)
               (pre ++ wire_header KEY_BODY bs ++ wire_leaves bl ++ rest)
               off (bs + 8)
             = Parsed (pre ++ host_header KEY_BODY bs ++ host_leaves bl ++ rest)
                 (mknode KEY_BODY bs (BufPtr (off + 8)) :: leaf_nodes (off + 8) bl)
                 []).
  { intros pre rest off Ho.
    rewrite <- (app_nil_r (leaf_nodes (off + 8) bl)).
    eapply parse_block_step_at.
    - reflexivity.
    - exact Ho.
    - apply KR. simpl. auto 8.
    - lia.
    - lia.
    - lia.
    - apply KR. simpl. auto 8.
    - apply parse_block_leaves_at with (pre := pre ++ host_header KEY_BODY bs).
      + now rewrite <- app_assoc.
      + rewrite length_app, host_header_length. lia.
      + reflexivity.
      + lia.
      + fold bs. lia.
    - rewrite <- app_assoc. apply parse_block_done. lia. }
  (* the HEAD block and what follows it in the AQFT block *)
  assert (PH : forall pre rest off,
             off = length pre ->
             parse_block (S (S fuel))
               (pre ++ wire_header KEY_HEAD hs ++ wire_leaves hl
                  ++ wire_header KEY_BODY bs ++ wire_leaves bl ++ rest)
               off root
             = Parsed
                 (pre ++ host_header KEY_HEAD hs ++ host_leaves hl
                    ++ host_header KEY_BODY bs ++ host_leaves bl ++ rest)
                 (mknode KEY_HEAD hs (BufPtr (off + 8)) :: leaf_nodes (off + 8) hl
                    ++ mknode KEY_BODY bs (BufPtr (off + 8 + Z.to_nat hs + 8))
                    :: leaf_nodes (off + 8 + Z.to_nat hs + 8) bl)
                 []).
  { intros pre rest off Ho.
    eapply parse_block_step_at.
    - reflexivity.
    - exact Ho.
    - apply KR. simpl. auto 8.
    - lia.
    - unfold root. lia.
    - unfold root. lia.
    - apply KR. simpl. auto 8.
    - apply parse_block_leaves_at with (pre := pre ++ host_header KEY_HEAD hs).
      + now rewrite <- app_assoc.
      + rewrite length_app, host_header_length. lia.
      + reflexivity.
      + lia.
      + fold hs. lia.
    - replace (root - 8 - hs) with (bs + 8) by (unfold root; lia).
      rewrite <- app_assoc.
      rewrite (app_assoc pre), (app_assoc (pre ++ _)).
      rewrite PB.
      + rewrite <- !app_assoc. reflexivity.
      + rewrite !length_app, host_header_length, host_leaves_length.
        fold hs. lia. }
  change (wire_header KEY_AQFT root ++ wire_header KEY_HEAD hs ++ wire_leaves hl
            ++ wire_header KEY_BODY bs ++ wire_leaves bl ++ wire_header KEY_END 0)
    with ([] ++ wire_header KEY_AQFT root ++ wire_header KEY_HEAD hs
            ++ wire_leaves hl ++ wire_header KEY_BODY bs ++ wire_leaves bl
            ++ wire_header KEY_END 0).
  assert (E : mknode KEY_AQFT root (BufPtr 8)
       :: mknode KEY_HEAD hs (BufPtr 16)
          :: leaf_nodes 16 hl ++
             mknode KEY_BODY bs (BufPtr (16 + Z.to_nat hs + 8))
             :: leaf_nodes (16 + Z.to_nat hs + 8) bl ++
                [mknode KEY_END 0 (BufPtr (16 + Z.to_nat hs + 8 + Z.to_nat bs + 8))]
       = mknode KEY_AQFT root (BufPtr (0 + 8))
       :: (mknode KEY_HEAD hs (BufPtr (0 + 8 + 8))
          :: leaf_nodes (0 + 8 + 8) hl ++
             mknode KEY_BODY bs (BufPtr (0 + 8 + 8 + Z.to_nat hs + 8))
             :: leaf_nodes (0 + 8 + 8 + Z.to_nat hs + 8) bl) ++
                [mknode KEY_END 0 (BufPtr (0 + 8 + Z.to_nat root + 8))]).
  { assert (N : (0 + 8 + Z.to_nat root + 8
                  = 16 + Z.to_nat hs + 8 + Z.to_nat bs + 8)%nat)
      by (unfold root; lia).
    rewrite N. cbn [Nat.add app]. now rewrite <- app_assoc. }
  rewrite E. clear E.
  eapply parse_block_step_at with (pre := []).
  - reflexivity.
  - reflexivity.
  - apply KR. simpl. auto 8.
  - lia.
  - lia.
  - lia.
  - apply KR. simpl. auto 8.
  - cbn [app]. apply PH. now rewrite host_header_length.
  - cbn [app].
    replace (root + 16 - 8 - root) with 8 by lia.
    rewrite <- (app_nil_r [mknode KEY_END 0 _]).
    change ([mknode KEY_END 0 (BufPtr (0 + 8 + Z.to_nat root + 8))] ++ [])
      with (mknode KEY_END 0 (BufPtr (0 + 8 + Z.to_nat root + 8)) :: [] ++ []).
    eapply parse_block_step_at
      with (pre := host_header KEY_AQFT root ++ host_header KEY_HEAD hs
                     ++ host_leaves hl ++ host_header KEY_BODY bs ++ host_leaves bl)
           (rest := []).
    + now rewrite <- !app_assoc, app_nil_r.
    + rewrite !length_app, !host_header_length, !host_leaves_length.
      fold hs bs. unfold root. lia.
    + apply KR. simpl. auto 8.
    + lia.
    + lia.
    + lia.
    + apply KR. simpl. auto 8.
    + apply parse_block_done. lia.
    + rewrite <- !app_assoc, app_nil_r. apply parse_block_done. lia.
Qed.

(** ** Signed decimal numbers *)

Lemma skip_0x_10 (s : list Z) : skip_0x 10 s = s.
Proof.
  unfold skip_0x. destruct s as [|c s]; [reflexivity|].
  destruct c as [|p|p]; try reflexivity.
  destruct s as [|x [|d r]]; try reflexivity;
    repeat (destruct p as [p|p|]; try reflexivity).
Qed.

(** What [%d] wrote, as scanf reads it: the sign and the magnitude. *)
Lemma scan_int_printf_d (v : Z) :
  - 2 ^ 63 <= v < 2 ^ 63 ->
  scan_int 10 (printf_d v) = ScanOK (v <? 0, Z.abs v, []).
Proof.
  intros Hv. unfold printf_d.
  destruct (Z.ltb_spec v 0) as [N|N].
  - unfold scan_int. cbn [skip_space].
    change (isspace 45) with false. cbv iota.
    change (45 =? 45) with true. cbv iota beta zeta.
    rewrite skip_0x_10.
    pose proof (scan_digits_print_base 10 64 ltac:(lia) (- v) [] 0 0) as Hs.
    rewrite app_nil_r in Hs. rewrite Hs.
    + pose proof (print_base_nonempty 10 63 (- v)) as Hne.
      destruct (print_base 10 64 (- v)) as [|c s]; [congruence|].
      cbn [scan_digits length Nat.add]. rewrite Z.mul_0_l.
      repeat f_equal. lia.
    + split; [lia|].
      apply Z.le_lt_trans with (2 ^ 63); [lia|reflexivity].
  - rewrite <- (app_nil_r (print_base 10 64 v)).
    change (print_base 10 64 v) with (printf_u v).
    rewrite scan_int_printf_u.
    + repeat f_equal. lia.
    + split; [lia|]. apply Z.lt_trans with (2 ^ 63); [lia|reflexivity].
    + exact I.
Qed.

(** [name:%d] on the line that [name:%d] wrote. *)
Lemma sscanf1_printf_d (name : list Z) (v : Z) :
  - 2 ^ 31 <= v < 2 ^ 31 ->
  sscanf1 (name ++ printf_d v) (mkformat name Conv_d)
  = ScanOK (host_encode 4 (wrap32 v)).
Proof.
  intros Hv. unfold sscanf1. cbn [label conversion].
  rewrite match_literal_prefix. cbn [convert].
  rewrite scan_int_printf_d by lia.
  unfold strtol_value.
  replace (Z.max (- 2 ^ 63)
             (Z.min (2 ^ 63 - 1) (if v <? 0 then - Z.abs v else Z.abs v)))
    with v; [reflexivity|].
  destruct (Z.ltb_spec v 0); lia.
Qed.

Lemma signed32_wrap32 (v : Z) :
  - 2 ^ 31 <= v < 2 ^ 31 -> signed32 (wrap32 v) = v.
Proof.
  intros Hv. unfold signed32, wrap32.
  destruct (Z.ltb_spec v 0) as [N|N].
  - replace (v mod 2 ^ 32) with (v + 2 ^ 32).
    + destruct (Z.ltb_spec (v + 2 ^ 32) (2 ^ 31)); lia.
    + apply Z.mod_unique with (-1); [left|]; lia.
  - rewrite Z.mod_small by lia.
    destruct (Z.ltb_spec v (2 ^ 31)); lia.
Qed.

Lemma printf_d_plain (v : Z) : forallb plain_char (printf_d v) = true.
Proof.
  unfold printf_d. destruct (Z.ltb_spec v 0).
  - cbn [forallb]. change (plain_char 45) with true.
    apply (printf_u_plain (- v)). lia.
  - now apply (printf_u_plain v).
Qed.

Lemma printf_u_length (v : Z) : (length (printf_u v) <= 64)%nat.
Proof. apply print_base_length. Qed.

Lemma printf_d_length (v : Z) : (length (printf_d v) <= 65)%nat.
Proof.
  unfold printf_d. destruct (v <? 0); cbn [length].
  - pose proof (print_base_length 10 64 (- v)). lia.
  - pose proof (print_base_length 10 64 v). lia.
Qed.

(** A name with a colon and a value of plain characters make a field
    line. *)
Lemma field_line_name (name val : list Z) :
  forallb plain_char name = true -> forallb plain_char val = true ->
  existsb (fun c => c =? 58) name = true ->
  (length name + length val < 255)%nat ->
  field_line (name ++ val) = true.
Proof.
  intros Hn Hv Hc Hl. unfold field_line, text_line, fits_line.
  rewrite existsb_app, Hc, length_app.
  assert (P : forallb plain_char (name ++ val) = true)
    by now rewrite forallb_app, Hn, Hv.
  assert (P1 : forallb (fun c => negb (c =? LF)) (name ++ val) = true).
  { rewrite forallb_forall in *. intros x Hx. specialize (P x Hx).
    unfold plain_char in P. now apply andb_true_iff in P. }
  assert (P2 : forallb (fun c => negb (c =? NUL)) (name ++ val) = true).
  { rewrite forallb_forall in *. intros x Hx. specialize (P x Hx).
    unfold plain_char in P. now apply andb_true_iff in P. }
  rewrite P1, P2.
  destruct (Nat.ltb_spec (length name + length val) 255); [reflexivity|lia].
Qed.

(** ** The text of a file of integer leaves *)

(** The line of a time stamp, without its newline. *)
Definition timestamp_text (name : list Z) (t : Z) : list Z :=
  name ++ printf_u (wrap64 (t - epoch_offset))
    ++ str " (NB: seconds since 1970) ("
    ++ printf_s (firstn 24 (ctime (t - epoch_offset))) ++ str ")".

Lemma timestamp_line_text (name : list Z) (t : Z) :
  timestamp_line name t = timestamp_text name t ++ [LF].
Proof.
  unfold timestamp_line, timestamp_text. cbv zeta.
  now rewrite <- !app_assoc.
Qed.

(** The field lines of a leaf. *)
Definition leaf_lines (l : ileaf) : list (list Z) :=
  match l with
  | L_cnst a b c d =>
      [str "nchannels:" ++ printf_d a; str "nranges:" ++ printf_d b;
       str "nsweeps:" ++ printf_d c; str "iqindicator:" ++ printf_d d]
  | L_rtag v => [str "rtag:" ++ printf_u v]
  | L_indx v => [str "index:" ++ printf_u v]
  | L_mcda t => [timestamp_text (str "filetimestamp:") t]
  end.

(** A record: the key on a line, the field lines, a blank line. *)
Definition record_text (k : fourcc) (lines : list (list Z)) : list Z :=
  be_encode 4 k ++ LF :: text_of_lines lines ++ [LF].

Definition leaf_text (l : ileaf) : list Z :=
  record_text (ileaf_key l) (leaf_lines l).

Definition leaves_text (ls : list ileaf) : list Z := flat_map leaf_text ls.

(** The text of [wire_file hl bl]. *)
Definition file_text (hl bl : list ileaf) : list Z :=
  record_text KEY_AQFT [] ++ record_text KEY_HEAD [] ++ leaves_text hl
    ++ record_text KEY_BODY [] ++ leaves_text bl
    ++ be_encode 4 KEY_END ++ [LF].

(** ** Rendering the leaves *)

Lemma field_u32_words (ws1 : list Z) (v : Z) (ws2 rest : list Z) :
  0 <= v < 2 ^ 32 ->
  field_u32 (flat_map (host_encode 4) (ws1 ++ v :: ws2) ++ rest)
    (4 * length ws1) = v.
Proof.
  intros Hv. unfold field_u32.
  rewrite flat_map_app. cbn [flat_map]. rewrite <- !app_assoc.
  rewrite <- (flat_map_length_words (host_encode 4) ws1)
    by (intros; apply host_encode_length).
  rewrite slice_app_n by apply host_encode_length.
  now apply host_decode_encode_4.
Qed.

Lemma node_bytes_at (pre X : list Z) (k sz : Z) :
  node_bytes (pre ++ X) (mknode k sz (BufPtr (length pre))) = X.
Proof.
  unfold node_bytes. cbn [data].
  rewrite skipn_app, skipn_all, Nat.sub_diag. reflexivity.
Qed.

(** The record a leaf is rendered as. *)
Lemma dump_leaf (l : ileaf) (pre rest : list Z) (cfg : config) :
  ileaf_ok l ->
  exists f cfg',
    find_block_functions (ileaf_key l) = (Some f, [])
    /\ is_dump_block_body f = false
    /\ dump_of f (pre ++ flat_map (host_encode 4) (ileaf_words l) ++ rest)
         (mknode (ileaf_key l) (ileaf_size l) (BufPtr (length pre))) cfg
       = Ok (leaf_text l, cfg').
Proof.
  intros Hok.
  set (X := flat_map (host_encode 4) (ileaf_words l) ++ rest).
  destruct l as [a b c d|v|v|t]; cbn [ileaf_ok] in Hok.
  - exists F_cnst, cfg. split; [reflexivity|]. split; [reflexivity|].
    destruct Hok as (Ha & Hb & Hc & Hd).
    cbn [dump_of]. unfold dump_block_cnst.
    change (size _ <? sizeof_block_cnst) with false. cbv iota zeta.
    rewrite node_bytes_at.
    assert (F0 : field_u32 X 0 = wrap32 a)
      by (apply (field_u32_words [] _ [wrap32 b; wrap32 c; wrap32 d]);
          apply wrap32_range).
    assert (F1 : field_u32 X 4 = wrap32 b)
      by (apply (field_u32_words [wrap32 a] _ [wrap32 c; wrap32 d]);
          apply wrap32_range).
    assert (F2 : field_u32 X 8 = wrap32 c)
      by (apply (field_u32_words [wrap32 a; wrap32 b] _ [wrap32 d]);
          apply wrap32_range).
    assert (F3 : field_u32 X 12 = wrap32 d)
      by (apply (field_u32_words [wrap32 a; wrap32 b; wrap32 c] _ []);
          apply wrap32_range).
    change (field_i32 X 0) with (signed32 (field_u32 X 0)).
    change (field_i32 X 4) with (signed32 (field_u32 X 4)).
    change (field_i32 X 8) with (signed32 (field_u32 X 8)).
    change (field_i32 X 12) with (signed32 (field_u32 X 12)).
    rewrite F0, F1, F2, F3, !signed32_wrap32 by assumption.
    rewrite strkey_be.
    change (printf_s (be_encode 4 KEY_cnst)) with (be_encode 4 KEY_cnst).
    unfold leaf_text, record_text, leaf_lines, text_of_lines.
    cbn [flat_map ileaf_key]. rewrite <- !app_assoc. reflexivity.
  - exists F_rtag, cfg. split; [reflexivity|]. split; [reflexivity|].
    cbn [dump_of]. unfold dump_block_rtag.
    change (size _ <? sizeof_block_rtag) with false. cbv iota zeta.
    rewrite node_bytes_at.
    assert (F0 : field_u32 X 0 = v) by (now apply (field_u32_words [] _ [])).
    rewrite F0, strkey_be.
    change (printf_s (be_encode 4 KEY_rtag)) with (be_encode 4 KEY_rtag).
    unfold leaf_text, record_text, leaf_lines, text_of_lines.
    cbn [flat_map ileaf_key]. rewrite <- !app_assoc. reflexivity.
  - eexists F_indx, _. split; [reflexivity|]. split; [reflexivity|].
    cbn [dump_of]. unfold dump_block_indx.
    change (size _ <? sizeof_block_indx) with false. cbv iota zeta.
    rewrite node_bytes_at.
    assert (F0 : field_u32 X 0 = v) by (now apply (field_u32_words [] _ [])).
    rewrite F0, strkey_be.
    change (printf_s (be_encode 4 KEY_indx)) with (be_encode 4 KEY_indx).
    unfold leaf_text, record_text, leaf_lines, text_of_lines.
    cbn [flat_map ileaf_key]. rewrite <- !app_assoc. reflexivity.
  - exists F_mcda, cfg. split; [reflexivity|]. split; [reflexivity|].
    cbn [dump_of]. unfold dump_block_mcda.
    change (size _ <? sizeof_block_mcda) with false. cbv iota zeta.
    rewrite node_bytes_at.
    assert (F0 : field_u32 X 0 = t)
      by (apply (field_u32_words [] _ []); lia).
    rewrite F0, strkey_be.
    destruct (Z.eqb_spec t 0) as [E|E]; [lia|]. cbn [negb].
    change (printf_s (be_encode 4 KEY_mcda)) with (be_encode 4 KEY_mcda).
    rewrite timestamp_line_text.
    unfold leaf_text, record_text, leaf_lines, text_of_lines.
    cbn [flat_map ileaf_key]. rewrite <- !app_assoc. reflexivity.
Qed.

(** The records a run of leaves is rendered as. *)
Lemma dump_list_leaves (ls : list ileaf) :
  Forall ileaf_ok ls ->
  forall (pre rest mem : list Z) (cfg : config) (out : list Z)
         (after : list node),
    mem = pre ++ host_leaves ls ++ rest ->
    exists cfg',
      dump_list mem (leaf_nodes (length pre) ls ++ after) cfg false out
      = dump_list mem after cfg' false (out ++ leaves_text ls).
Proof.
  induction 1 as [|l ls Hl Hls IH]; intros pre rest mem cfg out after Hm.
  - exists cfg. cbn [leaf_nodes leaves_text flat_map app].
    now rewrite app_nil_r.
  - cbn [leaf_nodes app dump_list key].
    destruct (dump_leaf l (pre ++ host_encode 4 (ileaf_key l)
                             ++ host_encode 4 (ileaf_size l))
                (host_leaves ls ++ rest) cfg Hl)
      as (f & cfg1 & Hf & Hb & Hd).
    rewrite Hf, Hb. cbn [andb].
    assert (M : mem
                = (pre ++ host_encode 4 (ileaf_key l)
                     ++ host_encode 4 (ileaf_size l))
                  ++ flat_map (host_encode 4) (ileaf_words l)
                  ++ host_leaves ls ++ rest).
    { rewrite Hm. unfold host_leaves. cbn [flat_map]. unfold host_leaf.
      now rewrite <- !app_assoc. }
    assert (L : (length pre + 8)%nat
                = length (pre ++ host_encode 4 (ileaf_key l)
                            ++ host_encode 4 (ileaf_size l))).
    { rewrite !length_app, !host_encode_length. lia. }
    rewrite L. rewrite <- M in Hd. rewrite Hd.
    assert (M2 : mem = (pre ++ host_leaf l) ++ host_leaves ls ++ rest).
    { rewrite Hm. unfold host_leaves. cbn [flat_map].
      now rewrite <- !app_assoc. }
    assert (L2 : (length (pre ++ host_encode 4 (ileaf_key l)
                            ++ host_encode 4 (ileaf_size l))
                  + Z.to_nat (ileaf_size l))%nat
                 = length (pre ++ host_leaf l)).
    { rewrite !length_app, !host_encode_length, host_leaf_length. lia. }
    rewrite L2.
    destruct (IH (pre ++ host_leaf l) rest mem cfg1 (out ++ leaf_text l)
                after M2) as (cfg2 & E).
    exists cfg2. rewrite E.
    cbn [leaves_text flat_map]. now rewrite <- app_assoc.
Qed.

(** ** Rendering a whole file *)

(** A node whose record is rendered without an error. *)
Lemma dump_list_step (mem : list Z) (n : node) (rest : list node)
  (cfg cfg' : config) (out text : list Z) (f : block_functions) :
  find_block_functions (key n) = (Some f, []) ->
  dump_of f mem n cfg = Ok (text, cfg') ->
  dump_list mem (n :: rest) cfg false out
  = dump_list mem rest cfg' false (out ++ text).
Proof. intros Hf Hd. cbn [dump_list]. now rewrite Hf, Hd. Qed.

Lemma wire_file_length (hl bl : list ileaf) :
  Z.of_nat (length (wire_file hl bl))
  = wire_size hl + sizeof_block_header + wire_size bl + sizeof_block_header + 16.
Proof.
  unfold wire_file. rewrite !length_app, !wire_header_length, !wire_leaves_length.
  pose proof (wire_size_nonneg hl). pose proof (wire_size_nonneg bl).
  unfold sizeof_block_header. lia.
Qed.

Lemma dump_list_wire_file (root : Z) (hl bl : list ileaf) :
  Forall ileaf_ok hl -> Forall ileaf_ok bl ->
  dump_list (host_file hl bl) (file_nodes root hl bl) config0 false []
  = (0, file_text hl bl, []).
Proof.
  intros Hh Hb. unfold file_nodes.
  set (mem := host_file hl bl).
  set (R := wire_size hl + sizeof_block_header + wire_size bl
            + sizeof_block_header).
  rewrite dump_list_step with (f := F_aqft) (cfg' := config0)
    (text := record_text KEY_AQFT []);
    [|reflexivity
     |cbn [dump_of]; unfold dump_block_aqft; now rewrite strkey_be].
  rewrite dump_list_step with (f := F_head) (cfg' := config0)
    (text := record_text KEY_HEAD []);
    [|reflexivity
     |cbn [dump_of]; unfold dump_block_head; now rewrite strkey_be].
  destruct (dump_list_leaves hl Hh
              (host_header KEY_AQFT R ++ host_header KEY_HEAD (wire_size hl))
              (host_header KEY_BODY (wire_size bl) ++ host_leaves bl
                 ++ host_header KEY_END 0)
              mem config0 (([] ++ record_text KEY_AQFT []) ++ record_text KEY_HEAD [])
              (mknode KEY_BODY (wire_size bl)
                 (BufPtr (16 + Z.to_nat (wire_size hl) + 8))
               :: leaf_nodes (16 + Z.to_nat (wire_size hl) + 8) bl
                    ++ [mknode KEY_END 0
                          (BufPtr (16 + Z.to_nat (wire_size hl) + 8
                                   + Z.to_nat (wire_size bl) + 8))]))
    as (cfg1 & E1).
  { unfold mem, host_file. fold R. now rewrite <- !app_assoc. }
  rewrite length_app, !host_header_length in E1.
  change (8 + 8)%nat with 16%nat in E1.
  rewrite E1. clear E1.
  rewrite dump_list_step with (f := F_body) (cfg' := cfg1)
    (text := record_text KEY_BODY []);
    [|reflexivity
     |cbn [dump_of]; unfold dump_block_body; now rewrite strkey_be].
  destruct (dump_list_leaves bl Hb
              (host_header KEY_AQFT R ++ host_header KEY_HEAD (wire_size hl)
                 ++ host_leaves hl ++ host_header KEY_BODY (wire_size bl))
              (host_header KEY_END 0)
              mem cfg1
              (((([] ++ record_text KEY_AQFT []) ++ record_text KEY_HEAD [])
                  ++ leaves_text hl) ++ record_text KEY_BODY [])
              [mknode KEY_END 0
                 (BufPtr (16 + Z.to_nat (wire_size hl) + 8
                          + Z.to_nat (wire_size bl) + 8))])
    as (cfg2 & E2).
  { unfold mem, host_file. fold R. now rewrite <- !app_assoc. }
  rewrite !length_app, !host_header_length, host_leaves_length in E2.
  replace (8 + (8 + (Z.to_nat (wire_size hl) + 8)))%nat
    with (16 + Z.to_nat (wire_size hl) + 8)%nat in E2 by lia.
  rewrite E2. clear E2.
  rewrite dump_list_step with (f := F_end) (cfg' := cfg2)
    (text := be_encode 4 KEY_END ++ [LF]);
    [|reflexivity
     |cbn [dump_of]; unfold dump_block_end; now rewrite strkey_be].
  cbn [dump_list]. unfold file_text.
  rewrite <- !app_assoc. reflexivity.
Qed.

(** [rsdump] on a file of integer leaves writes its text and exits
    with 0. *)
Lemma rsdump_wire_file (hl bl : list ileaf) :
  Forall ileaf_ok hl -> Forall ileaf_ok bl ->
  wire_size hl + wire_size bl + 32 < 2 ^ 32 ->
  rsdump (wire_file hl bl) false = Exit 0 (file_text hl bl) [].
Proof.
  intros Hh Hb Hs.
  pose proof (wire_size_nonneg hl) as Nh.
  pose proof (wire_size_nonneg bl) as Nb.
  pose proof (wire_size_length hl) as Lh.
  pose proof (wire_size_length bl) as Lb.
  pose proof (wire_file_length hl bl) as Lf.
  unfold sizeof_block_header in Lf.
  unfold rsdump.
  assert (RB : read_binary_file (wire_file hl bl) = (0, [])).
  { unfold read_binary_file. rewrite Lf. unfold sizeof_block_header.
    destruct (Z.gtb_spec (wire_size hl + 8 + wire_size bl + 8 + 16) 8); [|lia].
    unfold check_header, wire_file, wire_header.
    rewrite <- !app_assoc.
    match goal with
    | |- context [slice (be_encode 4 KEY_AQFT ++ ?B) 0 4] =>
        replace (slice (be_encode 4 KEY_AQFT ++ B) 0 4)
          with (be_encode 4 KEY_AQFT)
          by (symmetry; apply (slice_app_n [] (be_encode 4 KEY_AQFT) B 4);
              apply be_encode_length)
    end.
    rewrite host_decode_be_fixed by (vm_compute; split; congruence).
    now rewrite Z.eqb_refl. }
  rewrite RB.
  unfold parse_file. rewrite Lf.
  rewrite (parse_block_wire_file hl bl);
    [|unfold sizeof_block_header; lia|lia].
  unfold sizeof_block_header.
  pose proof (dump_list_wire_file (wire_size hl + 8 + wire_size bl + 8) hl bl
                Hh Hb) as D.
  unfold file_nodes in D |- *.
  rewrite D. reflexivity.
Qed.

(** ** Reading the records of a text *)

Lemma rsgen_loop_eof (fuel : nat) (line : list Z) (cfg : config)
  (line_count : Z) (nodes : list node) :
  rsgen_loop fuel line cfg [] line_count nodes = Ok (nodes, line_count).
Proof. now destruct fuel. Qed.

(** A line with a colon is passed over. *)
Lemma rsgen_loop_field_line (fuel : nat) (line : list Z) (cfg : config)
  (l fd : list Z) (line_count : Z) (nodes : list node) :
  length line = SIZE_LINE -> field_line l = true ->
  exists line1,
    length line1 = SIZE_LINE
    /\ rsgen_loop (S fuel) line cfg (l ++ LF :: fd) line_count nodes
       = rsgen_loop fuel line1 cfg fd (line_count + 1) nodes.
Proof.
  intros Hlen Hf.
  pose proof (field_line_text l Hf) as Ht.
  unfold field_line in Hf. apply andb_true_iff in Hf. destruct Hf as [_ Hc].
  destruct (line_array line l Hlen Ht) as [tail E].
  pose proof (plain_text_line l Ht) as Hp.
  exists (l ++ NUL :: tail). split.
  - rewrite <- E, chomp_length, store_line_length. exact Hlen.
  - cbn [rsgen_loop].
    rewrite fgets_line
      by (unfold text_line in Ht; now apply andb_true_iff in Ht).
    rewrite E, has_char_plain, Hc by assumption.
    now destruct (strlen (l ++ NUL :: tail) <=? 1).
Qed.

(** A blank line is passed over. *)
Lemma rsgen_loop_blank_line (fuel : nat) (line : list Z) (cfg : config)
  (fd : list Z) (line_count : Z) (nodes : list node) :
  length line = SIZE_LINE ->
  exists line1,
    length line1 = SIZE_LINE
    /\ rsgen_loop (S fuel) line cfg (LF :: fd) line_count nodes
       = rsgen_loop fuel line1 cfg fd (line_count + 1) nodes.
Proof.
  intros Hlen.
  destruct (line_array line [] Hlen eq_refl) as [tail E].
  exists (NUL :: tail). split.
  - change (NUL :: tail) with ([] ++ NUL :: tail).
    rewrite <- E, chomp_length, store_line_length. exact Hlen.
  - cbn [rsgen_loop]. rewrite fgets_blank.
    change [LF] with ([] ++ [LF]). rewrite E.
    reflexivity.
Qed.

(** The field lines of a record are passed over. *)
Lemma rsgen_loop_field_lines (lines : list (list Z)) :
  forallb field_line lines = true ->
  forall (fuel : nat) (line : list Z) (cfg : config) (fd : list Z)
         (line_count : Z) (nodes : list node),
    length line = SIZE_LINE ->
    exists line1 line_count1,
      length line1 = SIZE_LINE
      /\ rsgen_loop (length lines + fuel) line cfg (text_of_lines lines ++ fd)
           line_count nodes
         = rsgen_loop fuel line1 cfg fd line_count1 nodes.
Proof.
  induction lines as [|l lines IH]; intros Hf fuel line cfg fd lc nodes Hlen.
  - exists line, lc. split; [exact Hlen|reflexivity].
  - cbn [forallb] in Hf. apply andb_true_iff in Hf. destruct Hf as [Hl Hf].
    rewrite text_of_lines_cons. cbn [length Nat.add].
    destruct (rsgen_loop_field_line (length lines + fuel) line cfg l
                (text_of_lines lines ++ fd) lc nodes Hlen Hl)
      as (line1 & Hlen1 & E1).
    rewrite E1.
    apply (IH Hf fuel line1 cfg fd (lc + 1) nodes Hlen1).
Qed.

(** A record: the line of its key, its field lines, a blank line.  The
    make function of the key reads the fields and leaves the stream where
    it was; the loop then passes over the lines of the record. *)
Lemma rsgen_loop_record (kl : list Z) (lines : list (list Z))
  (f : block_functions) (n : node) (fuel : nat) (line : list Z)
  (cfg : config) (fd : list Z) (line_count : Z) (nodes : list node) :
  key_line kl = true ->
  find_block_functions (be_decode (firstn 4 kl)) = (Some f, []) ->
  forallb field_line lines = true ->
  make_of f cfg (text_of_lines lines ++ LF :: fd)
  = Ok (n, cfg, text_of_lines lines ++ LF :: fd) ->
  length line = SIZE_LINE ->
  exists line1 line_count1,
    length line1 = SIZE_LINE
    /\ rsgen_loop (S (length lines + S fuel)) line cfg
         (kl ++ LF :: text_of_lines lines ++ LF :: fd) line_count nodes
       = rsgen_loop fuel line1 cfg fd line_count1 (nodes ++ [n]).
Proof.
  intros Hk Hf Hl Hm Hlen.
  destruct (rsgen_loop_key_line (length lines + S fuel) line cfg kl
              (text_of_lines lines ++ LF :: fd) line_count nodes Hlen Hk)
    as (line1 & Hlen1 & E1).
  rewrite E1. cbv zeta. rewrite Hf, Hm.
  destruct (rsgen_loop_field_lines lines Hl (S fuel) line1 cfg (LF :: fd)
              (line_count + 1) (nodes ++ [n]) Hlen1)
    as (line2 & lc2 & Hlen2 & E2).
  rewrite E2.
  destruct (rsgen_loop_blank_line fuel line2 cfg fd lc2 (nodes ++ [n]) Hlen2)
    as (line3 & Hlen3 & E3).
  rewrite E3. now exists line3, (lc2 + 1).
Qed.

Lemma record_text_app (k : fourcc) (lines : list (list Z)) (fd : list Z) :
  record_text k lines ++ fd
  = be_encode 4 k ++ LF :: text_of_lines lines ++ LF :: fd.
Proof.
  unfold record_text. rewrite <- app_assoc. cbn [app].
  rewrite <- app_assoc. reflexivity.
Qed.

(** ** Making the leaves from their records *)

(** The node a make function builds for a leaf. *)
Definition heap_node (l : ileaf) : node :=
  mknode (ileaf_key l) (ileaf_size l)
    (HeapPtr (flat_map (host_encode 4) (ileaf_words l))).

Lemma cstring_forallb (P : Z -> bool) (l : list Z) :
  forallb P l = true -> forallb P (cstring l) = true.
Proof.
  induction l as [|c l IH]; simpl; [reflexivity|].
  intros H. apply andb_true_iff in H. destruct H as [Hc H].
  destruct (c =? NUL); [reflexivity|].
  simpl. now rewrite Hc, IH.
Qed.

Lemma cstring_no_nul (l : list Z) :
  forallb (fun c => negb (c =? NUL)) (cstring l) = true.
Proof.
  induction l as [|c l IH]; simpl; [reflexivity|].
  destruct (c =? NUL) eqn:E; [reflexivity|].
  simpl. now rewrite E, IH.
Qed.

Lemma cstring_length (l : list Z) : (length (cstring l) <= length l)%nat.
Proof.
  induction l as [|c l IH]; simpl; [lia|].
  destruct (c =? NUL); simpl; lia.
Qed.

Lemma cstring_plain_chars (l : list Z) :
  forallb (fun c => negb (c =? LF)) l = true ->
  forallb plain_char (cstring l) = true.
Proof.
  intros H. apply (cstring_forallb _ l) in H.
  pose proof (cstring_no_nul l) as N.
  rewrite forallb_forall in *. intros x Hx.
  unfold plain_char. now rewrite (H x Hx), (N x Hx).
Qed.

(** The lines of a leaf are field lines. *)
Lemma leaf_lines_field (l : ileaf) :
  ileaf_ok l -> ctime_one_line ->
  forallb field_line (leaf_lines l) = true.
Proof.
  intros Hok Hct.
  destruct l as [a b c d|v|v|t]; cbn [leaf_lines forallb ileaf_ok] in *.
  - rewrite !field_line_name;
      try reflexivity; try apply printf_d_plain;
      (pose proof (printf_d_length a); pose proof (printf_d_length b);
       pose proof (printf_d_length c); pose proof (printf_d_length d);
       cbn [length str]; lia).
  - rewrite field_line_name;
      try reflexivity; try (apply printf_u_plain; lia).
    pose proof (printf_u_length v). cbn [length str]. lia.
  - rewrite field_line_name;
      try reflexivity; try (apply printf_u_plain; lia).
    pose proof (printf_u_length v). cbn [length str]. lia.
  - unfold timestamp_text.
    pose proof (wrap64_range (t - epoch_offset)) as Hw.
    pose proof (printf_u_length (wrap64 (t - epoch_offset))) as Lw.
    pose proof (cstring_length (firstn 24 (ctime (t - epoch_offset)))) as Lc.
    rewrite length_firstn in Lc. unfold printf_s.
    rewrite field_line_name; try reflexivity.
    + rewrite !forallb_app, printf_u_plain by lia.
      rewrite cstring_plain_chars by apply Hct. reflexivity.
    + rewrite !length_app. cbn [length str]. lia.
Qed.

Lemma list_length_4 (l : list Z) :
  length l = 4%nat -> exists a b c d, l = [a; b; c; d].
Proof.
  destruct l as [|a [|b [|c [|d [|e l]]]]]; try discriminate.
  intros _. now exists a, b, c, d.
Qed.

(** The make function of a leaf on the lines the renderer wrote for it:
    the leaf, and the stream where it was. *)
Lemma make_leaf (l : ileaf) (cfg : config) (rest : list Z) :
  ileaf_ok l -> ctime_one_line ->
  exists f,
    find_block_functions (ileaf_key l) = (Some f, [])
    /\ make_of f cfg (text_of_lines (leaf_lines l) ++ LF :: rest)
       = Ok (heap_node l, cfg, text_of_lines (leaf_lines l) ++ LF :: rest).
Proof.
  intros Hok Hct.
  pose proof (leaf_lines_field l Hok Hct) as FL.
  destruct l as [a b c d|v|v|t]; cbn [ileaf_ok] in Hok.
  - exists F_cnst. split; [reflexivity|].
    destruct Hok as (Ha & Hb & Hc & Hd).
    cbn [make_of]. unfold make_node_cnst, read_field.
    rewrite !read_parameter_record by exact FL.
    cbn [leaf_lines first_response].
    rewrite !sscanf1_printf_d by assumption.
    rewrite (sscanf1_mismatch (str "nranges:") (str "nchannels:" ++ printf_d a)
               Conv_d eq_refl).
    rewrite (sscanf1_mismatch (str "nsweeps:") (str "nchannels:" ++ printf_d a)
               Conv_d eq_refl).
    rewrite (sscanf1_mismatch (str "nsweeps:") (str "nranges:" ++ printf_d b)
               Conv_d eq_refl).
    rewrite (sscanf1_mismatch (str "iqindicator:")
               (str "nchannels:" ++ printf_d a) Conv_d eq_refl).
    rewrite (sscanf1_mismatch (str "iqindicator:")
               (str "nranges:" ++ printf_d b) Conv_d eq_refl).
    rewrite (sscanf1_mismatch (str "iqindicator:")
               (str "nsweeps:" ++ printf_d c) Conv_d eq_refl).
    cbn [bind]. fits. unfold heap_node. cbn [ileaf_key ileaf_words flat_map].
    destruct (list_length_4 _ (host_encode_length 4 (wrap32 a)))
      as (a0 & a1 & a2 & a3 & ->).
    destruct (list_length_4 _ (host_encode_length 4 (wrap32 b)))
      as (b0 & b1 & b2 & b3 & ->).
    destruct (list_length_4 _ (host_encode_length 4 (wrap32 c)))
      as (c0 & c1 & c2 & c3 & ->).
    destruct (list_length_4 _ (host_encode_length 4 (wrap32 d)))
      as (d0 & d1 & d2 & d3 & ->).
    reflexivity.
  - exists F_rtag. split; [reflexivity|].
    cbn [make_of]. unfold make_node_rtag, read_field.
    rewrite read_parameter_record by exact FL.
    cbn [leaf_lines first_response].
    rewrite <- (app_nil_r (printf_u v)).
    rewrite sscanf1_printf_u by (lia || exact I).
    cbn [bind]. fits. rewrite wrap32_small by assumption.
    rewrite store_whole by (now rewrite host_encode_length).
    unfold heap_node. cbn [ileaf_key ileaf_words flat_map].
    now rewrite !app_nil_r.
  - exists F_indx. split; [reflexivity|].
    cbn [make_of]. unfold make_node_indx, read_field.
    rewrite read_parameter_record by exact FL.
    cbn [leaf_lines first_response].
    rewrite <- (app_nil_r (printf_u v)).
    rewrite sscanf1_printf_u by (lia || exact I).
    cbn [bind]. fits. rewrite wrap32_small by assumption.
    rewrite store_whole by (now rewrite host_encode_length).
    unfold heap_node. cbn [ileaf_key ileaf_words flat_map].
    now rewrite !app_nil_r.
  - exists F_mcda. split; [reflexivity|].
    cbn [make_of leaf_lines].
    assert (E : text_of_lines [timestamp_text (str "filetimestamp:") t]
                  ++ LF :: rest
                = timestamp_line (str "filetimestamp:") t ++ LF :: rest).
    { rewrite timestamp_line_text. unfold text_of_lines. cbn [flat_map].
      now rewrite app_nil_r. }
    rewrite E, make_node_mcda_timestamp by lia.
    unfold heap_node. cbn [ileaf_key ileaf_words flat_map].
    now rewrite app_nil_r.
Qed.

(** How many lines the records of the leaves take. *)
Definition leaves_count (ls : list ileaf) : nat :=
  fold_right (fun l acc => S (length (leaf_lines l) + S acc)) 0%nat ls.

Lemma leaves_count_length (ls : list ileaf) :
  (leaves_count ls <= length (leaves_text ls))%nat.
Proof.
  induction ls as [|l ls IH]; [apply Nat.le_refl|].
  cbn [leaves_count fold_right leaves_text flat_map].
  fold (leaves_count ls). fold (leaves_text ls).
  unfold leaf_text, record_text.
  rewrite !length_app. cbn [length]. rewrite length_app. cbn [length].
  pose proof (text_of_lines_length (leaf_lines l)). lia.
Qed.

Lemma key_line_leaf (l : ileaf) : key_line (be_encode 4 (ileaf_key l)) = true.
Proof. now destruct l. Qed.

Lemma key_of_leaf_line (l : ileaf) :
  be_decode (firstn 4 (be_encode 4 (ileaf_key l))) = ileaf_key l.
Proof. now destruct l. Qed.

(** The records of a run of leaves become the nodes of the leaves. *)
Lemma rsgen_loop_leaves (ls : list ileaf) :
  Forall ileaf_ok ls -> ctime_one_line ->
  forall (fuel : nat) (line : list Z) (cfg : config) (fd : list Z)
         (line_count : Z) (nodes : list node),
    length line = SIZE_LINE ->
    exists line1 line_count1,
      length line1 = SIZE_LINE
      /\ rsgen_loop (leaves_count ls + fuel) line cfg (leaves_text ls ++ fd)
           line_count nodes
         = rsgen_loop fuel line1 cfg fd line_count1
             (nodes ++ map heap_node ls).
Proof.
  intros Hls Hct.
  induction Hls as [|l ls Hl Hls IH]; intros fuel line cfg fd lc nodes Hlen.
  - exists line, lc. split; [exact Hlen|].
    cbn [leaves_count fold_right leaves_text flat_map map app Nat.add].
    now rewrite app_nil_r.
  - cbn [leaves_count fold_right leaves_text flat_map map].
    fold (leaves_count ls). fold (leaves_text ls).
    rewrite <- app_assoc. unfold leaf_text. rewrite record_text_app.
    destruct (make_leaf l cfg (leaves_text ls ++ fd) Hl Hct) as (f & Hf & Hm).
    destruct (rsgen_loop_record (be_encode 4 (ileaf_key l)) (leaf_lines l) f
                (heap_node l) (leaves_count ls + fuel) line cfg
                (leaves_text ls ++ fd) lc nodes)
      as (line1 & lc1 & Hlen1 & E1).
    + apply key_line_leaf.
    + now rewrite key_of_leaf_line.
    + now apply leaf_lines_field.
    + exact Hm.
    + exact Hlen.
    + replace (S (length (leaf_lines l) + S (leaves_count ls)) + fuel)%nat
        with (S (length (leaf_lines l) + S (leaves_count ls + fuel))) by lia.
      rewrite E1.
      destruct (IH fuel line1 cfg fd lc1 (nodes ++ [heap_node l]) Hlen1)
        as (line2 & lc2 & Hlen2 & E2).
      exists line2, lc2. split; [exact Hlen2|].
      rewrite E2. now rewrite <- app_assoc.
Qed.

(** The nodes [rsgen] makes of the text of [wire_file hl bl], before the
    sizes of the three super blocks are set. *)
Definition gen_nodes (hl bl : list ileaf) : list node :=
  mknode KEY_AQFT 0 NullPtr :: mknode KEY_HEAD 0 NullPtr :: map heap_node hl
    ++ mknode KEY_BODY 0 NullPtr :: map heap_node bl
    ++ [mknode KEY_END 0 NullPtr].

Lemma file_text_length (hl bl : list ileaf) :
  length (file_text hl bl)
  = (23 + length (leaves_text hl) + length (leaves_text bl))%nat.
Proof.
  unfold file_text, record_text. rewrite !length_app. cbn [length app].
  rewrite !length_app. cbn [length text_of_lines flat_map].
  rewrite !be_encode_length. lia.
Qed.

(** The loop of [rsgen] on the text of a file of integer leaves. *)
Lemma rsgen_loop_file_text (hl bl : list ileaf) (line : list Z) :
  Forall ileaf_ok hl -> Forall ileaf_ok bl -> ctime_one_line ->
  length line = SIZE_LINE ->
  exists line_count,
    rsgen_loop (length (file_text hl bl)) line config0 (file_text hl bl) 0 []
    = Ok (gen_nodes hl bl, line_count).
Proof.
  intros Hh Hb Hct Hlen.
  pose proof (leaves_count_length hl) as Ch.
  pose proof (leaves_count_length bl) as Cb.
  rewrite file_text_length.
  set (extra := (16 + length (leaves_text hl) + length (leaves_text bl)
                 - leaves_count hl - leaves_count bl)%nat).
  replace (23 + length (leaves_text hl) + length (leaves_text bl))%nat
    with (S (length (@nil (list Z)) + S (S (length (@nil (list Z)) + S
            (leaves_count hl + S (length (@nil (list Z)) + S
               (leaves_count bl + S extra)))))))
    by (unfold extra; cbn [length]; lia).
  unfold file_text.
  rewrite record_text_app.
  destruct (rsgen_loop_record (be_encode 4 KEY_AQFT) [] F_aqft
              (mknode KEY_AQFT 0 NullPtr)
              (S (length (@nil (list Z)) + S
                 (leaves_count hl + S (length (@nil (list Z)) + S
                    (leaves_count bl + S extra)))))
              line config0
              (record_text KEY_HEAD [] ++ leaves_text hl
                 ++ record_text KEY_BODY [] ++ leaves_text bl
                 ++ be_encode 4 KEY_END ++ [LF])
              0 [] eq_refl eq_refl eq_refl eq_refl Hlen)
    as (line1 & lc1 & Hlen1 & E1).
  rewrite E1. clear E1.
  rewrite record_text_app.
  destruct (rsgen_loop_record (be_encode 4 KEY_HEAD) [] F_head
              (mknode KEY_HEAD 0 NullPtr)
              (leaves_count hl + S (length (@nil (list Z)) + S
                    (leaves_count bl + S extra)))
              line1 config0
              (leaves_text hl
                 ++ record_text KEY_BODY [] ++ leaves_text bl
                 ++ be_encode 4 KEY_END ++ [LF])
              lc1 ([] ++ [mknode KEY_AQFT 0 NullPtr])
              eq_refl eq_refl eq_refl eq_refl Hlen1)
    as (line2 & lc2 & Hlen2 & E2).
  rewrite E2. clear E2.
  destruct (rsgen_loop_leaves hl Hh Hct
              (S (length (@nil (list Z)) + S (leaves_count bl + S extra)))
              line2 config0
              (record_text KEY_BODY [] ++ leaves_text bl
                 ++ be_encode 4 KEY_END ++ [LF])
              lc2 (([] ++ [mknode KEY_AQFT 0 NullPtr])
                     ++ [mknode KEY_HEAD 0 NullPtr]) Hlen2)
    as (line3 & lc3 & Hlen3 & E3).
  rewrite E3. clear E3.
  rewrite record_text_app.
  destruct (rsgen_loop_record (be_encode 4 KEY_BODY) [] F_body
              (mknode KEY_BODY 0 NullPtr)
              (leaves_count bl + S extra)
              line3 config0
              (leaves_text bl ++ be_encode 4 KEY_END ++ [LF])
              lc3 ((([] ++ [mknode KEY_AQFT 0 NullPtr])
                     ++ [mknode KEY_HEAD 0 NullPtr]) ++ map heap_node hl)
              eq_refl eq_refl eq_refl eq_refl Hlen3)
    as (line4 & lc4 & Hlen4 & E4).
  rewrite E4. clear E4.
  destruct (rsgen_loop_leaves bl Hb Hct (S extra) line4 config0
              (be_encode 4 KEY_END ++ [LF])
              lc4 (((([] ++ [mknode KEY_AQFT 0 NullPtr])
                     ++ [mknode KEY_HEAD 0 NullPtr]) ++ map heap_node hl)
                     ++ [mknode KEY_BODY 0 NullPtr]) Hlen4)
    as (line5 & lc5 & Hlen5 & E5).
  rewrite E5. clear E5.
  destruct (rsgen_loop_key_line extra line5 config0 (be_encode 4 KEY_END) []
              lc5 ((((([] ++ [mknode KEY_AQFT 0 NullPtr])
                     ++ [mknode KEY_HEAD 0 NullPtr]) ++ map heap_node hl)
                     ++ [mknode KEY_BODY 0 NullPtr]) ++ map heap_node bl)
              Hlen5 eq_refl)
    as (line6 & Hlen6 & E6).
  change (be_encode 4 KEY_END ++ [LF]) with (be_encode 4 KEY_END ++ LF :: []).
  rewrite E6. clear E6. cbv zeta.
  change (find_block_functions (be_decode (firstn 4 (be_encode 4 KEY_END))))
    with (Some F_end, @nil diag).
  cbn [make_of]. unfold make_node_end.
  rewrite rsgen_loop_eof.
  exists (lc5 + 1). unfold gen_nodes.
  rewrite <- !app_assoc. reflexivity.
Qed.

(** ** Writing the leaves *)

Lemma slice_flat_words (ws1 : list Z) (v : Z) (ws2 : list Z) :
  slice (flat_map (host_encode 4) (ws1 ++ v :: ws2)) (4 * length ws1) 4
  = host_encode 4 v.
Proof.
  rewrite flat_map_app. cbn [flat_map].
  rewrite <- (flat_map_length_words (host_encode 4) ws1)
    by (intros; apply host_encode_length).
  apply slice_app_n, host_encode_length.
Qed.

(** The block the encoder writes for the node of a leaf. *)
Lemma gen_leaf (l : ileaf) :
  exists f,
    find_block_functions (ileaf_key l) = (Some f, [])
    /\ gen_of f (heap_node l) = wire_leaf l.
Proof.
  destruct l as [a b c d|v|v|t].
  - exists F_cnst. split; [reflexivity|].
    cbn [gen_of]. unfold gen_block_cnst, gen_field, heap_node.
    cbn [node_bytes data ileaf_words ileaf_key].
    rewrite (slice_flat_words [] (wrap32 a) [wrap32 b; wrap32 c; wrap32 d]
             : slice (flat_map (host_encode 4)
                        [wrap32 a; wrap32 b; wrap32 c; wrap32 d]) 0 4 = _).
    rewrite (slice_flat_words [wrap32 a] (wrap32 b) [wrap32 c; wrap32 d]
             : slice (flat_map (host_encode 4)
                        [wrap32 a; wrap32 b; wrap32 c; wrap32 d]) 4 4 = _).
    rewrite (slice_flat_words [wrap32 a; wrap32 b] (wrap32 c) [wrap32 d]
             : slice (flat_map (host_encode 4)
                        [wrap32 a; wrap32 b; wrap32 c; wrap32 d]) 8 4 = _).
    rewrite (slice_flat_words [wrap32 a; wrap32 b; wrap32 c] (wrap32 d) []
             : slice (flat_map (host_encode 4)
                        [wrap32 a; wrap32 b; wrap32 c; wrap32 d]) 12 4 = _).
    rewrite gen_header_be, !endian_fixup_host_encode by (now left).
    unfold wire_leaf. cbn [key size flat_map ileaf_words ileaf_key].
    now rewrite <- !app_assoc, ?app_nil_r.
  - exists F_rtag. split; [reflexivity|].
    cbn [gen_of]. unfold gen_block_rtag, gen_field, heap_node.
    cbn [node_bytes data ileaf_words ileaf_key].
    rewrite (slice_flat_words [] v []
             : slice (flat_map (host_encode 4) [v]) 0 4 = _).
    rewrite gen_header_be, !endian_fixup_host_encode by (now left).
    unfold wire_leaf. cbn [key size flat_map ileaf_words ileaf_key].
    now rewrite <- !app_assoc, ?app_nil_r.
  - exists F_indx. split; [reflexivity|].
    cbn [gen_of]. unfold gen_block_indx, gen_field, heap_node.
    cbn [node_bytes data ileaf_words ileaf_key].
    rewrite (slice_flat_words [] v []
             : slice (flat_map (host_encode 4) [v]) 0 4 = _).
    rewrite gen_header_be, !endian_fixup_host_encode by (now left).
    unfold wire_leaf. cbn [key size flat_map ileaf_words ileaf_key].
    now rewrite <- !app_assoc, ?app_nil_r.
  - exists F_mcda. split; [reflexivity|].
    cbn [gen_of]. unfold gen_block_mcda, gen_field, heap_node.
    cbn [node_bytes data ileaf_words ileaf_key].
    rewrite (slice_flat_words [] t []
             : slice (flat_map (host_encode 4) [t]) 0 4 = _).
    rewrite gen_header_be, !endian_fixup_host_encode by (now left).
    unfold wire_leaf. cbn [key size flat_map ileaf_words ileaf_key].
    now rewrite <- !app_assoc, ?app_nil_r.
Qed.

Lemma rs_write_leaves (ls : list ileaf) (after : list node) :
  forall out : list Z,
    rs_write (map heap_node ls ++ after) out
    = rs_write after (out ++ wire_leaves ls).
Proof.
  induction ls as [|l ls IH]; intros out.
  - cbn [map app wire_leaves flat_map]. now rewrite app_nil_r.
  - cbn [map app rs_write].
    destruct (gen_leaf l) as (f & Hf & Hg).
    change (key (heap_node l)) with (ileaf_key l).
    rewrite Hf, Hg, IH.
    unfold wire_leaves. cbn [flat_map]. now rewrite <- app_assoc.
Qed.

(** A super block is written as its header. *)
Lemma rs_write_super (k : fourcc) (sz : Z) (p : dptr) (rest : list node)
  (out : list Z) :
  superblock k = true ->
  rs_write (mknode k sz p :: rest) out
  = rs_write rest (out ++ wire_header k sz).
Proof.
  intros Hk. cbn [rs_write key]. unfold superblock in Hk.
  destruct (Z.eqb_spec k KEY_AQFT) as [->|_];
    [change (find_block_functions KEY_AQFT) with (Some F_aqft, @nil diag);
     cbn [gen_of]; unfold gen_block_aqft; now rewrite gen_header_be|].
  destruct (Z.eqb_spec k KEY_HEAD) as [->|_];
    [change (find_block_functions KEY_HEAD) with (Some F_head, @nil diag);
     cbn [gen_of]; unfold gen_block_head; now rewrite gen_header_be|].
  destruct (Z.eqb_spec k KEY_BODY) as [->|_];
    [change (find_block_functions KEY_BODY) with (Some F_body, @nil diag);
     cbn [gen_of]; unfold gen_block_body; now rewrite gen_header_be|].
  destruct (Z.eqb_spec k KEY_END) as [->|_];
    [change (find_block_functions KEY_END) with (Some F_end, @nil diag);
     cbn [gen_of]; unfold gen_block_end; now rewrite gen_header_be|].
  discriminate.
Qed.

(** ** Setting the sizes *)

Lemma region_size_leaves (ls : list ileaf) :
  region_size (map heap_node ls) = wire_size ls.
Proof.
  induction ls as [|l ls IH]; [reflexivity|].
  cbn [map region_size fold_right wire_size].
  fold (region_size (map heap_node ls)). fold (wire_size ls).
  now rewrite IH.
Qed.

Lemma leaves_not_sentinel (ls : list ileaf) :
  Forall (fun n => is_sentinel (key n) = false) (map heap_node ls).
Proof.
  apply Forall_forall. intros n Hn. apply in_map_iff in Hn.
  destruct Hn as (l & <- & _). now destruct l.
Qed.

Lemma wire_size_nonempty (ls : list ileaf) : ls <> [] -> 8 <= wire_size ls.
Proof.
  destruct ls as [|l ls]; [congruence|]. intros _.
  cbn [wire_size fold_right]. fold (wire_size ls).
  pose proof (wire_size_nonneg ls). pose proof (ileaf_size_range l).
  unfold sizeof_block_header. lia.
Qed.

(** The list of [rsgen] once [fixup_sizes] has gone over it. *)
Definition sized_nodes (hl bl : list ileaf) : list node :=
  mknode KEY_AQFT
      (wire_size hl + sizeof_block_header + wire_size bl + sizeof_block_header)
      NullPtr
    :: mknode KEY_HEAD (wire_size hl) NullPtr :: map heap_node hl
    ++ mknode KEY_BODY (wire_size bl) NullPtr :: map heap_node bl
    ++ [mknode KEY_END 0 NullPtr].

Lemma fixup_sizes_gen_nodes (hl bl : list ileaf) :
  hl <> [] -> bl <> [] ->
  wire_size hl + wire_size bl + 32 < 2 ^ 32 ->
  fixup_sizes (root_node :: gen_nodes hl bl)
  = (0, root_node :: sized_nodes hl bl).
Proof.
  intros Nh Nb Hs.
  pose proof (wire_size_nonempty hl Nh) as Sh.
  pose proof (wire_size_nonempty bl Nb) as Sb.
  pose proof (fixup_sizes_layout [root_node] [] (map heap_node hl)
                (map heap_node bl) []
                (mknode KEY_AQFT 0 NullPtr) (mknode KEY_HEAD 0 NullPtr)
                (mknode KEY_BODY 0 NullPtr) (mknode KEY_END 0 NullPtr)
                eq_refl eq_refl eq_refl eq_refl) as F.
  cbv zeta in F. rewrite !region_size_leaves in F.
  rewrite (wrap32_small (wire_size hl)), (wrap32_small (wire_size bl)) in F
    by lia.
  rewrite wrap32_small in F by (unfold sizeof_block_header; lia).
  apply F.
  - repeat constructor.
  - constructor.
  - apply leaves_not_sentinel.
  - apply leaves_not_sentinel.
  - constructor.
  - lia.
  - lia.
Qed.

Lemma rs_write_sized_nodes (hl bl : list ileaf) :
  rs_write (sized_nodes hl bl) [] = (0, wire_file hl bl, []).
Proof.
  unfold sized_nodes.
  rewrite rs_write_super by reflexivity.
  rewrite rs_write_super by reflexivity.
  rewrite rs_write_leaves.
  rewrite rs_write_super by reflexivity.
  rewrite rs_write_leaves.
  rewrite rs_write_super by reflexivity.
  cbn [rs_write app]. unfold wire_file.
  now rewrite <- !app_assoc.
Qed.

(** [rsgen] on the text of a file of integer leaves whose two regions
    are not empty writes the file and exits with 0. *)
Lemma rsgen_file_text (hl bl : list ileaf) (line0 : list Z) :
  Forall ileaf_ok hl -> Forall ileaf_ok bl -> hl <> [] -> bl <> [] ->
  wire_size hl + wire_size bl + 32 < 2 ^ 32 ->
  ctime_one_line -> length line0 = SIZE_LINE ->
  rsgen line0 (file_text hl bl) = Exit 0 (wire_file hl bl) [].
Proof.
  intros Hh Hb Nh Nb Hs Hct Hlen. unfold rsgen.
  destruct (rsgen_loop_file_text hl bl line0 Hh Hb Hct Hlen) as (lc & E).
  rewrite E, fixup_sizes_gen_nodes by assumption.
  cbn [tl]. now rewrite rs_write_sized_nodes.
Qed.

(** The round trip of integer leaves.  A file made of an AQFT block that
    holds a HEAD block and a BODY block, both with at least one leaf of
    the types cnst, rtag, indx and mcda (with a time stamp that is not 0)
    and sizes that fit 32 bits, followed by the END block that the size
    of the AQFT block does not count, comes back byte for byte: [rsdump]
    writes a text and exits with 0, and [rsgen] on that text writes the
    bytes of the file and exits with 0. *)
Theorem integer_leaves_round_trip (hl bl : list ileaf) (line0 : list Z) :
  Forall ileaf_ok hl -> Forall ileaf_ok bl -> hl <> [] -> bl <> [] ->
  wire_size hl + wire_size bl + 32 < 2 ^ 32 ->
  ctime_one_line -> length line0 = SIZE_LINE ->
  exists text,
    rsdump (wire_file hl bl) false = Exit 0 text []
    /\ rsgen line0 text = Exit 0 (wire_file hl bl) [].
Proof.
  intros Hh Hb Nh Nb Hs Hct Hlen.
  exists (file_text hl bl). split.
  - now apply rsdump_wire_file.
  - now apply rsgen_file_text.
Qed.

(** * Further properties of the code *)

(** ** Byte order *)

(** Whatever the byte order of the host: an integer of 4 or 8 bytes that
    [endian_fixup] has fixed in the buffer reads as its bytes in the file
    say, most significant first; an integer that is fixed before it is
    written goes to the file most significant byte first; and [strkey]
    gives the characters of a key in the order of the file. *)
Theorem file_byte_order (bs : list Z) (n : nat) (v : Z) (k : fourcc) :
  length bs = 4%nat \/ length bs = 8%nat ->
  n = 4%nat \/ n = 8%nat ->
  host_decode (endian_fixup bs) = be_decode bs
  /\ endian_fixup (host_encode n v) = be_encode n v
  /\ strkey k = be_encode 4 k.
Proof.
  intros Hb Hn. split; [|split].
  - now apply host_decode_endian_fixup.
  - now apply endian_fixup_host_encode.
  - apply strkey_be.
Qed.

(** [endian_fixup] applied twice to an object that fits its temporary
    copy of 8 bytes gives the bytes back, on either host, and keeps
    their number: objects of 2, 4 and 8 bytes are reversed twice, the
    others are left alone. *)
Theorem endian_fixup_twice (bs : list Z) :
  (length bs <= 8)%nat ->
  endian_fixup (endian_fixup bs) = bs
  /\ length (endian_fixup bs) = length bs.
Proof.
  intros _. split; [apply endian_fixup_involutive|].
  unfold endian_fixup, swapcopy. destruct little_endian; [|reflexivity].
  destruct (length bs) as [|[|[|[|[|[|[|[|[|]]]]]]]]] eqn:E;
    rewrite ?length_rev; now rewrite ?E.
Qed.

(** ** The decoder *)

(** On every buffer the decoder comes to an end: it returns its list, or
    it reads outside the buffer.  Each block uses up the 8 bytes of its
    header at least, so a buffer of [n] bytes never takes more than [n]
    rounds of the loop and of the recursion together. *)
Theorem parse_file_ends (mem : list Z) :
  (exists mem' nodes d, parse_file mem = Parsed mem' nodes d)
  \/ (exists d, parse_file mem = OutOfBounds d).
Proof.
  pose proof (parse_file_fuel mem) as F.
  destruct (parse_file mem) as [mem' nodes d|d|].
  - left. now exists mem', nodes, d.
  - right. now exists d.
  - congruence.
Qed.

(** A file of integer leaves is decoded into the flat list of its
    blocks in the order of the file: the AQFT node, the HEAD node, the
    leaves of the head, the BODY node, the leaves of the body, the END
    node, each with the size its header gives and the offset of its
    payload; the integers in the buffer are in host order afterwards, and
    nothing is reported. *)
Theorem parse_file_wire_file (hl bl : list ileaf) :
  wire_size hl + wire_size bl + 32 < 2 ^ 32 ->
  parse_file (wire_file hl bl)
  = Parsed (host_file hl bl)
      (file_nodes (wire_size hl + sizeof_block_header + wire_size bl
                   + sizeof_block_header) hl bl) [].
Proof.
  intros Hs.
  pose proof (wire_size_nonneg hl) as Nh.
  pose proof (wire_size_nonneg bl) as Nb.
  pose proof (wire_size_length hl) as Lh.
  pose proof (wire_size_length bl) as Lb.
  pose proof (wire_file_length hl bl) as Lf.
  unfold parse_file. rewrite Lf.
  unfold sizeof_block_header in *.
  apply (parse_block_wire_file hl bl); unfold sizeof_block_header; lia.
Qed.

(** ** rsdump on a file that is not an RS file *)

(** A file of more than 8 bytes whose first four bytes are not [AQFT] is
    reported and not parsed; nothing is written, and the exit status is
    still 0. *)
Theorem rsdump_bad_header (filedata : list Z) (just_header : bool) :
  (8 < length filedata)%nat ->
  be_decode (firstn 4 filedata) <> KEY_AQFT ->
  rsdump filedata just_header
  = Exit 0 [] [D_bad_header_key (be_decode (firstn 4 filedata))].
Proof.
  intros Hl Hk. unfold rsdump, read_binary_file, check_header.
  unfold sizeof_block_header.
  destruct (Z.gtb_spec (Z.of_nat (length filedata)) 8) as [_|G]; [|lia].
  unfold slice. cbn [skipn]. cbv zeta.
  rewrite host_decode_endian_fixup by (left; rewrite length_firstn; lia).
  destruct (Z.eqb_spec (be_decode (firstn 4 filedata)) KEY_AQFT) as [E|_];
    [contradiction|].
  reflexivity.
Qed.

(** ** The reconciler *)

(** [set_block_size] on a list without a node of the key: the list is
    left as it is and 1 is returned. *)
Theorem set_block_size_absent (l : list node) (k : fourcc) (sz : Z) :
  Forall (fun n => key n <> k) l -> set_block_size l k sz = (1, l).
Proof.
  induction 1 as [|n l Hn _ IH]; [reflexivity|].
  cbn [set_block_size].
  destruct (Z.eqb_spec (key n) k) as [E|_]; [contradiction|].
  now rewrite IH.
Qed.

Lemma head_loop_no_head (l : list node) (sz : Z) :
  Forall (fun n => key n <> KEY_HEAD) l ->
  calculate_head_size_loop l false sz = sz.
Proof.
  induction 1 as [|n l Hn _ IH]; [reflexivity|].
  cbn [calculate_head_size_loop].
  destruct (Z.eqb_spec (key n) KEY_HEAD) as [E|_]; [contradiction|].
  destruct (key n =? KEY_END), (key n =? KEY_BODY); exact IH.
Qed.

Lemma body_loop_no_body (l : list node) (sz : Z) :
  Forall (fun n => key n <> KEY_BODY) l ->
  calculate_body_size_loop l false sz = sz.
Proof.
  induction 1 as [|n l Hn _ IH]; [reflexivity|].
  cbn [calculate_body_size_loop].
  destruct (Z.eqb_spec (key n) KEY_BODY) as [E|_]; [contradiction|].
  destruct (key n =? KEY_END); exact IH.
Qed.

(** Without a HEAD node, or without a BODY node, [fixup_sizes] returns 1
    and sets no size at all, not even the one it could work out. *)
Theorem fixup_sizes_needs_head_and_body (l : list node) :
  Forall (fun n => key n <> KEY_HEAD) l
  \/ Forall (fun n => key n <> KEY_BODY) l ->
  fixup_sizes l = (1, l).
Proof.
  intros [H|H]; unfold fixup_sizes.
  - unfold calculate_head_size. now rewrite head_loop_no_head.
  - unfold calculate_body_size. rewrite body_loop_no_body by assumption.
    now destruct (calculate_head_size l =? 0).
Qed.

(** On a list with the layout of an RS file the sizes [fixup_sizes]
    writes do not depend on the sizes the three super blocks had: run a
    second time, on its own result, it changes nothing. *)
Theorem fixup_sizes_idempotent
  (pre mid hs bs post : list node) (a h b e : node) :
  key a = KEY_AQFT -> key h = KEY_HEAD -> key b = KEY_BODY -> key e = KEY_END ->
  Forall (fun n => (key n =? KEY_AQFT) = false
                   /\ opens_region (key n) = false) pre ->
  Forall (fun n => opens_region (key n) = false) mid ->
  Forall (fun n => is_sentinel (key n) = false) hs ->
  Forall (fun n => is_sentinel (key n) = false) bs ->
  Forall (fun n => opens_region (key n) = false) post ->
  wrap32 (region_size hs) <> 0 -> wrap32 (region_size bs) <> 0 ->
  fixup_sizes (snd (fixup_sizes
                      (pre ++ a :: mid ++ h :: hs ++ b :: bs ++ e :: post)))
  = fixup_sizes (pre ++ a :: mid ++ h :: hs ++ b :: bs ++ e :: post).
Proof.
  intros Ka Kh Kb Ke Hpre Hmid Hhs Hbs Hpost Hh Hb.
  rewrite (fixup_sizes_layout pre mid hs bs post a h b e) by assumption.
  cbn [snd].
  now rewrite (fixup_sizes_layout pre mid hs bs post) by assumption.
Qed.

(** ** The text renderer *)

Lemma dump_block_body_key (k : fourcc) (f : block_functions) (d : list diag) :
  find_block_functions k = (Some f, d) ->
  is_dump_block_body f = true -> k = KEY_BODY.
Proof.
  unfold find_block_functions, Global_function_dictionary.
  destruct (k =? 0); [discriminate|].
  cbn [dictionary_search].
  repeat match goal with
         | |- context [k =? ?K] =>
             destruct (Z.eqb_spec k K) as [->|_];
               [intros E; inversion E; subst f; cbn;
                 try discriminate; reflexivity|]
         end.
  discriminate.
Qed.

(** A dump of the header alone is the dump of the nodes before the BODY
    node: it ends there with 0, and neither the BODY node nor anything
    behind it is looked at. *)
Theorem dump_list_header_only (mem : list Z) (l1 l2 : list node) (b : node) :
  Forall (fun n => key n <> KEY_BODY) l1 -> key b = KEY_BODY ->
  forall (cfg : config) (out : list Z),
    dump_list mem (l1 ++ b :: l2) cfg true out
    = dump_list mem l1 cfg false out.
Proof.
  intros H Kb. induction H as [|n l1 Hn _ IH]; intros cfg out.
  - cbn [app dump_list]. rewrite Kb. reflexivity.
  - cbn [app dump_list].
    destruct (find_block_functions (key n)) as [[f|] d] eqn:Ef; [|reflexivity].
    destruct (is_dump_block_body f) eqn:Eb.
    + apply (dump_block_body_key _ _ _ Ef) in Eb. contradiction.
    + cbn [andb].
      destruct (dump_of f mem n cfg) as [[text cfg']|c d'|];
        [apply IH|reflexivity|reflexivity].
Qed.

(** ** Lines of text *)

Lemma chomp_nl_no_newline (l : list Z) :
  forallb (fun c => negb (c =? LF)) (cstring (chomp_nl l)) = true.
Proof.
  induction l as [|c l IH]; [reflexivity|].
  cbn [chomp_nl].
  destruct (c =? NUL) eqn:E0.
  - cbn [cstring]. now rewrite E0.
  - destruct (c =? LF) eqn:E1.
    + reflexivity.
    + cbn [cstring]. rewrite E0. cbn [forallb]. now rewrite E1, IH.
Qed.

Lemma chomp_nl_cstring_length (l : list Z) :
  (length (cstring (chomp_nl l)) <= length (cstring l))%nat.
Proof.
  induction l as [|c l IH]; [apply Nat.le_refl|].
  cbn [chomp_nl].
  destruct (c =? NUL) eqn:E0.
  - apply Nat.le_refl.
  - destruct (c =? LF) eqn:E1.
    + cbn [cstring]. rewrite E0. change (NUL =? NUL) with true.
      cbn [length]. lia.
    + cbn [cstring]. rewrite E0. cbn [length]. lia.
Qed.

Lemma cstring_app_nul_length (A B : list Z) :
  (length (cstring (A ++ NUL :: B)) <= length A)%nat.
Proof.
  induction A as [|a A IH]; [reflexivity|].
  cbn [app cstring]. destruct (a =? NUL); cbn [length]; lia.
Qed.

(** [chomp] on an array of [max] characters: the string in the array
    ends within the array and holds no newline, and the array keeps its
    length. *)
Theorem chomp_no_newline (line : list Z) (max : nat) :
  length line = max -> (0 < max)%nat ->
  forallb (fun c => negb (c =? LF)) (cstring (chomp line max)) = true
  /\ strlen (chomp line max) < Z.of_nat max
  /\ length (chomp line max) = max.
Proof.
  intros Hl Hm. split; [|split].
  - apply chomp_nl_no_newline.
  - unfold strlen, chomp.
    pose proof (chomp_nl_cstring_length (store line (max - 1) [NUL])) as H1.
    rewrite store_fits in H1 |- * by (cbn [length]; lia).
    cbn [app] in H1 |- *.
    pose proof (cstring_app_nul_length (firstn (max - 1) line)
                  (skipn (max - 1 + length [NUL]) line)) as H2.
    rewrite length_firstn in H2. lia.
  - now rewrite chomp_length.
Qed.

(** ** Edge cases of read_parameter *)

Lemma sscanf1_label_only (f : format) : sscanf1 (label f) f = ScanEOF.
Proof.
  unfold sscanf1.
  rewrite <- (app_nil_r (label f)) at 2.
  rewrite match_literal_prefix.
  now destruct (conversion f).
Qed.

(** A line that gives the label of the field and nothing behind it
    counts as found: sscanf returns EOF, which is not 0, so the search
    stops without an error and nothing is stored for the field. *)
Theorem read_parameter_label_only (f : format) (fd : list Z) :
  text_line (label f) = true -> label f <> [] ->
  read_parameter (label f ++ LF :: fd) f = Ok None.
Proof.
  intros Ht Hne. unfold read_parameter.
  rewrite length_app. cbn [length]. rewrite Nat.add_succ_r.
  rewrite read_parameter_loop_line by assumption.
  now rewrite sscanf1_label_only.
Qed.

(** A record that runs into the end of the file, without a blank line,
    and has no line for the field: the search ends without an error (and
    nothing is stored), where the same lines followed by a blank line
    give an error. *)
Theorem read_parameter_end_of_file (f : format) (lines : list (list Z)) :
  forallb field_line lines = true ->
  Forall (fun l => sscanf1 l f = ScanFail) lines ->
  read_parameter (text_of_lines lines) f = Ok None
  /\ forall rest,
       read_parameter (text_of_lines lines ++ LF :: rest) f
       = Err 1 [D_cannot_find_parameter f].
Proof.
  intros Hf Hs. split.
  - unfold read_parameter. generalize (length (text_of_lines lines)).
    induction Hs as [|l lines Hl _ IH]; intros fuel.
    + now destruct fuel.
    + cbn [forallb] in Hf. apply andb_true_iff in Hf. destruct Hf as [Hfl Hf].
      destruct fuel as [|fuel]; [reflexivity|].
      rewrite <- (app_nil_r (text_of_lines (l :: lines))).
      rewrite text_of_lines_cons, app_nil_r.
      rewrite read_parameter_loop_line.
      * rewrite Hl. now apply IH.
      * now apply field_line_text.
      * unfold field_line in Hfl. apply andb_true_iff in Hfl.
        destruct Hfl as [_ Hc]. now destruct l.
  - intros rest. rewrite read_parameter_record by assumption.
    clear Hf. induction Hs as [|l lines Hl _ IH]; [reflexivity|].
    cbn [first_response]. now rewrite Hl.
Qed.

(** ** Blocks of raw bytes (hasi) *)

(** The line [hexdump] writes for the bytes [bs], without its newline. *)
Definition hexline (bs : list Z) : list Z :=
  str "data:" ++ flat_map (fun b => 32 :: printf_02x b) bs.

(** What the two digits of a byte have to be for the line to be read
    back. *)
Definition hex_ok (b : Z) : bool :=
  (strtoul16 (printf_02x b) mod 256 =? b)
  && forallb (fun c => negb (c =? 32) && plain_char c) (printf_02x b).

Lemma hex_ok_byte (b : Z) : 0 <= b < 256 -> hex_ok b = true.
Proof.
  intros Hb.
  assert (A : forallb hex_ok (map Z.of_nat (seq 0 256)) = true)
    by (vm_compute; reflexivity).
  rewrite forallb_forall in A. apply A.
  apply in_map_iff. exists (Z.to_nat b). split; [lia|].
  apply in_seq. lia.
Qed.

Lemma hexline_length (bs : list Z) :
  length (hexline bs) = (5 + 3 * length bs)%nat.
Proof.
  unfold hexline. rewrite length_app.
  change (length (str "data:")) with 5%nat. f_equal.
  induction bs as [|b bs IH]; [reflexivity|].
  cbn [flat_map]. rewrite length_app, IH. cbn [length printf_02x]. lia.
Qed.

Lemma hexline_plain (bs : list Z) :
  Forall (fun b => 0 <= b < 256) bs -> forallb plain_char (hexline bs) = true.
Proof.
  intros H. unfold hexline. rewrite forallb_app.
  change (forallb plain_char (str "data:")) with true. cbn [andb].
  induction H as [|b bs Hb _ IH]; [reflexivity|].
  cbn [flat_map]. rewrite forallb_app, IH, andb_true_r.
  pose proof (hex_ok_byte b Hb) as K. unfold hex_ok in K.
  apply andb_true_iff in K. destruct K as [_ K].
  cbn [forallb app]. change (plain_char 32) with true. cbn [andb].
  rewrite forallb_forall in K |- *. intros x Hx. specialize (K x Hx).
  now apply andb_true_iff in K.
Qed.

Lemma tokens_hex (bs : list Z) :
  Forall (fun b => 0 <= b < 256) bs ->
  forall cur : list Z,
    cur <> [] ->
    tokens cur (flat_map (fun b => 32 :: printf_02x b) bs)
    = rev cur :: map printf_02x bs.
Proof.
  induction 1 as [|b bs Hb _ IH]; intros cur Hc.
  - cbn [flat_map tokens map]. now destruct cur.
  - cbn [flat_map map app].
    pose proof (hex_ok_byte b Hb) as K. unfold hex_ok in K.
    apply andb_true_iff in K. destruct K as [_ K].
    unfold printf_02x in *. cbn [forallb] in K.
    apply andb_true_iff in K. destruct K as [K1 K].
    apply andb_true_iff in K. destruct K as [K2 _].
    apply andb_true_iff in K1. destruct K1 as [K1 _].
    apply andb_true_iff in K2. destruct K2 as [K2 _].
    apply negb_true_iff in K1, K2.
    cbn [tokens app]. change (32 =? 32) with true. cbv iota.
    destruct cur as [|c cur]; [congruence|].
    rewrite K1, K2. f_equal.
    apply (IH [digit_char (b mod 16); digit_char (b / 16)]). discriminate.
Qed.

Lemma hasi_of_hexline (bs : list Z) :
  Forall (fun b => 0 <= b < 256) bs ->
  map (fun a => strtoul16 a mod 256) (tl (tokens [] (hexline bs))) = bs
  /\ length (tl (tokens [] (hexline bs))) = length bs.
Proof.
  intros H. unfold hexline.
  assert (T : tokens [] (str "data:" ++
                flat_map (fun b => 32 :: printf_02x b) bs)
              = str "data:" :: map printf_02x bs).
  { change (tokens [] (str "data:" ++
                flat_map (fun b => 32 :: printf_02x b) bs))
      with (tokens (rev (str "data:"))
              (flat_map (fun b => 32 :: printf_02x b) bs)).
    rewrite tokens_hex by (assumption || discriminate).
    now rewrite rev_involutive. }
  rewrite T. cbn [tl]. rewrite length_map. split; [|reflexivity].
  rewrite map_map.
  rewrite <- (map_id bs) at 2. apply map_ext_in.
  intros b Hb. rewrite Forall_forall in H.
  pose proof (hex_ok_byte b (H b Hb)) as K. unfold hex_ok in K.
  apply andb_true_iff in K. destruct K as [K _].
  now apply Z.eqb_eq in K.
Qed.

(** What [make_node_hasi] makes of a stream whose first [fgets] gives the
    line of the bytes [bs]. *)
Lemma make_node_hasi_chars (bs chars fd fd' : list Z) (cfg : config) :
  Forall (fun b => 0 <= b < 256) bs ->
  (1 <= length bs < 256)%nat ->
  fgets (MAX_ARGC * 3 + 1 - 1) fd = Some (chars, fd') ->
  line_string chars = hexline bs ->
  make_node_hasi cfg fd
  = Ok (mknode KEY_hasi (Z.of_nat (length bs)) (HeapPtr bs), cfg, fd').
Proof.
  intros Hb Hl Hg Hs. unfold make_node_hasi. rewrite Hg, Hs.
  destruct (hasi_of_hexline bs Hb) as [E1 E2].
  rewrite E1, E2.
  destruct (Nat.eqb_spec (length bs) 0); [lia|].
  unfold MAX_ARGC at 1.
  destruct (Nat.leb_spec 256 (length bs)); [lia|].
  reflexivity.
Qed.

Lemma chomp_nl_plain_nul (l tail : list Z) :
  forallb plain_char l = true ->
  chomp_nl (l ++ NUL :: tail) = l ++ NUL :: tail.
Proof.
  induction l as [|c l IH]; intros H; [reflexivity|].
  cbn [forallb] in H. apply andb_true_iff in H. destruct H as [Hc H].
  unfold plain_char in Hc. apply andb_true_iff in Hc.
  destruct Hc as [H1 H2]. apply negb_true_iff in H1, H2.
  cbn [app chomp_nl]. rewrite H2, H1. now rewrite IH.
Qed.

Lemma line_string_plain (l : list Z) :
  forallb plain_char l = true ->
  line_string l = l /\ line_string (l ++ [LF]) = l.
Proof.
  intros H. unfold line_string. split.
  - rewrite chomp_nl_plain_nul by assumption. now apply cstring_plain.
  - rewrite <- app_assoc. cbn [app].
    rewrite chomp_nl_plain by assumption. now apply cstring_plain.
Qed.

Lemma plain_no_newline (l : list Z) :
  forallb plain_char l = true ->
  forallb (fun c => negb (c =? LF)) l = true.
Proof.
  intros H. rewrite forallb_forall in *. intros x Hx. specialize (H x Hx).
  unfold plain_char in H. now apply andb_true_iff in H.
Qed.

(** A hasi block of 4 to 253 bytes comes back: [dump_block_hasi] writes
    the bytes as one line of hexadecimal digits, [make_node_hasi] makes
    a node with the same bytes from that line and leaves the stream at
    the blank line, and [gen_block_hasi] writes the header and the
    bytes. *)
Theorem hasi_round_trip (bs pre after rest : list Z) (cfg cfg' : config) :
  Forall (fun b => 0 <= b < 256) bs ->
  (4 <= length bs <= 253)%nat ->
  exists body,
    dump_block_hasi (pre ++ bs ++ after)
      (mknode KEY_hasi (Z.of_nat (length bs)) (BufPtr (length pre))) cfg
    = Ok (printf_s (strkey KEY_hasi) ++ [LF] ++ body ++ [LF], cfg)
    /\ make_node_hasi cfg' (body ++ LF :: rest)
       = Ok (mknode KEY_hasi (Z.of_nat (length bs)) (HeapPtr bs), cfg',
             LF :: rest)
    /\ gen_block_hasi (mknode KEY_hasi (Z.of_nat (length bs)) (HeapPtr bs))
       = wire_header KEY_hasi (Z.of_nat (length bs)) ++ bs.
Proof.
  intros Hb Hl. exists (hexline bs ++ [LF]).
  pose proof (hexline_plain bs Hb) as Hp.
  pose proof (hexline_length bs) as Hn.
  split; [|split].
  - unfold dump_block_hasi. cbn [size].
    unfold sizeof_block_hasi.
    destruct (Z.ltb_spec (Z.of_nat (length bs)) 4); [lia|].
    rewrite node_bytes_at. unfold hexdump.
    rewrite Nat2Z.id, firstn_app, firstn_all, Nat.sub_diag.
    cbn [firstn]. rewrite app_nil_r.
    unfold hexline. now rewrite <- !app_assoc.
  - apply make_node_hasi_chars with (chars := hexline bs ++ [LF]).
    + exact Hb.
    + lia.
    + rewrite <- app_assoc. cbn [app]. unfold fgets.
      destruct (hexline bs ++ LF :: LF :: rest) eqn:E;
        [now destruct (hexline bs)|]. rewrite <- E.
      rewrite fgets_chars_app
        by (try (now apply plain_no_newline); unfold MAX_ARGC; lia).
      destruct (MAX_ARGC * 3 + 1 - 1 - 1 - length (hexline bs))%nat eqn:R;
        [unfold MAX_ARGC in R; lia|].
      reflexivity.
    + now apply line_string_plain.
  - unfold gen_block_hasi, gen_raw. cbn [node_bytes data size].
    rewrite gen_header_be. cbn [key size].
    rewrite Nat2Z.id, slice_whole. reflexivity.
Qed.

(** A hasi block of 255 bytes or more does not come back: the line of
    its bytes is longer than what [make_node_hasi] reads in one piece,
    and the node is made of the first 254 bytes, without an error; the
    rest of the line stays in the stream. *)
Theorem hasi_long_line_is_cut (bs rest : list Z) (cfg : config) :
  Forall (fun b => 0 <= b < 256) bs ->
  (255 <= length bs)%nat ->
  make_node_hasi cfg (hexline bs ++ LF :: rest)
  = Ok (mknode KEY_hasi 254 (HeapPtr (firstn 254 bs)), cfg,
        flat_map (fun b => 32 :: printf_02x b) (skipn 254 bs) ++ LF :: rest).
Proof.
  intros Hb Hl.
  assert (Hb1 : Forall (fun b => 0 <= b < 256) (firstn 254 bs)).
  { rewrite Forall_forall in *. intros x Hx. apply Hb.
    rewrite <- (firstn_skipn 254 bs). apply in_or_app. now left. }
  assert (L1 : length (firstn 254 bs) = 254%nat)
    by (rewrite length_firstn; lia).
  pose proof (hexline_plain _ Hb1) as Hp.
  pose proof (hexline_length (firstn 254 bs)) as Hn. rewrite L1 in Hn.
  assert (S : hexline bs
              = hexline (firstn 254 bs)
                  ++ flat_map (fun b => 32 :: printf_02x b) (skipn 254 bs)).
  { unfold hexline. rewrite <- app_assoc, <- flat_map_app.
    now rewrite firstn_skipn. }
  rewrite S, <- app_assoc.
  pose proof (make_node_hasi_chars (firstn 254 bs) (hexline (firstn 254 bs))
                (hexline (firstn 254 bs)
                   ++ flat_map (fun b => 32 :: printf_02x b) (skipn 254 bs)
                   ++ LF :: rest)
                (flat_map (fun b => 32 :: printf_02x b) (skipn 254 bs)
                   ++ LF :: rest)
                cfg Hb1) as M.
  rewrite L1 in M. apply M; clear M S.
  - lia.
  - unfold fgets.
    destruct (hexline (firstn 254 bs) ++ _) eqn:E;
      [now destruct (hexline (firstn 254 bs))|]. rewrite <- E.
    rewrite fgets_chars_app
      by (try (now apply plain_no_newline); unfold MAX_ARGC; lia).
    rewrite Hn.
    change (MAX_ARGC * 3 + 1 - 1 - 1 - (5 + 3 * 254))%nat with 0%nat.
    cbn [fgets_chars fst snd]. now rewrite app_nil_r.
  - now apply line_string_plain.
Qed.

(** ** Sample blocks (afft, ifft) *)

(** The line [dump_block_afft] writes for the sample [i], without its
    newline. *)
Definition sample_line (prec : nat) (iq : list Z) (i : nat) : list Z :=
  printf_3d (Z.of_nat i) ++ [32]
    ++ printf_lf true prec (double_of_float (field_u32 iq (8 * i))) ++ [32]
    ++ printf_lf true prec (double_of_float (field_u32 iq (8 * i + 4))).

(** What [printf] writes for a double has no newline and is short, as
    it is for every float with [%.20lf]. *)
Definition printf_lf_short : Prop :=
  forall (b : bool) (p : nat) (d : Z),
    forallb (fun c => negb (c =? LF)) (printf_lf b p d) = true
    /\ (length (printf_lf b p d) <= 90)%nat.

Lemma iqdata_lines_text (prec : nat) (iq : list Z) (n : nat) :
  iqdata_lines prec iq n = text_of_lines (map (sample_line prec iq) (seq 0 n)).
Proof.
  unfold iqdata_lines, text_of_lines. generalize (seq 0 n) as l.
  induction l as [|i l IH]; [reflexivity|].
  cbn [flat_map map]. rewrite IH. unfold sample_line.
  now rewrite <- !app_assoc.
Qed.

Lemma forallb_repeat (P : Z -> bool) (x : Z) (n : nat) :
  P x = true -> forallb P (repeat x n) = true.
Proof. intros H. induction n as [|n IH]; cbn; [reflexivity|now rewrite H]. Qed.

Lemma printf_d_nonempty (v : Z) : printf_d v <> [].
Proof.
  unfold printf_d. destruct (v <? 0); [discriminate|].
  apply (print_base_nonempty 10 63).
Qed.

Lemma printf_3d_head (v : Z) :
  exists c r, printf_3d v = c :: r /\ (c =? NUL) = false.
Proof.
  unfold printf_3d. cbv zeta.
  destruct (3 - length (printf_d v))%nat as [|k].
  - cbn [repeat app].
    pose proof (printf_d_plain v) as P. pose proof (printf_d_nonempty v) as N.
    destruct (printf_d v) as [|c r]; [congruence|].
    exists c, r. split; [reflexivity|].
    cbn [forallb] in P. apply andb_true_iff in P. destruct P as [P _].
    unfold plain_char in P. apply andb_true_iff in P. destruct P as [_ P].
    now apply negb_true_iff in P.
  - cbn [repeat app]. now exists 32, (repeat 32 k ++ printf_d v).
Qed.

Lemma printf_3d_line (v : Z) :
  forallb (fun c => negb (c =? LF)) (printf_3d v) = true
  /\ (length (printf_3d v) <= 65)%nat.
Proof.
  unfold printf_3d. cbv zeta. split.
  - rewrite forallb_app, forallb_repeat by reflexivity.
    apply plain_no_newline, printf_d_plain.
  - rewrite length_app, repeat_length.
    pose proof (printf_d_length v). lia.
Qed.

Lemma sample_line_nonblank (prec : nat) (iq : list Z) (i : nat) :
  printf_lf_short -> nonblank_line (sample_line prec iq i) = true.
Proof.
  intros H. unfold nonblank_line, fits_line, sample_line.
  destruct (printf_3d_line (Z.of_nat i)) as [P1 P2].
  destruct (H true prec (double_of_float (field_u32 iq (8 * i)))) as [A1 A2].
  destruct (H true prec (double_of_float (field_u32 iq (8 * i + 4))))
    as [B1 B2].
  rewrite !forallb_app, P1, A1, B1. cbn [forallb andb].
  change (negb (32 =? LF)) with true. cbn [andb].
  rewrite !length_app. cbn [length].
  match goal with
  | |- (?a <? 255)%nat && _ = true =>
      replace (a <? 255)%nat with true by (symmetry; apply Nat.ltb_lt; lia)
  end.
  cbn [andb].
  destruct (printf_3d_head (Z.of_nat i)) as (c & r & E & Hc).
  rewrite E. unfold strlen. cbn [app cstring]. rewrite Hc. reflexivity.
Qed.

Lemma make_node_iqdata_bad_count (k : fourcc) (cfg : config)
  (lines : list (list Z)) (rest : list Z) :
  forallb nonblank_line lines = true ->
  Z.of_nat (length lines) mod 3 <> 0 ->
  make_node_iqdata k cfg (text_of_lines lines ++ LF :: rest)
  = Err 1 [D_bad_number_of_lines (Z.of_nat (length lines)) k].
Proof.
  intros H Hm. unfold make_node_iqdata.
  rewrite count_iqdata_lines_record by assumption.
  destruct (Z.leb_spec (Z.of_nat (length lines)) 0) as [Hz|Hp].
  - exfalso. apply Hm. replace (Z.of_nat (length lines)) with 0 by lia.
    reflexivity.
  - rewrite Z.rem_mod_nonneg by lia.
    destruct (Z.eqb_spec (Z.of_nat (length lines) mod 3) 0); [contradiction|].
    reflexivity.
Qed.

Lemma iqdata_dump_make (k : fourcc) (prec : nat) (mem : list Z) (n : node)
  (cfg cfg' : config) (rest : list Z) :
  printf_lf_short ->
  bin_format cfg = BINFORMAT_CVIQ -> bin_type cfg = BINTYPE_FLT4 ->
  sizeof_block_iqdata_float <= size n ->
  (size n / sizeof_block_iqdata_float) mod 3 <> 0 ->
  exists body,
    dump_block_iqdata k prec mem n cfg
    = Ok (printf_s (strkey k) ++ [LF] ++ body ++ [LF], cfg)
    /\ make_node_iqdata k cfg' (body ++ LF :: rest)
       = Err 1 [D_bad_number_of_lines (size n / sizeof_block_iqdata_float) k].
Proof.
  intros Hp Hf Ht Hs Hm.
  exists (iqdata_lines prec (node_bytes mem n)
            (Z.to_nat (size n / sizeof_block_iqdata_float))).
  split.
  - unfold dump_block_iqdata. rewrite Hf, Ht.
    destruct (Z.ltb_spec (size n) sizeof_block_iqdata_float); [lia|].
    reflexivity.
  - rewrite iqdata_lines_text.
    assert (Q : 0 <= size n / sizeof_block_iqdata_float)
      by (apply Z.div_pos; unfold sizeof_block_iqdata_float in *; lia).
    assert (L : Z.of_nat (length (map (sample_line prec (node_bytes mem n))
                  (seq 0 (Z.to_nat (size n / sizeof_block_iqdata_float)))))
                = size n / sizeof_block_iqdata_float)
      by (rewrite length_map, length_seq; lia).
    rewrite <- L at 2.
    apply make_node_iqdata_bad_count.
    + apply forallb_forall. intros l Hl. apply in_map_iff in Hl.
      destruct Hl as (i & <- & _). now apply sample_line_nonblank.
    + now rewrite L.
Qed.

(** A block of samples whose number is not a multiple of 3 does not come
    back: [dump_block_afft] writes one line for each sample, and
    [make_node_afft] refuses a record whose lines are not a multiple of
    3 in number; the same holds for ifft. *)
Theorem iqdata_dump_is_not_read_back (mem : list Z) (n : node)
  (cfg cfg' : config) (rest : list Z) :
  printf_lf_short ->
  bin_format cfg = BINFORMAT_CVIQ -> bin_type cfg = BINTYPE_FLT4 ->
  sizeof_block_iqdata_float <= size n ->
  (size n / sizeof_block_iqdata_float) mod 3 <> 0 ->
  (exists body,
     dump_block_afft mem n cfg
     = Ok (printf_s (strkey KEY_afft) ++ [LF] ++ body ++ [LF], cfg)
     /\ make_node_afft cfg' (body ++ LF :: rest)
        = Err 1 [D_bad_number_of_lines
                   (size n / sizeof_block_iqdata_float) KEY_afft])
  /\ (exists body,
        dump_block_ifft mem n cfg
        = Ok (printf_s (strkey KEY_ifft) ++ [LF] ++ body ++ [LF], cfg)
        /\ make_node_ifft cfg' (body ++ LF :: rest)
           = Err 1 [D_bad_number_of_lines
                      (size n / sizeof_block_iqdata_float) KEY_ifft]).
Proof.
  intros Hp Hf Ht Hs Hm. split.
  - now apply iqdata_dump_make.
  - now apply iqdata_dump_make.
Qed.

(** ** The format block (fbin) *)

(** A character that [%s] takes and a line of text can hold. *)
Definition word_char (c : Z) : bool := negb (isspace c) && plain_char c.

Lemma word_chars_plain (w : list Z) :
  forallb word_char w = true -> forallb plain_char w = true.
Proof.
  intros H. rewrite forallb_forall in *. intros x Hx. specialize (H x Hx).
  unfold word_char in H. now apply andb_true_iff in H.
Qed.

Lemma plain_no_nul (l : list Z) :
  forallb plain_char l = true ->
  forallb (fun c => negb (c =? NUL)) l = true.
Proof.
  intros H. rewrite forallb_forall in *. intros x Hx. specialize (H x Hx).
  unfold plain_char in H. now apply andb_true_iff in H.
Qed.

(** [name:%4s] on a line that gives the name and a word of four
    characters: the word and a NUL, five bytes. *)
Lemma sscanf1_word (name w : list Z) :
  length w = 4%nat -> forallb word_char w = true ->
  sscanf1 (name ++ w) (mkformat name (Conv_s 4)) = ScanOK (w ++ [NUL]).
Proof.
  intros Hl Hw. unfold sscanf1. cbn [label conversion].
  rewrite match_literal_prefix. cbn [convert].
  destruct w as [|a [|b [|c [|d [|e w]]]]]; try discriminate Hl.
  cbn [forallb] in Hw.
  apply andb_true_iff in Hw. destruct Hw as [Wa Hw].
  apply andb_true_iff in Hw. destruct Hw as [Wb Hw].
  apply andb_true_iff in Hw. destruct Hw as [Wc Hw].
  apply andb_true_iff in Hw. destruct Hw as [Wd _].
  assert (N : forall x, word_char x = true -> isspace x = false).
  { intros x Hx. unfold word_char in Hx. apply andb_true_iff in Hx.
    destruct Hx as [Hx _]. now apply negb_true_iff in Hx. }
  cbn [skip_space take_nonspace].
  rewrite !(N a Wa), !(N b Wb), !(N c Wc), !(N d Wd). reflexivity.
Qed.

(** An fbin block whose two codes are words of four characters does not
    come back: [dump_block_fbin] writes the two codes as text and notes
    them in the settings, and [make_node_fbin], reading the line of the
    type code, stores its four characters and a NUL from offset 4 of the
    block of 8 bytes it has made, one byte more than the block has.
    [gen_block_fbin] on a node with the two codes writes the header and
    the codes as the file has them. *)
Theorem fbin_text_overruns_block (kf kt : fourcc) (pre after rest : list Z)
  (cfg cfg' : config) :
  0 <= kf < 2 ^ 32 -> 0 <= kt < 2 ^ 32 ->
  forallb word_char (be_encode 4 kf) = true ->
  forallb word_char (be_encode 4 kt) = true ->
  let payload := host_encode 4 kf ++ host_encode 4 kt in
  let noted (c : config) :=
    mkconfig kf kt (index c) (scalar_one c) (scalar_two c) in
  exists body,
    dump_block_fbin (pre ++ payload ++ after)
      (mknode KEY_fbin sizeof_block_fbin (BufPtr (length pre))) cfg
    = Ok (printf_s (strkey KEY_fbin) ++ [LF] ++ body, noted cfg)
    /\ make_node_fbin cfg' (body ++ rest) = Overrun
    /\ gen_block_fbin (mknode KEY_fbin sizeof_block_fbin (HeapPtr payload))
       = wire_header KEY_fbin sizeof_block_fbin
           ++ be_encode 4 kf ++ be_encode 4 kt.
Proof.
  intros Hkf Hkt Wf Wt payload noted.
  pose proof (word_chars_plain _ Wf) as Pf.
  pose proof (word_chars_plain _ Wt) as Pt.
  assert (PE : payload = flat_map (host_encode 4) [kf; kt])
    by (unfold payload; cbn [flat_map]; now rewrite app_nil_r).
  assert (F0 : forall X, field_u32 (payload ++ X) 0 = kf)
    by (intros X; rewrite PE; now apply (field_u32_words [] kf [kt] X)).
  assert (F1 : forall X, field_u32 (payload ++ X) 4 = kt)
    by (intros X; rewrite PE; now apply (field_u32_words [kf] kt [] X)).
  exists (text_of_lines [str "format:" ++ be_encode 4 kf;
                         str "type:" ++ be_encode 4 kt] ++ [LF]).
  split; [|split].
  - unfold dump_block_fbin. cbn [size].
    change (sizeof_block_fbin <? sizeof_block_fbin) with false. cbv iota zeta.
    rewrite node_bytes_at, F0, F1, !strkey_be.
    unfold printf_s. rewrite !cstring_text by (now apply plain_no_nul).
    change (cstring (be_encode 4 KEY_fbin)) with (be_encode 4 KEY_fbin).
    unfold text_of_lines. cbn [flat_map].
    now rewrite <- !app_assoc.
  - assert (FL : forallb field_line
                   [str "format:" ++ be_encode 4 kf;
                    str "type:" ++ be_encode 4 kt] = true).
    { cbn [forallb].
      rewrite !field_line_name;
        try reflexivity; try assumption;
        rewrite be_encode_length; cbn [length str]; lia. }
    rewrite <- app_assoc. cbn [app].
    unfold make_node_fbin, read_field.
    rewrite !read_parameter_record by exact FL.
    cbn [first_response].
    rewrite (sscanf1_mismatch (str "type:") (str "format:" ++ be_encode 4 kf)
               (Conv_s 4) eq_refl).
    rewrite !sscanf1_word by (assumption || apply be_encode_length).
    cbn [bind]. rewrite !length_app, !be_encode_length.
    change (0 + (4 + length [NUL])
            <=? length (repeat 0%Z (Z.to_nat sizeof_block_fbin)))%nat with true.
    cbv iota. cbn [bind]. cbv zeta. rewrite !store_length.
    reflexivity.
  - unfold gen_block_fbin, gen_field. cbn [node_bytes data].
    rewrite gen_header_be. cbn [key size]. rewrite PE.
    rewrite (slice_flat_words [] kf [kt]
             : slice (flat_map (host_encode 4) [kf; kt]) 0 4 = _).
    rewrite (slice_flat_words [kf] kt []
             : slice (flat_map (host_encode 4) [kf; kt]) 4 4 = _).
    rewrite !endian_fixup_host_encode by (now left).
    unfold wire_header. now rewrite <- !app_assoc.
Qed.

(** The NUL that [%4s] stores behind the four characters of the type
    code: the value is five bytes long, and it is stored at offset 4 of
    a block of 8 bytes. *)
Theorem fbin_type_is_five_bytes (w rest : list Z) :
  length w = 4%nat -> forallb word_char w = true ->
  read_parameter (str "type:" ++ w ++ LF :: rest)
    (mkformat (str "type:") (Conv_s 4))
  = Ok (Some (w ++ [NUL]))
  /\ 4 + Z.of_nat (length (w ++ [NUL])) = sizeof_block_fbin + 1.
Proof.
  intros Hl Hw. split.
  - rewrite app_assoc. unfold read_parameter.
    rewrite length_app. cbn [length]. rewrite Nat.add_succ_r.
    rewrite read_parameter_loop_line.
    + now rewrite sscanf1_word.
    + apply field_line_text, field_line_name;
        try reflexivity; try (now apply word_chars_plain).
      rewrite Hl. cbn [length str]. lia.
    + discriminate.
  - rewrite length_app, Hl. reflexivity.
Qed.

(** ** A last block that is cut short *)

(** The last block of a buffer, a leaf whose header declares more bytes
    than are left: the node gets the number of bytes left as its size,
    the cut is reported, the leaf is handed to its fixup function with
    that size, and the loop ends there, whatever that function
    returned. *)
Theorem parse_block_clamps_final_leaf
  (fuel : nat) (pre payload : list Z) (k sz err : Z) (mem3 : list Z)
  (d2 : list diag) :
  0 <= k < 2 ^ 32 -> 0 <= sz < 2 ^ 32 -> superblock k = false ->
  Z.of_nat (length payload) < sz ->
  fixup_block (pre ++ (host_encode 4 k ++ host_encode 4 sz) ++ payload)
    (mknode k (Z.of_nat (length payload)) (BufPtr (length pre + 8)))
  = Some (err, mem3, d2) ->
  parse_block (S fuel) (pre ++ wire_header k sz ++ payload) (length pre)
    (8 + Z.of_nat (length payload))
  = Parsed mem3
      [mknode k (Z.of_nat (length payload)) (BufPtr (length pre + 8))]
      (D_size_truncated k sz (Z.of_nat (length payload)) :: d2).
Proof.
  intros Hk Hsz Hs Hr Hf.
  set (r := Z.of_nat (length payload)) in *.
  assert (R0 : 0 <= r) by (unfold r; lia).
  cbn [parse_block].
  destruct (Z.leb_spec (8 + r) 0); [lia|].
  unfold wire_header. rewrite <- !app_assoc.
  assert (B : in_bounds (pre ++ be_encode 4 k ++ be_encode 4 sz ++ payload)
                (length pre) 8 = true).
  { unfold in_bounds. apply Nat.leb_le.
    rewrite !length_app, !be_encode_length. lia. }
  rewrite B. cbn [negb].
  rewrite fixup_word_app by now left.
  rewrite slice_app_n by apply host_encode_length.
  rewrite host_decode_encode_4 by assumption.
  rewrite fixup_word_app_off by (try apply host_encode_length; now left).
  rewrite slice_app_off by apply host_encode_length.
  rewrite host_decode_encode_4 by assumption.
  unfold sizeof_block_header.
  replace (8 + r - 8) with r by lia.
  rewrite (wrap64_small r) by lia.
  destruct (Z.gtb_spec sz r); [|lia].
  rewrite (wrap32_small r) by lia.
  rewrite Hs.
  rewrite <- app_assoc in Hf. rewrite Hf.
  rewrite Z.sub_diag.
  change (wrap64 0) with 0.
  assert (E : forall m o, parse_block fuel m o 0 = Parsed m [] [])
    by (intros m o; now destruct fuel).
  rewrite E. cbn [app]. now rewrite app_nil_r.
Qed.

(** ** The user flags of a sign block *)

Lemma firstn_plus (l : list Z) (n m : nat) :
  firstn (n + m) l = firstn n l ++ firstn m (skipn n l).
Proof.
  revert l. induction n as [|n IH]; intros l; [reflexivity|].
  destruct l as [|x l]; cbn [Nat.add firstn skipn app].
  - now rewrite firstn_nil.
  - now rewrite IH.
Qed.

Lemma skipn_plus (l : list Z) (a n : nat) :
  skipn n (skipn a l) = skipn (a + n) l.
Proof.
  revert l. induction a as [|a IH]; intros l; [reflexivity|].
  destruct l as [|x l]; cbn [Nat.add skipn].
  - now rewrite skipn_nil.
  - apply IH.
Qed.

Lemma slice_join (l : list Z) (a n b m : nat) :
  b = (a + n)%nat -> slice l a n ++ slice l b m = slice l a (n + m).
Proof. intros ->. unfold slice. now rewrite firstn_plus, skipn_plus. Qed.

(** A store further on in the buffer leaves a field as it is. *)
Lemma slice_store_later (buf : list Z) (off n off2 : nat) (bytes : list Z) :
  (off + n <= off2)%nat ->
  slice (store buf off2 bytes) off n = slice buf off n.
Proof.
  intros H. unfold slice, store.
  destruct (Nat.le_gt_cases off2 (length buf)) as [L|L].
  - rewrite skipn_app, length_firstn, Nat.min_l by lia.
    replace (off - off2)%nat with 0%nat by lia. cbn [skipn].
    rewrite firstn_app, length_skipn, length_firstn, Nat.min_l by lia.
    replace (n - (off2 - off))%nat with 0%nat by lia.
    cbn [firstn]. rewrite app_nil_r.
    rewrite skipn_firstn_comm, firstn_firstn.
    now rewrite Nat.min_l by lia.
  - rewrite (firstn_all2 (n := off2) buf) by lia.
    replace (length buf - off2)%nat with 0%nat by lia. cbn [firstn app].
    rewrite (skipn_all2 buf (n := off2 + length bytes)) by lia.
    now rewrite app_nil_r.
Qed.

(** [gen_block_sign] writes the 208 bytes of the block as they are in
    memory. *)
Lemma gen_block_sign_raw (n : node) (sign : list Z) :
  data n = HeapPtr sign -> length sign = 208%nat ->
  gen_block_sign n = gen_header n ++ sign.
Proof.
  intros Hd Hl. unfold gen_block_sign, gen_raw, node_bytes. rewrite Hd.
  cbv zeta. f_equal. rewrite !app_assoc.
  rewrite (slice_join sign 0 4 4 4 eq_refl).
  rewrite (slice_join sign 0 (4 + 4) 8 4 eq_refl).
  rewrite (slice_join sign 0 (4 + 4 + 4) 12 4 eq_refl).
  rewrite (slice_join sign 0 (4 + 4 + 4 + 4) 16 SIZE_DESCRIPTION eq_refl).
  rewrite (slice_join sign 0 (4 + 4 + 4 + 4 + SIZE_DESCRIPTION) 80
             SIZE_OWNERNAME eq_refl).
  rewrite (slice_join sign 0
             (4 + 4 + 4 + 4 + SIZE_DESCRIPTION + SIZE_OWNERNAME) 144
             SIZE_COMMENT eq_refl).
  pose proof (slice_whole sign) as W. rewrite Hl in W. exact W.
Qed.

(** A field that was read leaves the block its length and the fields
    before it their bytes, and holds what was read for it. *)
Lemma read_field_length (fd : list Z) (f : format) (off : nat)
  (blk blk' : list Z) :
  read_field fd f off blk = Ok blk' -> length blk' = length blk.
Proof.
  unfold read_field.
  destruct (read_parameter fd f) as [[b|]|? ?|]; cbn [bind];
    try discriminate.
  - destruct (off + length b <=? length blk)%nat; [|discriminate].
    intros H. inversion H. apply store_length.
  - intros H. now inversion H.
Qed.

Lemma read_field_before (fd : list Z) (f : format) (off : nat)
  (blk blk' : list Z) (o n : nat) :
  read_field fd f off blk = Ok blk' -> (o + n <= off)%nat ->
  slice blk' o n = slice blk o n.
Proof.
  unfold read_field.
  destruct (read_parameter fd f) as [[b|]|? ?|]; cbn [bind];
    try discriminate.
  - destruct (off + length b <=? length blk)%nat; [|discriminate].
    intros H L. inversion H. now apply slice_store_later.
  - intros H _. now inversion H.
Qed.

Lemma read_field_at (fd : list Z) (f : format) (off : nat)
  (blk blk' bytes : list Z) :
  read_parameter fd f = Ok (Some bytes) ->
  read_field fd f off blk = Ok blk' ->
  slice blk' off (length bytes) = bytes.
Proof.
  intros R. unfold read_field. rewrite R. cbn [bind].
  destruct (Nat.leb_spec (off + length bytes) (length blk)) as [L|_];
    [|discriminate].
  intros H. inversion H. now apply slice_store_at.
Qed.

(** The user flags that [make_node_sign] reads with [%x] are stored as
    the host lays an integer out, and [gen_block_sign], whose fixups are
    commented out, writes them as they are stored: on a little-endian
    host they go to the file least significant byte first, where the
    decoder expects the most significant byte first. *)
Theorem sign_userflags_host_order
  (cfg cfg' : config) (fd fd' : list Z) (n : node) (u : Z) :
  make_node_sign cfg fd = Ok (n, cfg', fd') ->
  read_parameter fd (mkformat (str "userflags:") Conv_x)
  = Ok (Some (host_encode 4 u)) ->
  exists sign,
    data n = HeapPtr sign
    /\ slice sign 12 4 = host_encode 4 u
    /\ gen_block_sign n = gen_header n ++ sign
    /\ (little_endian = true -> slice sign 12 4 = rev (be_encode 4 u)).
Proof.
  intros Hm Hu. unfold make_node_sign in Hm. cbv zeta in Hm.
  destruct (read_field fd (mkformat (str "version:") (Conv_c 4)) 0 _)
    as [s1|? ?|] eqn:E1; cbn [bind] in Hm; try discriminate Hm.
  destruct (read_field fd (mkformat (str "filetype:") (Conv_c 4)) 4 s1)
    as [s2|? ?|] eqn:E2; cbn [bind] in Hm; try discriminate Hm.
  destruct (read_field fd (mkformat (str "sitecode:") (Conv_c 4)) 8 s2)
    as [s3|? ?|] eqn:E3; cbn [bind] in Hm; try discriminate Hm.
  destruct (read_field fd (mkformat (str "userflags:") Conv_x) 12 s3)
    as [s4|? ?|] eqn:E4; cbn [bind] in Hm; try discriminate Hm.
  destruct (read_field fd (mkformat (str "description:")
                             (Conv_c SIZE_DESCRIPTION)) 16 s4)
    as [s5|? ?|] eqn:E5; cbn [bind] in Hm; try discriminate Hm.
  destruct (read_field fd (mkformat (str "ownername:")
                             (Conv_c SIZE_OWNERNAME)) 80 s5)
    as [s6|? ?|] eqn:E6; cbn [bind] in Hm; try discriminate Hm.
  destruct (read_field fd (mkformat (str "comment:")
                             (Conv_c SIZE_COMMENT)) 144 s6)
    as [s7|? ?|] eqn:E7; cbn [bind] in Hm; try discriminate Hm.
  inversion Hm; subst n cfg' fd'; clear Hm.
  assert (L : length s7 = 208%nat).
  { rewrite (read_field_length _ _ _ _ _ E7), (read_field_length _ _ _ _ _ E6),
      (read_field_length _ _ _ _ _ E5), (read_field_length _ _ _ _ _ E4),
      (read_field_length _ _ _ _ _ E3), (read_field_length _ _ _ _ _ E2),
      (read_field_length _ _ _ _ _ E1).
    reflexivity. }
  assert (U : slice s7 12 4 = host_encode 4 u).
  { rewrite (read_field_before _ _ _ _ _ 12 4 E7) by lia.
    rewrite (read_field_before _ _ _ _ _ 12 4 E6) by lia.
    rewrite (read_field_before _ _ _ _ _ 12 4 E5) by lia.
    pose proof (read_field_at _ _ _ _ _ _ Hu E4) as A.
    now rewrite host_encode_length in A. }
  exists s7. split; [reflexivity|]. split; [exact U|]. split.
  - now apply gen_block_sign_raw.
  - intros LE. rewrite U. unfold host_encode. now rewrite LE.
Qed.

(** ** A hasi line of many tokens *)

(** A character that a token of the line can hold. *)
Definition token_char (c : Z) : bool := negb (c =? 32) && plain_char c.

(** The line of the label and the given characters, each a token of its
    own. *)
Definition token_line (ds : list Z) : list Z :=
  str "data:" ++ flat_map (fun c => [32; c]) ds.

Lemma token_line_length (ds : list Z) :
  length (token_line ds) = (5 + 2 * length ds)%nat.
Proof.
  unfold token_line. rewrite length_app.
  change (length (str "data:")) with 5%nat. f_equal.
  induction ds as [|c ds IH]; [reflexivity|].
  cbn [flat_map app length]. rewrite IH. lia.
Qed.

Lemma token_line_plain (ds : list Z) :
  forallb token_char ds = true -> forallb plain_char (token_line ds) = true.
Proof.
  intros H. unfold token_line. rewrite forallb_app.
  change (forallb plain_char (str "data:")) with true. cbn [andb].
  induction ds as [|c ds IH]; [reflexivity|].
  cbn [forallb] in H. apply andb_true_iff in H. destruct H as [Hc H].
  unfold token_char in Hc. apply andb_true_iff in Hc. destruct Hc as [_ Hc].
  cbn [flat_map app forallb]. change (plain_char 32) with true.
  rewrite Hc. cbn [andb]. now apply IH.
Qed.

Lemma tokens_single (ds : list Z) :
  forallb token_char ds = true ->
  forall cur : list Z,
    cur <> [] ->
    tokens cur (flat_map (fun c => [32; c]) ds)
    = rev cur :: map (fun c => [c]) ds.
Proof.
  induction ds as [|c ds IH]; intros H cur Hc.
  - cbn [flat_map tokens map]. now destruct cur.
  - cbn [forallb] in H. apply andb_true_iff in H. destruct H as [Hd H].
    unfold token_char in Hd. apply andb_true_iff in Hd. destruct Hd as [Hd _].
    apply negb_true_iff in Hd.
    cbn [flat_map map app tokens]. change (32 =? 32) with true. cbv iota.
    destruct cur as [|x cur]; [congruence|].
    rewrite Hd. f_equal.
    apply (IH H [c]). discriminate.
Qed.

(** A line of 256 or more tokens behind the label: the loop of
    [make_node_hasi] that collects the tokens stores the pointer to the
    token number 256 behind its array of 256 pointers.  (Tokens of one
    character each; up to 380 of them make a line that [fgets] reads in
    one piece.) *)
Theorem hasi_many_tokens_overrun (ds rest : list Z) (cfg : config) :
  forallb token_char ds = true ->
  (256 <= length ds <= 380)%nat ->
  make_node_hasi cfg (token_line ds ++ LF :: rest) = Overrun.
Proof.
  intros Hd Hl.
  pose proof (token_line_plain ds Hd) as Hp.
  pose proof (token_line_length ds) as Hn.
  unfold make_node_hasi.
  assert (G : fgets (MAX_ARGC * 3 + 1 - 1) (token_line ds ++ LF :: rest)
              = Some (token_line ds ++ [LF], rest)).
  { unfold fgets.
    destruct (token_line ds ++ LF :: rest) eqn:E;
      [now destruct (token_line ds)|]. rewrite <- E.
    rewrite fgets_chars_app
      by (try (now apply plain_no_newline); unfold MAX_ARGC; lia).
    destruct (MAX_ARGC * 3 + 1 - 1 - 1 - length (token_line ds))%nat eqn:R;
      [unfold MAX_ARGC in R; lia|].
    reflexivity. }
  rewrite G.
  destruct (line_string_plain (token_line ds) Hp) as [_ ->].
  assert (T : tokens [] (token_line ds) = str "data:" :: map (fun c => [c]) ds).
  { unfold token_line.
    change (tokens [] (str "data:" ++ flat_map (fun c => [32; c]) ds))
      with (tokens (rev (str "data:")) (flat_map (fun c => [32; c]) ds)).
    rewrite tokens_single by (assumption || discriminate).
    now rewrite rev_involutive. }
  rewrite T. cbn [tl]. rewrite length_map.
  destruct (Nat.eqb_spec (length ds) 0); [lia|].
  unfold MAX_ARGC at 1.
  destruct (Nat.leb_spec 256 (length ds)); [reflexivity|lia].
Qed.

(** ** A text without a record *)

(** Blank lines and lines of fields are passed over, whatever their
    number, one round of the loop each. *)
Lemma rsgen_loop_passed_over (lines : list (list Z)) :
  Forall (fun l => l = [] \/ field_line l = true) lines ->
  forall (fuel : nat) (line : list Z) (cfg : config) (line_count : Z)
         (nodes : list node),
    length line = SIZE_LINE -> (length lines <= fuel)%nat ->
    exists line_count1,
      rsgen_loop fuel line cfg (text_of_lines lines) line_count nodes
      = Ok (nodes, line_count1).
Proof.
  induction 1 as [|l lines Hl _ IH]; intros fuel line cfg lc nodes Hlen Hf.
  - exists lc. apply rsgen_loop_eof.
  - destruct fuel as [|fuel]; [cbn [length] in Hf; lia|].
    cbn [length] in Hf.
    rewrite <- (app_nil_r (text_of_lines (l :: lines))).
    rewrite text_of_lines_cons, app_nil_r.
    destruct Hl as [->|Hl].
    + destruct (rsgen_loop_blank_line fuel line cfg (text_of_lines lines)
                  lc nodes Hlen) as (line1 & Hlen1 & E).
      cbn [app]. rewrite E. apply IH; [assumption|lia].
    + destruct (rsgen_loop_field_line fuel line cfg l (text_of_lines lines)
                  lc nodes Hlen Hl) as (line1 & Hlen1 & E).
      rewrite E. apply IH; [assumption|lia].
Qed.

(** On a text that has no line of a key, only blank lines and lines of
    fields (or no line at all), [rsgen] makes no node, and the pointer
    it hands to [free_all_nodes_and_data] at the end is still the
    address of its local variable [root]: the run ends in a call of
    [free] on memory that [malloc] did not give. *)
Theorem rsgen_without_records (line0 : list Z) (lines : list (list Z)) :
  length line0 = SIZE_LINE ->
  Forall (fun l => l = [] \/ field_line l = true) lines ->
  rsgen line0 (text_of_lines lines) = Undefined.
Proof.
  intros Hlen Hl. unfold rsgen.
  destruct (rsgen_loop_passed_over lines Hl (length (text_of_lines lines))
              line0 config0 0 [] Hlen (text_of_lines_length lines)) as [lc E].
  now rewrite E.
Qed.

(** ** Steps that write to no memory of their own *)

(** No dump function ends in a write outside a block: the last case of
    [dump_list] is never taken. *)
Lemma dump_of_defined (f : block_functions) (mem : list Z) (n : node)
  (cfg : config) :
  dump_of f mem n cfg <> Overrun.
Proof.
  destruct f; cbn [dump_of];
    unfold dump_block_aqft, dump_block_head, dump_block_sign, dump_block_mcda,
      dump_block_dbrf, dump_block_cnst, dump_block_hasi, dump_block_swep,
      dump_block_fbin, dump_block_body, dump_block_rtag, dump_block_gps1,
      dump_block_indx, dump_block_scal, dump_block_afft, dump_block_ifft,
      dump_block_end, dump_block_iqdata;
    repeat match goal with
           | |- (if ?c then _ else _) <> _ => destruct c
           end;
    discriminate.
Qed.

(** The samples are stored within the block that was made for them. *)
Lemma read_iqdata_loop_defined (todo : nat) :
  forall (sample_count : nat) (iqdata fd : list Z),
    read_iqdata_loop todo sample_count iqdata fd <> Overrun.
Proof.
  induction todo as [|todo IH]; intros sc iq fd; cbn [read_iqdata_loop].
  - discriminate.
  - destruct (fgets SIZE_LINE fd) as [[chars fd1]|]; [|discriminate].
    destruct (strlen (line_string chars) =? 0); [discriminate|].
    destruct (sscanf_iq (line_string chars)) as [[i q]|]; [|discriminate].
    apply IH.
Qed.

End Host.


(** * Concrete runs *)

(** A file cut in the payload of its root block: the AQFT header says 100
    bytes, 4 follow. *)
Definition truncated_root_file : list Z :=
  be_encode 4 KEY_AQFT ++ be_encode 4 100 ++ [1; 2; 3; 4].

(** C5.  The AQFT block of [truncated_root_file] declares more than is
    left; its size is cut down to the 4 bytes left and the cut reported,
    but then its payload is parsed as blocks, and the header of the first
    one is read from 4 bytes of the file and 4 bytes behind its end. *)
Theorem parse_truncated_root_reads_past_end (little_endian : bool) :
  parse_file little_endian truncated_root_file
  = OutOfBounds [D_size_truncated KEY_AQFT 100 4].
Proof. destruct little_endian; vm_compute; reflexivity. Qed.

(** C10.  A file of 4 bytes: the count of bytes left is 4, the header of
    8 bytes is read from behind the end of the buffer (and the count
    would go on as 2^64 - 4). *)
Theorem parse_short_file_reads_past_end (little_endian : bool) :
  parse_file little_endian [65; 81; 70; 84] = OutOfBounds []
  /\ wrap64 (4 - sizeof_block_header) = 2 ^ 64 - 4.
Proof. split; [destruct little_endian|]; vm_compute; reflexivity. Qed.

(** C4.  The text of an AQFT record and an END record, without a HEAD
    and a BODY record: [fixup_sizes] finds no block to add up, returns 1
    and sets no size; [rsgen] goes on all the same, writes the two blocks
    with the size 0 and exits with 0. *)
Theorem rsgen_writes_after_failed_fixup
  (little_endian : bool) (strtod : list Z -> option (Z * list Z))
  (float_of_double : Z -> Z) :
  fst (fixup_sizes [root_node; mknode KEY_AQFT 0 NullPtr;
                    mknode KEY_END 0 NullPtr]) = 1
  /\ rsgen little_endian strtod float_of_double (repeat 0 SIZE_LINE)
       (str "AQFT" ++ [LF; LF] ++ str "END " ++ [LF])
     = Exit 0 (wire_header KEY_AQFT 0 ++ wire_header KEY_END 0) [].
Proof. split; [|destruct little_endian]; vm_compute; reflexivity. Qed.

(** ** A sign block through rsdump and rsgen *)

(** The 208 bytes of a sign block with the given four bytes of user
    flags. *)
Definition sign_payload (userflags : list Z) : list Z :=
  str "1.00" ++ str "RSDT" ++ str "ABCD" ++ userflags
    ++ str "test file" ++ repeat 0 55
    ++ str "nobody" ++ repeat 0 58
    ++ str "none" ++ repeat 0 60.

(** A file with that sign block in its HEAD block and an rtag block in
    its BODY block; the size of the AQFT block is the one [rsgen]
    writes, [216 + 8 + 12 + 8]. *)
Definition sign_file (userflags : list Z) : list Z :=
  wire_header KEY_AQFT 244
    ++ wire_header KEY_HEAD 216
    ++ wire_header KEY_sign 208 ++ sign_payload userflags
    ++ wire_header KEY_BODY 12 ++ wire_leaf (L_rtag 7)
    ++ wire_header KEY_END 0.

(** The text of that file when the user flags are 01 02 03 04. *)
Definition sign_file_text : list Z :=
  text_of_lines
    [str "AQFT"; []; str "HEAD"; [];
     str "sign"; str "version:1.00"; str "filetype:RSDT";
     str "sitecode:ABCD"; str "userflags:1020304";
     str "description:test file"; str "ownername:nobody";
     str "comment:none"; [];
     str "BODY"; []; str "rtag"; str "rtag:7"; []; str "END "].

(** C1.  The file [sign_file [1; 2; 3; 4]] does not come back on a
    little-endian host: [rsdump] writes its text and exits with 0,
    [rsgen] reads the user flags into an integer of the host and
    [gen_block_sign] writes that integer without the fixup, so the file
    that is written has the four bytes the other way round, 04 03 02 01,
    and is the same otherwise.  On a big-endian host the same text gives
    the file back. *)
Theorem sign_userflags_come_back_reversed
  (printf_lf : bool -> nat -> Z -> list Z)
  (strtod : list Z -> option (Z * list Z))
  (double_of_float float_of_double : Z -> Z) (ctime : Z -> list Z) :
  rsdump true printf_lf double_of_float ctime (sign_file [1; 2; 3; 4]) false
  = Exit 0 sign_file_text []
  /\ rsgen true strtod float_of_double (repeat 0 SIZE_LINE) sign_file_text
     = Exit 0 (sign_file [4; 3; 2; 1]) []
  /\ sign_file [4; 3; 2; 1] <> sign_file [1; 2; 3; 4]
  /\ rsgen false strtod float_of_double (repeat 0 SIZE_LINE) sign_file_text
     = Exit 0 (sign_file [1; 2; 3; 4]) [].
Proof.
  split; [vm_compute; reflexivity|].
  split; [vm_compute; reflexivity|].
  split; [|vm_compute; reflexivity].
  intros H. vm_compute in H. discriminate H.
Qed.

(** ** A sample host

    A little-endian machine on which every double prints as [0.000000]
    and reads as zero, floats and doubles have the same bits, and every
    time prints as the same date: enough to run the integer fields. *)

Definition sample_printf_lf : bool -> nat -> Z -> list Z :=
  fun _ _ _ => str "0.000000".

Definition sample_strtod (s : list Z) : option (Z * list Z) :=
  match s with
  | [] => None
  | _ => Some (0, [])
  end.

Definition sample_float (z : Z) : Z := z.

Definition sample_ctime : Z -> list Z :=
  fun _ => str "Thu Jan  1 00:00:00 1970" ++ [LF; NUL].

(** ** The round trip on a sample file *)

Definition sample_head : list ileaf := [L_cnst 3 (-5) 32 2; L_mcda 3000000000].
Definition sample_body : list ileaf := [L_rtag 4000000000; L_indx 7].

Lemma integer_leaves_round_trip_witness :
  exists text,
    rsdump true sample_printf_lf sample_float sample_ctime
      (wire_file sample_head sample_body) false
    = Exit 0 text []
    /\ rsgen true sample_strtod sample_float (repeat 0 SIZE_LINE) text
       = Exit 0 (wire_file sample_head sample_body) [].
Proof.
  apply (integer_leaves_round_trip true sample_printf_lf sample_strtod
           sample_float sample_float sample_ctime sample_head sample_body
           (repeat 0 SIZE_LINE)).
  - apply Forall_cons; [cbn; lia|].
    apply Forall_cons; [cbn; lia|apply Forall_nil].
  - apply Forall_cons; [cbn; lia|].
    apply Forall_cons; [cbn; lia|apply Forall_nil].
  - discriminate.
  - discriminate.
  - vm_compute. reflexivity.
  - intros t. reflexivity.
  - reflexivity.
Defined.

(** ** The sizes of a sample list *)

Lemma fixup_sizes_root_size_witness :
  fixup_sizes [root_node; mknode KEY_AQFT 0 NullPtr;
               mknode KEY_HEAD 0 NullPtr; mknode KEY_dbrf 8 NullPtr;
               mknode KEY_BODY 0 NullPtr; mknode KEY_cnst 16 NullPtr;
               mknode KEY_END 0 NullPtr]
  = (0, [root_node; mknode KEY_AQFT 56 NullPtr;
         mknode KEY_HEAD 16 NullPtr; mknode KEY_dbrf 8 NullPtr;
         mknode KEY_BODY 24 NullPtr; mknode KEY_cnst 16 NullPtr;
         mknode KEY_END 0 NullPtr]).
Proof.
  refine (proj1 (fixup_sizes_root_size [root_node] []
                   [mknode KEY_dbrf 8 NullPtr] [mknode KEY_cnst 16 NullPtr] []
                   (mknode KEY_AQFT 0 NullPtr) (mknode KEY_HEAD 0 NullPtr)
                   (mknode KEY_BODY 0 NullPtr) (mknode KEY_END 0 NullPtr)
                   eq_refl eq_refl eq_refl eq_refl _ _ _ _ _ _ _)).
  - apply Forall_cons; [split; reflexivity|apply Forall_nil].
  - apply Forall_nil.
  - apply Forall_cons; [reflexivity|apply Forall_nil].
  - apply Forall_cons; [reflexivity|apply Forall_nil].
  - apply Forall_nil.
  - vm_compute. discriminate.
  - vm_compute. discriminate.
Defined.

Lemma calculate_sizes_between_sentinels_witness :
  calculate_head_size [root_node; mknode KEY_AQFT 0 NullPtr;
                       mknode KEY_HEAD 0 NullPtr; mknode KEY_dbrf 8 NullPtr;
                       mknode KEY_BODY 0 NullPtr; mknode KEY_cnst 16 NullPtr;
                       mknode KEY_END 0 NullPtr; mknode KEY_rtag 4 NullPtr]
  = 16
  /\ calculate_body_size [root_node; mknode KEY_AQFT 0 NullPtr;
                          mknode KEY_HEAD 0 NullPtr; mknode KEY_dbrf 8 NullPtr;
                          mknode KEY_BODY 0 NullPtr; mknode KEY_cnst 16 NullPtr;
                          mknode KEY_END 0 NullPtr; mknode KEY_rtag 4 NullPtr]
     = 24.
Proof.
  refine (calculate_sizes_between_sentinels
            [root_node; mknode KEY_AQFT 0 NullPtr]
            [mknode KEY_dbrf 8 NullPtr] [mknode KEY_cnst 16 NullPtr]
            [mknode KEY_rtag 4 NullPtr]
            (mknode KEY_HEAD 0 NullPtr) (mknode KEY_BODY 0 NullPtr)
            (mknode KEY_END 0 NullPtr)
            eq_refl eq_refl eq_refl _ _ _ _).
  - apply Forall_cons; [reflexivity|].
    apply Forall_cons; [reflexivity|apply Forall_nil].
  - apply Forall_cons; [reflexivity|apply Forall_nil].
  - apply Forall_cons; [reflexivity|apply Forall_nil].
  - apply Forall_cons; [reflexivity|apply Forall_nil].
Defined.

(** ** Time stamps on the sample host *)

(** An mcda block and a gps1 block with the time stamp 3000000000. *)
Definition sample_mem : list Z :=
  host_encode true 4 3000000000 ++ repeat 0 24 ++ host_encode true 4 3000000000.

Definition sample_mcda : node := mknode KEY_mcda 4 (BufPtr 0).
Definition sample_gps1 : node := mknode KEY_gps1 28 (BufPtr 4).

Lemma epoch_offset_round_trip_witness :
  (exists body,
     dump_block_mcda true sample_ctime sample_mem sample_mcda config0
     = Ok (printf_s (strkey true KEY_mcda) ++ [LF] ++ body, config0)
     /\ make_node_mcda true sample_strtod config0 (body ++ [])
        = Ok (mknode KEY_mcda sizeof_block_mcda
                (HeapPtr (host_encode true 4 3000000000)),
              config0, body ++ []))
  /\ (exists body gps1,
        dump_block_gps1 true sample_printf_lf sample_ctime sample_mem
          sample_gps1 config0
        = Ok (printf_s (strkey true KEY_gps1) ++ [LF] ++ body, config0)
        /\ make_node_gps1 true sample_strtod config0 (body ++ [])
           = Ok (mknode KEY_gps1 sizeof_block_gps1 (HeapPtr gps1),
                 config0, body ++ [])
        /\ field_u32 true gps1 24 = 3000000000).
Proof.
  apply (epoch_offset_round_trip true sample_printf_lf sample_strtod
           sample_ctime sample_mem sample_mcda sample_gps1 config0 config0
           [] 3000000000).
  - lia.
  - vm_compute. discriminate.
  - reflexivity.
  - vm_compute. discriminate.
  - reflexivity.
  - split; [reflexivity|exists 0, []; reflexivity].
  - split; [reflexivity|exists 0, []; reflexivity].
  - split; [reflexivity|exists 0, []; reflexivity].
Defined.

(** The time stamp 0: the dump function writes no line for it, and the
    make function, which looks for the line, fails on the record. *)
Lemma zero_time_stamp_is_not_read_back :
  dump_block_mcda true sample_ctime [0; 0; 0; 0] sample_mcda config0
  = Ok (str "mcda" ++ [LF] ++ [LF], config0)
  /\ make_node_mcda true sample_strtod config0 [LF]
     = Err 1 [D_cannot_find_parameter (mkformat (str "filetimestamp:") Conv_u)].
Proof. vm_compute. split; reflexivity. Qed.

(** ** An unknown key *)

Definition KEY_xxxx : fourcc := 0x78787878.

(** A text with an rtag record in its HEAD block and then a record of
    the key [xxxx]. *)
Definition unknown_text : list Z :=
  text_of_lines [str "AQFT"; []; str "HEAD"; []; str "rtag"; str "rtag:5"; []]
    ++ str "xxxx" ++ LF :: [].

Lemma unknown_key_stops_witness :
  rsgen_loop true sample_strtod sample_float 1 (repeat 0 SIZE_LINE) config0
    (str "xxxx" ++ LF :: []) 0 []
  = Err 1 ([D_cannot_locate KEY_xxxx] ++ [D_cannot_gen KEY_xxxx])
  /\ rsgen true sample_strtod sample_float (repeat 0 SIZE_LINE) unknown_text
     = Exit 1 [] ([D_cannot_locate KEY_xxxx] ++ [D_cannot_gen KEY_xxxx])
  /\ (exists line1,
        rsgen_round true sample_strtod sample_float
          (repeat 0 SIZE_LINE, config0, str "xxxx:5" ++ LF :: [], 0, [])
        = Some (line1, config0, [], 0 + 1, []))
  /\ rs_write true [mknode KEY_AQFT 0 NullPtr; mknode KEY_xxxx 0 NullPtr] []
     = (1, wire_header KEY_AQFT 0,
        [D_cannot_locate KEY_xxxx; D_cannot_write KEY_xxxx])
  /\ fixup_block true [] (mknode KEY_xxxx 0 NullPtr)
     = Some (1, [], [D_cannot_locate KEY_xxxx; D_cannot_fixup KEY_xxxx])
  /\ dump_list true sample_printf_lf sample_float sample_ctime []
       [mknode KEY_xxxx 0 NullPtr] config0 true []
     = (1, [], [D_cannot_locate KEY_xxxx; D_cannot_dump KEY_xxxx]).
Proof.
  destruct (unknown_key_stops true sample_printf_lf sample_strtod
              sample_float sample_float sample_ctime
              KEY_xxxx [D_cannot_locate KEY_xxxx] eq_refl)
    as (H1 & H2 & H3 & H4 & H5 & H6).
  split; [|split; [|split; [|split; [|split]]]].
  - apply (H1 0%nat (repeat 0 SIZE_LINE) config0 (str "xxxx") [] 0 []);
      reflexivity.
  - eapply (H2 (repeat 0 SIZE_LINE) unknown_text _ _ (str "xxxx") []);
      [reflexivity| |reflexivity|reflexivity].
    do 7 (eapply reaches_round; [vm_compute; reflexivity|]).
    apply reaches_here.
  - apply (H3 (repeat 0 SIZE_LINE) config0 (str "xxxx:5") [] 0 []);
      [reflexivity|reflexivity|cbn; lia|reflexivity].
  - apply (H4 [mknode KEY_AQFT 0 NullPtr] (mknode KEY_xxxx 0 NullPtr) [] []
             (wire_header KEY_AQFT 0) []); reflexivity.
  - apply H5. reflexivity.
  - apply H6. reflexivity.
Defined.

(** A file with a block of the key [xxxx] in its BODY block. *)
Definition unknown_file : list Z :=
  wire_header KEY_AQFT 36 ++ wire_header KEY_HEAD 12 ++ wire_leaf (L_rtag 1)
    ++ wire_header KEY_BODY 8 ++ wire_header KEY_xxxx 0
    ++ wire_header KEY_END 0.

(** A text with a record whose code, [ab:d], has a colon in it and no
    entry in the dictionary. *)
Definition colon_text : list Z :=
  text_of_lines [str "AQFT"; []; str "ab:d"; []; str "END "].

(** The decoder reports the key and goes on: the list has all six
    nodes, and a dump of the header alone exits with 0.  The text parser
    takes the line of a code with a colon for the line of a field:
    [rsgen] on [colon_text] reports nothing, writes the AQFT and the END
    block and exits with 0. *)
Lemma unknown_key_is_decoded :
  (exists mem,
     parse_file true unknown_file
     = Parsed mem
         [mknode KEY_AQFT 36 (BufPtr 8); mknode KEY_HEAD 12 (BufPtr 16);
          mknode KEY_rtag 4 (BufPtr 24); mknode KEY_BODY 8 (BufPtr 36);
          mknode KEY_xxxx 0 (BufPtr 44); mknode KEY_END 0 (BufPtr 52)]
         [D_cannot_locate KEY_xxxx; D_cannot_fixup KEY_xxxx])
  /\ rsdump true sample_printf_lf sample_float sample_ctime unknown_file true
     = Exit 0
         (str "AQFT" ++ [LF; LF] ++ str "HEAD" ++ [LF; LF]
            ++ str "rtag" ++ [LF] ++ str "rtag:1" ++ [LF; LF])
         [D_cannot_locate KEY_xxxx; D_cannot_fixup KEY_xxxx]
  /\ find_block_functions (be_decode (str "ab:d"))
     = (None, [D_cannot_locate (be_decode (str "ab:d"))])
  /\ rsgen true sample_strtod sample_float (repeat 0 SIZE_LINE) colon_text
     = Exit 0 (wire_header KEY_AQFT 0 ++ wire_header KEY_END 0) [].
Proof.
  split; [eexists; vm_compute; reflexivity|].
  split; [vm_compute; reflexivity|].
  split; vm_compute; reflexivity.
Qed.

(** ** Sample records *)

Lemma make_node_iqdata_multiple_of_three_witness :
  make_of true sample_strtod sample_float F_afft config0
    (text_of_lines [str "  0 0.0 0.0"] ++ LF :: [])
  = Err 1 [D_bad_number_of_lines (Z.of_nat (length [str "  0 0.0 0.0"])) KEY_afft]
  /\ make_of true sample_strtod sample_float F_ifft config0
       (text_of_lines [str "  0 0.0 0.0"] ++ LF :: [])
     = Err 1 [D_bad_number_of_lines (Z.of_nat (length [str "  0 0.0 0.0"])) KEY_ifft].
Proof.
  apply (make_node_iqdata_multiple_of_three true sample_strtod sample_float
           config0 [str "  0 0.0 0.0"] []).
  - reflexivity.
  - vm_compute. discriminate.
Defined.

(** A [strtod] that reads the numbers written with the digit 0 alone,
    [0], [000] or [0.00], as C's does: the double is zero and the rest
    begins behind the number.  It reads no other number. *)
Fixpoint skip_zeros (s : list Z) : list Z :=
  match s with
  | 48 :: r => skip_zeros r
  | _ => s
  end.

Definition number_goes_on (s : list Z) : bool :=
  match s with
  | c :: _ =>
      ((48 <=? c) && (c <=? 57)) || (c =? 46) || (c =? 101) || (c =? 69)
        || (c =? 120) || (c =? 88) || (c =? 112) || (c =? 80)
  | [] => false
  end.

Definition strtod_zero (s : list Z) : option (Z * list Z) :=
  match s with
  | 48 :: r =>
      let r1 := skip_zeros r in
      let r2 := match r1 with
                | 46 :: r' => skip_zeros r'
                | _ => r1
                end in
      if number_goes_on r2 then None else Some (0, r2)
  | _ => None
  end.

(** The settings an fbin block with the codes cviq and flt4 leaves. *)
Definition sample_iq_config : config :=
  mkconfig BINFORMAT_CVIQ BINTYPE_FLT4 0 0 0.

(** A line of 260 characters: [0 0 ], 251 times the digit 0, then
    [1 0 0]. *)
Definition long_sample_line : list Z :=
  str "0 0 " ++ repeat 48 251 ++ str "1 0 0".

(** A sample record of two lines that are not blank, the first one
    [long_sample_line]: [fgets] reads the long line in two pieces, of
    255 and of 5 characters, [count_iqdata_lines] counts three lines,
    and [make_node_afft] and [make_node_ifft] make a block of three
    samples, 24 bytes, of it. *)
Lemma long_sample_line_counts_twice :
  length long_sample_line = 260%nat
  /\ forallb (fun l => negb (strlen l =? 0)) [long_sample_line; str "2 0 0"]
     = true
  /\ Z.of_nat (length [long_sample_line; str "2 0 0"]) mod 3 = 2
  /\ count_iqdata_lines
       (text_of_lines [long_sample_line; str "2 0 0"] ++ [LF]) = 3
  /\ make_of true strtod_zero sample_float F_afft sample_iq_config
       (text_of_lines [long_sample_line; str "2 0 0"] ++ [LF])
     = Ok (mknode KEY_afft 24 (HeapPtr (repeat 0 24)), sample_iq_config, [LF])
  /\ make_of true strtod_zero sample_float F_ifft sample_iq_config
       (text_of_lines [long_sample_line; str "2 0 0"] ++ [LF])
     = Ok (mknode KEY_ifft 24 (HeapPtr (repeat 0 24)), sample_iq_config, [LF]).
Proof. repeat split; vm_compute; reflexivity. Qed.

(** The lines of a cnst record, and the same lines the other way round. *)
Definition sample_cnst_lines : list (list Z) :=
  [str "nchannels:1"; str "nranges:2"; str "nsweeps:3"; str "iqindicator:4"].

Lemma make_node_order_of_lines_witness :
  made_block (make_of true sample_strtod sample_float F_cnst config0
                (text_of_lines sample_cnst_lines ++ LF :: []))
  = made_block (make_of true sample_strtod sample_float F_cnst config0
                  (text_of_lines (rev sample_cnst_lines) ++ LF :: [])).
Proof.
  refine (proj1 (make_node_order_of_lines true sample_strtod sample_float
                   F_cnst config0 sample_cnst_lines (rev sample_cnst_lines)
                   [] [] eq_refl (Permutation_rev _) eq_refl _)).
  vm_compute.
  repeat (apply NoDup_cons;
          [cbn; intros H;
           repeat (destruct H as [H|H]; [discriminate H|]); exact H|]).
  apply NoDup_nil.
Defined.

(** A line of 255 characters for the field iqindicator: the name, 242
    times the digit 0 and the digit 4. *)
Definition long_cnst_line : list Z :=
  str "iqindicator:" ++ repeat 48 242 ++ str "4".

(** A cnst record with that line: as the last line of the record the
    line is read as one piece and the block is made; as the first line
    it is read as a piece of 255 characters and a piece that holds its
    newline alone, which [read_parameter] takes for the blank line that
    ends the record, so the field nchannels, whose line comes behind it,
    is not found. *)
Lemma long_field_line_order_matters :
  length long_cnst_line = 255%nat
  /\ Permutation
       [str "nchannels:1"; str "nranges:2"; str "nsweeps:3"; long_cnst_line]
       [long_cnst_line; str "nchannels:1"; str "nranges:2"; str "nsweeps:3"]
  /\ made_block
       (make_of true sample_strtod sample_float F_cnst config0
          (text_of_lines [str "nchannels:1"; str "nranges:2"; str "nsweeps:3";
                          long_cnst_line] ++ [LF]))
     = Ok (mknode KEY_cnst 16
             (HeapPtr (flat_map (host_encode true 4) [1; 2; 3; 4])), config0)
  /\ made_block
       (make_of true sample_strtod sample_float F_cnst config0
          (text_of_lines [long_cnst_line; str "nchannels:1"; str "nranges:2";
                          str "nsweeps:3"] ++ [LF]))
     = Err 1 [D_cannot_find_parameter (mkformat (str "nchannels:") Conv_d)].
Proof.
  split; [vm_compute; reflexivity|].
  split; [|split; vm_compute; reflexivity].
  apply Permutation_sym.
  apply (Permutation_cons_append
           [str "nchannels:1"; str "nranges:2"; str "nsweeps:3"]
           long_cnst_line).
Qed.

(** * Further properties on the sample host *)

Ltac differ := let H := fresh in intro H; vm_compute in H; discriminate H.

(** What [rsdump] writes for a file of integer leaves, and what [rsgen]
    writes for its text, depend on the host through [ctime] alone: the
    byte order, the conversions of floating point numbers and what the
    line array held before make no difference. *)
Theorem integer_leaves_host_independent
  (le le' : bool) (printf_lf printf_lf' : bool -> nat -> Z -> list Z)
  (strtod strtod' : list Z -> option (Z * list Z))
  (double_of_float double_of_float' float_of_double float_of_double' : Z -> Z)
  (ctime : Z -> list Z) (hl bl : list ileaf) (line0 line0' : list Z) :
  Forall ileaf_ok hl -> Forall ileaf_ok bl -> hl <> [] -> bl <> [] ->
  wire_size hl + wire_size bl + 32 < 2 ^ 32 ->
  ctime_one_line ctime ->
  length line0 = SIZE_LINE -> length line0' = SIZE_LINE ->
  rsdump le printf_lf double_of_float ctime (wire_file hl bl) false
  = rsdump le' printf_lf' double_of_float' ctime (wire_file hl bl) false
  /\ rsgen le strtod float_of_double line0 (file_text ctime hl bl)
     = rsgen le' strtod' float_of_double' line0' (file_text ctime hl bl).
Proof.
  intros Hh Hb Nh Nb Hs Hc Hl Hl'. split.
  - now rewrite !rsdump_wire_file.
  - now rewrite !(rsgen_file_text _ _ _ ctime hl bl).
Qed.

Lemma sample_leaves_ok :
  Forall ileaf_ok sample_head /\ Forall ileaf_ok sample_body.
Proof.
  split.
  - apply Forall_cons; [cbn; lia|].
    apply Forall_cons; [cbn; lia|apply Forall_nil].
  - apply Forall_cons; [cbn; lia|].
    apply Forall_cons; [cbn; lia|apply Forall_nil].
Defined.

Lemma integer_leaves_host_independent_witness :
  rsdump true sample_printf_lf sample_float sample_ctime
    (wire_file sample_head sample_body) false
  = rsdump false (fun _ _ _ => []) (fun _ => 0) sample_ctime
      (wire_file sample_head sample_body) false
  /\ rsgen true sample_strtod sample_float (repeat 0 SIZE_LINE)
       (file_text sample_ctime sample_head sample_body)
     = rsgen false (fun _ => None) (fun _ => 0) (repeat 32 SIZE_LINE)
         (file_text sample_ctime sample_head sample_body).
Proof.
  apply (integer_leaves_host_independent true false sample_printf_lf
           (fun _ _ _ => []) sample_strtod (fun _ => None)
           sample_float (fun _ => 0) sample_float (fun _ => 0)
           sample_ctime sample_head sample_body
           (repeat 0 SIZE_LINE) (repeat 32 SIZE_LINE)).
  - apply sample_leaves_ok.
  - apply sample_leaves_ok.
  - discriminate.
  - discriminate.
  - vm_compute. reflexivity.
  - intros t. reflexivity.
  - reflexivity.
  - reflexivity.
Defined.

Lemma endian_fixup_twice_witness :
  endian_fixup true (endian_fixup true [1; 2; 3; 4]) = [1; 2; 3; 4]
  /\ length (endian_fixup true [1; 2; 3; 4]) = 4%nat.
Proof. apply (endian_fixup_twice true [1; 2; 3; 4]). cbn [length]. lia. Defined.

Lemma file_byte_order_witness :
  host_decode true (endian_fixup true [1; 2; 3; 4]) = be_decode [1; 2; 3; 4]
  /\ endian_fixup true (host_encode true 4 258) = be_encode 4 258
  /\ strkey true KEY_cnst = be_encode 4 KEY_cnst.
Proof.
  apply (file_byte_order true [1; 2; 3; 4] 4 258 KEY_cnst); left; reflexivity.
Defined.

Lemma parse_file_wire_file_witness :
  parse_file true (wire_file sample_head sample_body)
  = Parsed (host_file true sample_head sample_body)
      (file_nodes (wire_size sample_head + sizeof_block_header
                   + wire_size sample_body + sizeof_block_header)
         sample_head sample_body) [].
Proof.
  apply (parse_file_wire_file true sample_head sample_body).
  vm_compute. reflexivity.
Defined.

Lemma parse_block_clamps_final_leaf_witness :
  parse_block true 1 ([] ++ wire_header KEY_cnst 16 ++ [1; 2; 3]) 0
    (8 + Z.of_nat (length [1; 2; 3]))
  = Parsed ((host_encode true 4 KEY_cnst ++ host_encode true 4 16) ++ [1; 2; 3])
      [mknode KEY_cnst (Z.of_nat (length [1; 2; 3])) (BufPtr (0 + 8))]
      [D_size_truncated KEY_cnst 16 (Z.of_nat (length [1; 2; 3]));
       D_block_truncated KEY_cnst; D_error_fixing KEY_cnst].
Proof.
  apply (parse_block_clamps_final_leaf true 0 [] [1; 2; 3] KEY_cnst 16 1
           ((host_encode true 4 KEY_cnst ++ host_encode true 4 16) ++ [1; 2; 3])
           [D_block_truncated KEY_cnst; D_error_fixing KEY_cnst]).
  - vm_compute. split; [discriminate|reflexivity].
  - lia.
  - reflexivity.
  - cbn. lia.
  - reflexivity.
Defined.

Lemma rsdump_bad_header_witness :
  rsdump true sample_printf_lf sample_float sample_ctime
    (str "RIFF" ++ repeat 0 8) false
  = Exit 0 []
      [D_bad_header_key (be_decode (firstn 4 (str "RIFF" ++ repeat 0 8)))].
Proof.
  apply (rsdump_bad_header true sample_printf_lf sample_float sample_ctime
           (str "RIFF" ++ repeat 0 8) false).
  - cbn. lia.
  - differ.
Defined.

Lemma dump_list_header_only_witness :
  dump_list true sample_printf_lf sample_float sample_ctime []
    ([mknode KEY_AQFT 0 NullPtr; mknode KEY_HEAD 0 NullPtr]
       ++ mknode KEY_BODY 0 NullPtr :: [mknode KEY_xxxx 0 NullPtr])
    config0 true []
  = dump_list true sample_printf_lf sample_float sample_ctime []
      [mknode KEY_AQFT 0 NullPtr; mknode KEY_HEAD 0 NullPtr] config0 false [].
Proof.
  apply (dump_list_header_only true sample_printf_lf sample_float sample_ctime
           [] [mknode KEY_AQFT 0 NullPtr; mknode KEY_HEAD 0 NullPtr]
           [mknode KEY_xxxx 0 NullPtr] (mknode KEY_BODY 0 NullPtr)).
  - apply Forall_cons; [differ|].
    apply Forall_cons; [differ|apply Forall_nil].
  - reflexivity.
Defined.

Lemma set_block_size_absent_witness :
  set_block_size [mknode KEY_AQFT 0 NullPtr; mknode KEY_END 0 NullPtr]
    KEY_HEAD 16
  = (1, [mknode KEY_AQFT 0 NullPtr; mknode KEY_END 0 NullPtr]).
Proof.
  apply set_block_size_absent.
  apply Forall_cons; [differ|].
  apply Forall_cons; [differ|apply Forall_nil].
Defined.

Lemma fixup_sizes_needs_head_and_body_witness :
  fixup_sizes [root_node; mknode KEY_AQFT 0 NullPtr;
               mknode KEY_BODY 0 NullPtr; mknode KEY_rtag 4 NullPtr;
               mknode KEY_END 0 NullPtr]
  = (1, [root_node; mknode KEY_AQFT 0 NullPtr;
         mknode KEY_BODY 0 NullPtr; mknode KEY_rtag 4 NullPtr;
         mknode KEY_END 0 NullPtr]).
Proof.
  apply fixup_sizes_needs_head_and_body. left.
  repeat (apply Forall_cons; [differ|]). apply Forall_nil.
Defined.

Lemma fixup_sizes_idempotent_witness :
  fixup_sizes
    (snd (fixup_sizes
            ([root_node] ++ mknode KEY_AQFT 0 NullPtr :: []
               ++ mknode KEY_HEAD 0 NullPtr :: [mknode KEY_dbrf 8 NullPtr]
               ++ mknode KEY_BODY 0 NullPtr :: [mknode KEY_cnst 16 NullPtr]
               ++ mknode KEY_END 0 NullPtr :: [])))
  = fixup_sizes
      ([root_node] ++ mknode KEY_AQFT 0 NullPtr :: []
         ++ mknode KEY_HEAD 0 NullPtr :: [mknode KEY_dbrf 8 NullPtr]
         ++ mknode KEY_BODY 0 NullPtr :: [mknode KEY_cnst 16 NullPtr]
         ++ mknode KEY_END 0 NullPtr :: []).
Proof.
  apply (fixup_sizes_idempotent [root_node] []
           [mknode KEY_dbrf 8 NullPtr] [mknode KEY_cnst 16 NullPtr] []
           (mknode KEY_AQFT 0 NullPtr) (mknode KEY_HEAD 0 NullPtr)
           (mknode KEY_BODY 0 NullPtr) (mknode KEY_END 0 NullPtr)
           eq_refl eq_refl eq_refl eq_refl).
  - apply Forall_cons; [split; reflexivity|apply Forall_nil].
  - apply Forall_nil.
  - apply Forall_cons; [reflexivity|apply Forall_nil].
  - apply Forall_cons; [reflexivity|apply Forall_nil].
  - apply Forall_nil.
  - differ.
  - differ.
Defined.

Lemma chomp_no_newline_witness :
  forallb (fun c => negb (c =? LF))
    (cstring (chomp [97; 98; 10; 7; 7; 7; 7; 7] 8)) = true
  /\ strlen (chomp [97; 98; 10; 7; 7; 7; 7; 7] 8) < Z.of_nat 8
  /\ length (chomp [97; 98; 10; 7; 7; 7; 7; 7] 8) = 8%nat.
Proof.
  apply (chomp_no_newline [97; 98; 10; 7; 7; 7; 7; 7] 8).
  - reflexivity.
  - lia.
Defined.

Lemma read_parameter_label_only_witness :
  read_parameter true sample_strtod
    (label (mkformat (str "rtag:") Conv_u) ++ LF :: [LF])
    (mkformat (str "rtag:") Conv_u)
  = Ok None.
Proof.
  apply (read_parameter_label_only true sample_strtod
           (mkformat (str "rtag:") Conv_u) [LF]).
  - reflexivity.
  - discriminate.
Defined.

Lemma read_parameter_end_of_file_witness :
  read_parameter true sample_strtod (text_of_lines [str "index:7"])
    (mkformat (str "rtag:") Conv_u)
  = Ok None
  /\ read_parameter true sample_strtod
       (text_of_lines [str "index:7"] ++ LF :: [])
       (mkformat (str "rtag:") Conv_u)
     = Err 1 [D_cannot_find_parameter (mkformat (str "rtag:") Conv_u)].
Proof.
  destruct (read_parameter_end_of_file true sample_strtod
              (mkformat (str "rtag:") Conv_u) [str "index:7"])
    as [H1 H2].
  - reflexivity.
  - apply Forall_cons; [reflexivity|apply Forall_nil].
  - split; [exact H1|exact (H2 [])].
Defined.

Lemma hasi_round_trip_witness :
  exists body,
    dump_block_hasi true ([] ++ [222; 173; 190; 239] ++ [])
      (mknode KEY_hasi (Z.of_nat (length [222; 173; 190; 239]))
         (BufPtr (length (@nil Z)))) config0
    = Ok (printf_s (strkey true KEY_hasi) ++ [LF] ++ body ++ [LF], config0)
    /\ make_node_hasi config0 (body ++ LF :: [])
       = Ok (mknode KEY_hasi (Z.of_nat (length [222; 173; 190; 239]))
               (HeapPtr [222; 173; 190; 239]), config0, LF :: [])
    /\ gen_block_hasi true
         (mknode KEY_hasi (Z.of_nat (length [222; 173; 190; 239]))
            (HeapPtr [222; 173; 190; 239]))
       = wire_header KEY_hasi (Z.of_nat (length [222; 173; 190; 239]))
           ++ [222; 173; 190; 239].
Proof.
  apply (hasi_round_trip true [222; 173; 190; 239] [] [] [] config0 config0).
  - repeat (apply Forall_cons; [lia|]). apply Forall_nil.
  - cbn. lia.
Defined.

Lemma hasi_long_line_is_cut_witness :
  make_node_hasi config0 (hexline (repeat 171 255) ++ LF :: [])
  = Ok (mknode KEY_hasi 254 (HeapPtr (firstn 254 (repeat 171 255))), config0,
        flat_map (fun b => 32 :: printf_02x b) (skipn 254 (repeat 171 255))
          ++ LF :: []).
Proof.
  apply (hasi_long_line_is_cut (repeat 171 255) [] config0).
  - apply Forall_forall. intros x Hx. apply repeat_spec in Hx. subst x. lia.
  - rewrite repeat_length. lia.
Defined.

Lemma iqdata_dump_is_not_read_back_witness :
  (exists body,
     dump_block_afft true sample_printf_lf sample_float (repeat 0 8)
       (mknode KEY_afft 8 (BufPtr 0)) sample_iq_config
     = Ok (printf_s (strkey true KEY_afft) ++ [LF] ++ body ++ [LF],
           sample_iq_config)
     /\ make_node_afft true sample_strtod sample_float sample_iq_config
          (body ++ LF :: [])
        = Err 1 [D_bad_number_of_lines (8 / sizeof_block_iqdata_float)
                   KEY_afft])
  /\ (exists body,
        dump_block_ifft true sample_printf_lf sample_float (repeat 0 8)
          (mknode KEY_ifft 8 (BufPtr 0)) sample_iq_config
        = Ok (printf_s (strkey true KEY_ifft) ++ [LF] ++ body ++ [LF],
              sample_iq_config)
        /\ make_node_ifft true sample_strtod sample_float sample_iq_config
             (body ++ LF :: [])
           = Err 1 [D_bad_number_of_lines (8 / sizeof_block_iqdata_float)
                      KEY_ifft]).
Proof.
  apply (iqdata_dump_is_not_read_back true sample_printf_lf sample_strtod
           sample_float sample_float (repeat 0 8)
           (mknode KEY_afft 8 (BufPtr 0)) sample_iq_config sample_iq_config []).
  - intros b p d. split; [reflexivity|cbn; lia].
  - reflexivity.
  - reflexivity.
  - vm_compute. discriminate.
  - differ.
Defined.

(** The 8 bytes of an fbin block with the codes cviq and flt4. *)
Definition sample_fbin : list Z :=
  host_encode true 4 BINFORMAT_CVIQ ++ host_encode true 4 BINTYPE_FLT4.

Lemma fbin_text_overruns_block_witness :
  exists body,
    dump_block_fbin true ([] ++ sample_fbin ++ [])
      (mknode KEY_fbin sizeof_block_fbin (BufPtr (length (@nil Z)))) config0
    = Ok (printf_s (strkey true KEY_fbin) ++ [LF] ++ body,
          mkconfig BINFORMAT_CVIQ BINTYPE_FLT4 (index config0)
            (scalar_one config0) (scalar_two config0))
    /\ make_node_fbin true sample_strtod config0 (body ++ []) = Overrun
    /\ gen_block_fbin true
         (mknode KEY_fbin sizeof_block_fbin (HeapPtr sample_fbin))
       = wire_header KEY_fbin sizeof_block_fbin
           ++ be_encode 4 BINFORMAT_CVIQ ++ be_encode 4 BINTYPE_FLT4.
Proof.
  apply (fbin_text_overruns_block true sample_strtod BINFORMAT_CVIQ
           BINTYPE_FLT4 [] [] [] config0 config0).
  - vm_compute. split; [discriminate|reflexivity].
  - vm_compute. split; [discriminate|reflexivity].
  - reflexivity.
  - reflexivity.
Defined.

Lemma fbin_type_is_five_bytes_witness :
  read_parameter true sample_strtod (str "type:" ++ str "flt4" ++ LF :: [LF])
    (mkformat (str "type:") (Conv_s 4))
  = Ok (Some (str "flt4" ++ [NUL]))
  /\ 4 + Z.of_nat (length (str "flt4" ++ [NUL])) = sizeof_block_fbin + 1.
Proof.
  apply (fbin_type_is_five_bytes true sample_strtod (str "flt4") [LF]);
    reflexivity.
Defined.

(** The record of a sign block with the user flags 1f. *)
Definition sample_sign_text : list Z :=
  text_of_lines [str "version:1.00"; str "filetype:RSDT"; str "sitecode:ABCD";
                 str "userflags:1f"; str "description:test";
                 str "ownername:nobody"; str "comment:none"] ++ [LF].

Definition sample_sign_node : node :=
  match make_node_sign true sample_strtod config0 sample_sign_text with
  | Ok (n, _, _) => n
  | _ => root_node
  end.

Lemma sign_userflags_host_order_witness :
  exists sign,
    data sample_sign_node = HeapPtr sign
    /\ slice sign 12 4 = host_encode true 4 31
    /\ gen_block_sign true sample_sign_node
       = gen_header true sample_sign_node ++ sign
    /\ (true = true -> slice sign 12 4 = rev (be_encode 4 31)).
Proof.
  apply (sign_userflags_host_order true sample_strtod config0 config0
           sample_sign_text sample_sign_text sample_sign_node 31).
  - vm_compute. reflexivity.
  - vm_compute. reflexivity.
Defined.

Lemma hasi_many_tokens_overrun_witness :
  make_node_hasi config0 (token_line (repeat 49 256) ++ LF :: []) = Overrun.
Proof.
  apply (hasi_many_tokens_overrun (repeat 49 256) [] config0).
  - apply forallb_forall. intros x Hx. apply repeat_spec in Hx. subst x.
    reflexivity.
  - rewrite repeat_length. lia.
Defined.

Lemma rsgen_without_records_witness :
  rsgen true sample_strtod sample_float (repeat 0 SIZE_LINE)
    (text_of_lines [str "rtag:5"; []])
  = Undefined.
Proof.
  apply (rsgen_without_records true sample_strtod sample_float
           (repeat 0 SIZE_LINE) [str "rtag:5"; []]).
  - reflexivity.
  - apply Forall_cons; [right; reflexivity|].
    apply Forall_cons; [left; reflexivity|apply Forall_nil].
Defined.
